(** * ritmex-bot: swing strategy and Binance depth tracker

    A shallow embedding of
    - [src/strategy/swing-logic.ts]   (the pure RSI arm/fire state machine),
    - [src/strategy/swing-engine.ts]  (tick loop, spot guard, stop-loss and
      kill-switch handling),
    - [src/strategy/common/binance-depth.ts] (the incremental order book).

    JavaScript numbers are IEEE-754 binary64 values; they are modelled by
    Rocq's primitive floats, so that every arithmetic operation and every
    comparison below rounds and treats NaN exactly as the program does.
    Update identifiers and timestamps, which the program only ever compares
    and increments, are integers. *)

From Stdlib Require Import Floats ZArith List String Ascii Bool Lia.
From Stdlib Require Uint63.
Import ListNotations.

Set Warnings "-inexact-float".

(* ================================================================== *)
(** ** JavaScript number primitives used by the program *)
(* ================================================================== *)

Module JS.

Local Open Scope float_scope.

(** [Number.isFinite(x)] for a value that already is a number. *)
Definition isFinite (x : float) : bool := negb (is_nan x || is_infinity x).

(** [Math.abs]. *)
Definition abs (x : float) : float := PrimFloat.abs x.

(** [Math.max(a, b)]: NaN as soon as one argument is NaN, and [+0] is
    larger than [-0]. *)
Definition max (a b : float) : float :=
  if is_nan a || is_nan b then nan
  else if a <? b then b
  else if b <? a then a
  else if get_sign a then b else a.

(** [x === y] on numbers. *)
Definition strictEq (x y : float) : bool := x =? y.

(** [Number(s)] on the plain decimal literals the exchange sends
    (["69345"], ["0.0024"], ["-1"]; the empty string is [0]).  A literal
    with at most 15 digits is the correctly rounded quotient of two exactly
    represented numbers; everything else is outside this fragment and maps
    to NaN.  It stands for [Number] wherever a closed instance is
    evaluated. *)
Fixpoint readDigits (s : string) (acc : Z) (count : nat) : Z * nat * string :=
  match s with
  | String c rest =>
    let d := (Z.of_nat (nat_of_ascii c) - 48)%Z in
    if ((0 <=? d) && (d <=? 9))%Z
    then readDigits rest (acc * 10 + d)%Z (S count)
    else (acc, count, s)
  | EmptyString => (acc, count, s)
  end.

Fixpoint pow10 (k : nat) : float :=
  match k with
  | O => 1
  | S k => 10 * pow10 k
  end.

Definition decimalMagnitude (s : string) : float :=
  let '(whole, wholeCount, rest) := readDigits s 0 0 in
  match rest with
  | EmptyString =>
    if (0 <? wholeCount)%nat && (wholeCount <=? 15)%nat
    then of_uint63 (Uint63.of_Z whole) else nan
  | String "." fraction =>
    let '(all, allCount, rest) := readDigits fraction whole wholeCount in
    match rest with
    | EmptyString =>
      if (0 <? allCount)%nat && (allCount <=? 15)%nat
      then of_uint63 (Uint63.of_Z all) / pow10 (allCount - wholeCount) else nan
    | _ => nan
    end
  | _ => nan
  end.

Definition decimalNumber (s : string) : float :=
  match s with
  | EmptyString => 0
  | String "-" rest => - decimalMagnitude rest
  | _ => decimalMagnitude s
  end.

End JS.

(* ================================================================== *)
(** ** swing-logic.ts: the pure arm/fire state machine *)
(* ================================================================== *)

Module SwingLogic.

Local Open Scope float_scope.

Inductive SwingDirection := long | short | both.

Record SwingLogicConfig := {
  direction : SwingDirection;
  rsiHigh : float;
  rsiLow : float
}.

Record SwingState := {
  prevRsi : option float;
  armedShortEntry : bool;
  armedShortExit : bool;
  armedLongEntry : bool;
  armedLongExit : bool
}.

Inductive SwingActionType := OPEN_SHORT | OPEN_LONG | CLOSE_POSITION.

Record SwingAction := {
  type : SwingActionType;
  reason : string
}.

Record SwingStepInput := {
  rsi : option float;
  positionAmt : float;
  pnl : float
}.

Definition createInitialSwingState : SwingState :=
  {| prevRsi := None;
     armedShortEntry := false;
     armedShortExit := false;
     armedLongEntry := false;
     armedLongExit := false |}.

(** Field assignments [nextState.f = v] on the copied state. *)
Definition set_prevRsi (v : option float) (s : SwingState) : SwingState :=
  {| prevRsi := v; armedShortEntry := armedShortEntry s;
     armedShortExit := armedShortExit s; armedLongEntry := armedLongEntry s;
     armedLongExit := armedLongExit s |}.
Definition set_armedShortEntry (v : bool) (s : SwingState) : SwingState :=
  {| prevRsi := prevRsi s; armedShortEntry := v;
     armedShortExit := armedShortExit s; armedLongEntry := armedLongEntry s;
     armedLongExit := armedLongExit s |}.
Definition set_armedShortExit (v : bool) (s : SwingState) : SwingState :=
  {| prevRsi := prevRsi s; armedShortEntry := armedShortEntry s;
     armedShortExit := v; armedLongEntry := armedLongEntry s;
     armedLongExit := armedLongExit s |}.
Definition set_armedLongEntry (v : bool) (s : SwingState) : SwingState :=
  {| prevRsi := prevRsi s; armedShortEntry := armedShortEntry s;
     armedShortExit := armedShortExit s; armedLongEntry := v;
     armedLongExit := armedLongExit s |}.
Definition set_armedLongExit (v : bool) (s : SwingState) : SwingState :=
  {| prevRsi := prevRsi s; armedShortEntry := armedShortEntry s;
     armedShortExit := armedShortExit s; armedLongEntry := armedLongEntry s;
     armedLongExit := v |}.

Definition EPS : float := 1e-8.

Definition crossUp (prev : option float) (next threshold : float) : bool :=
  match prev with
  | None => false
  | Some prev => (prev <=? threshold) && (threshold <? next)
  end.

Definition crossDown (prev : option float) (next threshold : float) : bool :=
  match prev with
  | None => false
  | Some prev => (threshold <=? prev) && (next <? threshold)
  end.

Definition allowLong (c : SwingLogicConfig) : bool :=
  match direction c with long | both => true | short => false end.

Definition allowShort (c : SwingLogicConfig) : bool :=
  match direction c with short | both => true | long => false end.

Definition isFlat (positionAmt : float) : bool :=
  negb (JS.isFinite positionAmt) || (JS.abs positionAmt <=? EPS).
Definition isLong (positionAmt : float) : bool :=
  JS.isFinite positionAmt && (EPS <? positionAmt).
Definition isShort (positionAmt : float) : bool :=
  JS.isFinite positionAmt && (positionAmt <? - EPS).

Definition openShort : SwingAction :=
  {| type := OPEN_SHORT;
     reason := "RSI armed above high, then crossed below high" |}.
Definition openLong : SwingAction :=
  {| type := OPEN_LONG;
     reason := "RSI armed below low, then crossed above low" |}.
Definition closeShort : SwingAction :=
  {| type := CLOSE_POSITION;
     reason := "RSI exit armed below low, then crossed above low with profit" |}.
Definition closeLong : SwingAction :=
  {| type := CLOSE_POSITION;
     reason := "RSI exit armed above high, then crossed below high with profit" |}.

(** The flat branch: short-entry block, then long-entry block, then the
    defensive dual-entry guard. *)
Definition stepFlat (prev : option float) (rsi : float)
    (config : SwingLogicConfig) (nextState : SwingState)
  : SwingState * list SwingAction :=
  let nextState := set_armedLongExit false (set_armedShortExit false nextState) in
  let actions : list SwingAction := [] in
  let '(nextState, actions) :=
    if negb (allowShort config) then (set_armedShortEntry false nextState, actions)
    else
      let nextState :=
        if crossUp prev rsi (rsiHigh config)
        then set_armedShortEntry true nextState else nextState in
      if armedShortEntry nextState && crossDown prev rsi (rsiHigh config)
      then (set_armedLongEntry false (set_armedShortEntry false nextState),
            actions ++ [openShort])
      else (nextState, actions) in
  let '(nextState, actions) :=
    if negb (allowLong config) then (set_armedLongEntry false nextState, actions)
    else
      let nextState :=
        if crossDown prev rsi (rsiLow config)
        then set_armedLongEntry true nextState else nextState in
      if armedLongEntry nextState && crossUp prev rsi (rsiLow config)
      then (set_armedShortEntry false (set_armedLongEntry false nextState),
            actions ++ [openLong])
      else (nextState, actions) in
  if (1 <? List.length actions)%nat
  then (set_armedLongEntry false (set_armedShortEntry false nextState), [])
  else (nextState, actions).

(** The short-exposure branch. *)
Definition stepShort (prev : option float) (rsi pnl : float)
    (config : SwingLogicConfig) (nextState : SwingState)
  : SwingState * list SwingAction :=
  let nextState := set_armedLongExit false nextState in
  let nextState :=
    if crossDown prev rsi (rsiLow config)
    then set_armedShortExit true nextState else nextState in
  if armedShortExit nextState && crossUp prev rsi (rsiLow config) && (0 <? pnl)
  then (set_armedShortExit false nextState, [closeShort])
  else (nextState, []).

(** The long-exposure branch. *)
Definition stepLong (prev : option float) (rsi pnl : float)
    (config : SwingLogicConfig) (nextState : SwingState)
  : SwingState * list SwingAction :=
  let nextState := set_armedShortExit false nextState in
  let nextState :=
    if crossUp prev rsi (rsiHigh config)
    then set_armedLongExit true nextState else nextState in
  if armedLongExit nextState && crossDown prev rsi (rsiHigh config) && (0 <? pnl)
  then (set_armedLongExit false nextState, [closeLong])
  else (nextState, []).

Definition stepSwing (state : SwingState) (config : SwingLogicConfig)
    (input : SwingStepInput) : SwingState * list SwingAction :=
  let nextState := state in
  let prev := prevRsi nextState in
  let amt := positionAmt input in
  match rsi input with
  | None => (nextState, [])
  | Some r =>
    if negb (JS.isFinite r) then (nextState, [])
    else
      let nextState := set_prevRsi (Some r) nextState in
      if isFlat amt then stepFlat prev r config nextState
      else
        let nextState :=
          set_armedLongEntry false (set_armedShortEntry false nextState) in
        if isShort amt then stepShort prev r (pnl input) config nextState
        else if isLong amt then stepLong prev r (pnl input) config nextState
        else (nextState, [])
  end.

Definition actionTypes (r : SwingState * list SwingAction) : list SwingActionType :=
  map type (snd r).

(** States the engine can hold: it starts from [createInitialSwingState]
    and only ever replaces its state by the result of a step. *)
Inductive reachable : SwingState -> Prop :=
| reachable_init : reachable createInitialSwingState
| reachable_step st config input :
    reachable st -> reachable (fst (stepSwing st config input)).

Definition withDirection (d : SwingDirection) (c : SwingLogicConfig) :=
  {| direction := d; rsiHigh := rsiHigh c; rsiLow := rsiLow c |}.

(** Whether the short entry of a flat step fires. *)
Definition shortFires (state : SwingState) (config : SwingLogicConfig)
    (r : float) : bool :=
  allowShort config && armedShortEntry state &&
  crossDown (prevRsi state) r (rsiHigh config).

(** Whether the long entry of a flat step fires. *)
Definition longFires (state : SwingState) (config : SwingLogicConfig)
    (r : float) : bool :=
  allowLong config && armedLongEntry state &&
  crossUp (prevRsi state) r (rsiLow config) && negb (shortFires state config r).

(** Fixtures for the scenarios of the test suite: thresholds 70 and 30,
    one event, and a run of events collecting the action types. *)
Definition cfg (d : SwingDirection) : SwingLogicConfig :=
  {| direction := d; rsiHigh := 70; rsiLow := 30 |}.

Definition ev (r amt p : float) : SwingStepInput :=
  {| rsi := Some r; positionAmt := amt; pnl := p |}.

Fixpoint run (config : SwingLogicConfig) (inputs : list SwingStepInput)
    (state : SwingState) : SwingState * list (list SwingActionType) :=
  match inputs with
  | [] => (state, [])
  | input :: inputs =>
    let out := stepSwing state config input in
    let '(final, later) := run config inputs (fst out) in
    (final, actionTypes out :: later)
  end.

(** The last valid RSI sample of a run of inputs, [init] when there is
    none. *)
Fixpoint lastValid (inputs : list SwingStepInput) (init : option float)
  : option float :=
  match inputs with
  | [] => init
  | input :: inputs =>
    lastValid inputs
      match rsi input with
      | Some r => if JS.isFinite r then Some r else init
      | None => init
      end
  end.

End SwingLogic.

(* ================================================================== *)
(** ** swing-engine.ts: the engine around the state machine

    The engine is an object mutated by callbacks; it is modelled by a record
    and by one state transformer per callback.  What a callback does to the
    outside world (snapshot emission, trade-log entries, calls into the
    order coordinator, the rate limiter and the session-volume tracker) is
    returned as a list of effects, in program order.  A tick is modelled
    without interleaving: its awaited calls complete before any other
    callback runs. *)
(* ================================================================== *)

Module SwingEngine.

Local Open Scope string_scope.
Local Open Scope list_scope.
Local Open Scope float_scope.

Inductive Side := BUY | SELL.

Definition sideName (s : Side) : string :=
  match s with BUY => "BUY" | SELL => "SELL" end.

Definition Side_eqb (a b : Side) : bool :=
  match a, b with BUY, BUY | SELL, SELL => true | _, _ => false end.

(** [PositionSnapshot] of utils/strategy, as far as the engine reads it. *)
Record PositionSnapshot := {
  positionAmt : float;
  entryPrice : float;
  markPrice : option float;
  unrealizedProfit : float
}.

(** [SwingConfig]; [priceTick] and [qtyStep] are overwritten by the
    precision sync. *)
Record SwingConfig := {
  symbol : string;
  direction : SwingLogic.SwingDirection;
  tradeAmount : float;
  rsiHigh : float;
  rsiLow : float;
  stopLossPct : float;
  maxCloseSlippagePct : float;
  priceTick : float;
  qtyStep : float
}.

Record AsterAccountSnapshot := {
  marketType : string;
  positions : list (string * PositionSnapshot)
}.

(** An open order; [stopPrice] holds [Number(o.stopPrice)]. *)
Record AsterOrder := {
  orderSymbol : string;
  orderSide : Side;
  orderType : string;
  orderStatus : string;
  stopPrice : float
}.

(** The ticker; [lastPrice] holds [Number(ticker.lastPrice)]. *)
Record AsterTicker := { lastPrice : float }.

Record AsterDepth := {
  bids : list (string * string);
  asks : list (string * string)
}.

Record BinanceRsiSnapshot := {
  rsi : option float;
  isStable : bool
}.

Record StopAttempt := {
  attemptSide : option Side;
  attemptPrice : option float;
  attemptAt : Z
}.

Record Engine := {
  config : SwingConfig;
  accountSnapshot : option AsterAccountSnapshot;
  openOrders : list AsterOrder;
  depthSnapshot : option AsterDepth;
  tickerSnapshot : option AsterTicker;
  binanceSnapshot : BinanceRsiSnapshot;
  timer : bool;
  processing : bool;
  disabled : bool;
  lastError : option string;
  ordersSnapshotReady : bool;
  swingState : SwingLogic.SwingState;
  lastStopAttempt : StopAttempt
}.

(** Calls into the order coordinator (core/order-coordinator), with the
    side, the quantity and the prices they are given; the slippage guard
    and the precision arguments are left out. *)
Inductive Call :=
| placeMarketOrder (side : Side) (amount : float)
| marketClose (side : Side) (quantity : float)
| placeStopLossOrder (side : Side) (stopPrice quantity lastPrice : float).

(** How an awaited coordinator call ends: it resolves, or it rejects with
    an error that [isUnknownOrderError] recognises or not; the string is
    [extractMessage(err)]. *)
Inductive Outcome :=
| resolved
| rejectedUnknownOrder (message : string)
| rejected (message : string).

Inductive Decision := run | skip | paused.

Inductive Effect :=
| emitUpdate
| tradeLogPush (type detail : string)
| call (c : Call)
| sessionVolumeUpdate (position : PositionSnapshot) (price : option float)
| onCycleComplete (hadRateLimit : bool).

Definition isCall (e : Effect) : bool :=
  match e with call _ => true | _ => false end.

Definition EPS : float := 1e-5.

Definition spotError : string :=
  "Swing strategy requires perp/margin for shorting; spot accounts cannot short.".

(** Field assignments on the engine. *)
Definition set_config (v : SwingConfig) (e : Engine) : Engine :=
  {| config := v; accountSnapshot := accountSnapshot e;
     openOrders := openOrders e; depthSnapshot := depthSnapshot e;
     tickerSnapshot := tickerSnapshot e; binanceSnapshot := binanceSnapshot e;
     timer := timer e; processing := processing e; disabled := disabled e;
     lastError := lastError e; ordersSnapshotReady := ordersSnapshotReady e;
     swingState := swingState e; lastStopAttempt := lastStopAttempt e |}.
Definition set_accountSnapshot (v : option AsterAccountSnapshot) (e : Engine) : Engine :=
  {| config := config e; accountSnapshot := v;
     openOrders := openOrders e; depthSnapshot := depthSnapshot e;
     tickerSnapshot := tickerSnapshot e; binanceSnapshot := binanceSnapshot e;
     timer := timer e; processing := processing e; disabled := disabled e;
     lastError := lastError e; ordersSnapshotReady := ordersSnapshotReady e;
     swingState := swingState e; lastStopAttempt := lastStopAttempt e |}.
Definition set_openOrders_ready (v : list AsterOrder) (e : Engine) : Engine :=
  {| config := config e; accountSnapshot := accountSnapshot e;
     openOrders := v; depthSnapshot := depthSnapshot e;
     tickerSnapshot := tickerSnapshot e; binanceSnapshot := binanceSnapshot e;
     timer := timer e; processing := processing e; disabled := disabled e;
     lastError := lastError e; ordersSnapshotReady := true;
     swingState := swingState e; lastStopAttempt := lastStopAttempt e |}.
Definition set_depthSnapshot (v : option AsterDepth) (e : Engine) : Engine :=
  {| config := config e; accountSnapshot := accountSnapshot e;
     openOrders := openOrders e; depthSnapshot := v;
     tickerSnapshot := tickerSnapshot e; binanceSnapshot := binanceSnapshot e;
     timer := timer e; processing := processing e; disabled := disabled e;
     lastError := lastError e; ordersSnapshotReady := ordersSnapshotReady e;
     swingState := swingState e; lastStopAttempt := lastStopAttempt e |}.
Definition set_tickerSnapshot (v : option AsterTicker) (e : Engine) : Engine :=
  {| config := config e; accountSnapshot := accountSnapshot e;
     openOrders := openOrders e; depthSnapshot := depthSnapshot e;
     tickerSnapshot := v; binanceSnapshot := binanceSnapshot e;
     timer := timer e; processing := processing e; disabled := disabled e;
     lastError := lastError e; ordersSnapshotReady := ordersSnapshotReady e;
     swingState := swingState e; lastStopAttempt := lastStopAttempt e |}.
Definition set_binanceSnapshot (v : BinanceRsiSnapshot) (e : Engine) : Engine :=
  {| config := config e; accountSnapshot := accountSnapshot e;
     openOrders := openOrders e; depthSnapshot := depthSnapshot e;
     tickerSnapshot := tickerSnapshot e; binanceSnapshot := v;
     timer := timer e; processing := processing e; disabled := disabled e;
     lastError := lastError e; ordersSnapshotReady := ordersSnapshotReady e;
     swingState := swingState e; lastStopAttempt := lastStopAttempt e |}.
Definition set_timer (v : bool) (e : Engine) : Engine :=
  {| config := config e; accountSnapshot := accountSnapshot e;
     openOrders := openOrders e; depthSnapshot := depthSnapshot e;
     tickerSnapshot := tickerSnapshot e; binanceSnapshot := binanceSnapshot e;
     timer := v; processing := processing e; disabled := disabled e;
     lastError := lastError e; ordersSnapshotReady := ordersSnapshotReady e;
     swingState := swingState e; lastStopAttempt := lastStopAttempt e |}.
Definition set_disabled (v : bool) (err : option string) (e : Engine) : Engine :=
  {| config := config e; accountSnapshot := accountSnapshot e;
     openOrders := openOrders e; depthSnapshot := depthSnapshot e;
     tickerSnapshot := tickerSnapshot e; binanceSnapshot := binanceSnapshot e;
     timer := timer e; processing := processing e; disabled := v;
     lastError := err; ordersSnapshotReady := ordersSnapshotReady e;
     swingState := swingState e; lastStopAttempt := lastStopAttempt e |}.
Definition set_swingState (v : SwingLogic.SwingState) (e : Engine) : Engine :=
  {| config := config e; accountSnapshot := accountSnapshot e;
     openOrders := openOrders e; depthSnapshot := depthSnapshot e;
     tickerSnapshot := tickerSnapshot e; binanceSnapshot := binanceSnapshot e;
     timer := timer e; processing := processing e; disabled := disabled e;
     lastError := lastError e; ordersSnapshotReady := ordersSnapshotReady e;
     swingState := v; lastStopAttempt := lastStopAttempt e |}.
Definition set_lastStopAttempt (v : StopAttempt) (e : Engine) : Engine :=
  {| config := config e; accountSnapshot := accountSnapshot e;
     openOrders := openOrders e; depthSnapshot := depthSnapshot e;
     tickerSnapshot := tickerSnapshot e; binanceSnapshot := binanceSnapshot e;
     timer := timer e; processing := processing e; disabled := disabled e;
     lastError := lastError e; ordersSnapshotReady := ordersSnapshotReady e;
     swingState := swingState e; lastStopAttempt := v |}.

(** Helpers the engine imports from modules outside this development
    (utils/strategy, utils/price, utils/pnl, utils/order-status). *)
Section Engine.

Variable getPosition : option AsterAccountSnapshot -> string -> PositionSnapshot.
Variable getTopPrices : option AsterDepth -> option float * option float.
Variable computePositionPnl : PositionSnapshot -> float -> float -> float.
Variable getMidOrLast : option AsterDepth -> option AsterTicker -> option float.
Variable isOrderActiveStatus : string -> bool.

(** [Number(this.tickerSnapshot?.lastPrice)]: NaN without a ticker. *)
Definition tickerLastPrice (e : Engine) : float :=
  match tickerSnapshot e with
  | Some t => lastPrice t
  | None => nan
  end.

Definition getReferencePrice (e : Engine) : option float :=
  match getMidOrLast (depthSnapshot e) (tickerSnapshot e) with
  | Some p => Some p
  | None =>
    match tickerSnapshot e with
    | Some t => Some (lastPrice t)
    | None => None
    end
  end.

Definition isSome {A} (o : option A) : bool :=
  match o with Some _ => true | None => false end.

Definition isReady (e : Engine) : bool :=
  isSome (accountSnapshot e) && isSome (tickerSnapshot e) &&
  isSome (depthSnapshot e) && ordersSnapshotReady e &&
  isStable (binanceSnapshot e) && isSome (rsi (binanceSnapshot e)).

Definition shortingConfigured (c : SwingConfig) : bool :=
  match direction c with
  | SwingLogic.short | SwingLogic.both => true
  | SwingLogic.long => false
  end.

(** The [watchAccount] callback, with the spot guard. *)
Definition onAccount (snapshot : AsterAccountSnapshot) (e : Engine)
  : Engine * list Effect :=
  let e := set_accountSnapshot (Some snapshot) e in
  let position := getPosition (Some snapshot) (symbol (config e)) in
  let reference := getReferencePrice e in
  let volume := [sessionVolumeUpdate position reference] in
  if String.eqb (marketType snapshot) "spot" && shortingConfigured (config e)
  then
    if negb (disabled e)
    then (set_disabled true (Some spotError) e,
          volume ++ [tradeLogPush "error" spotError; emitUpdate])
    else (e, volume ++ [emitUpdate])
  else (e, volume ++ [emitUpdate]).

(** The [watchOrders] callback (lock bookkeeping is the coordinator's). *)
Definition onOrders (orders : list AsterOrder) (e : Engine)
  : Engine * list Effect :=
  let kept :=
    filter (fun order =>
              negb (String.eqb (orderType order) "MARKET") &&
              String.eqb (orderSymbol order) (symbol (config e)) &&
              isOrderActiveStatus (orderStatus order)) orders in
  (set_openOrders_ready kept e, [emitUpdate]).

Definition onDepth (depth : AsterDepth) (e : Engine) : Engine * list Effect :=
  (set_depthSnapshot (Some depth) e, [emitUpdate]).

Definition onTicker (ticker : AsterTicker) (e : Engine) : Engine * list Effect :=
  (set_tickerSnapshot (Some ticker) e, [emitUpdate]).

Definition onRsiUpdate (snapshot : BinanceRsiSnapshot) (e : Engine)
  : Engine * list Effect :=
  (set_binanceSnapshot snapshot e, [emitUpdate]).

Definition start (e : Engine) : Engine := if timer e then e else set_timer true e.

Definition stop (e : Engine) : Engine := if timer e then set_timer false e else e.

(** The continuation of [syncPrecision]; the numbers are not rendered in
    the log line. *)
Definition onPrecision (precision : option (float * float)) (e : Engine)
  : Engine * list Effect :=
  match precision with
  | None => (e, [])
  | Some (tick, step) =>
    let c := config e in
    let newTick :=
      JS.isFinite tick && (0 <? tick) && (1e-12 <? JS.abs (tick - priceTick c)) in
    let newStep :=
      JS.isFinite step && (0 <? step) && (1e-12 <? JS.abs (step - qtyStep c)) in
    let c' :=
      {| symbol := symbol c; direction := direction c;
         tradeAmount := tradeAmount c; rsiHigh := rsiHigh c; rsiLow := rsiLow c;
         stopLossPct := stopLossPct c;
         maxCloseSlippagePct := maxCloseSlippagePct c;
         priceTick := if newTick then tick else priceTick c;
         qtyStep := if newStep then step else qtyStep c |} in
    (set_config c' e,
     if newTick || newStep then [tradeLogPush "info" "Synced precision"] else [])
  end.

Definition tryOpen (side : Side) (reason : string) (oracle : Call -> Outcome)
    (e : Engine) : list Effect :=
  let position := getPosition (accountSnapshot e) (symbol (config e)) in
  if EPS <? JS.abs (positionAmt position) then []
  else
    let c := placeMarketOrder side (tradeAmount (config e)) in
    match oracle c with
    | resolved =>
      [call c; tradeLogPush "open" (reason ++ ": " ++ sideName side ++ " (market)")%string]
    | rejectedUnknownOrder m | rejected m =>
      [call c; tradeLogPush "error" ("Open failed: " ++ m)%string]
    end.

Definition tryClose (position : PositionSnapshot) (reason : string)
    (oracle : Call -> Outcome) : list Effect :=
  if JS.abs (positionAmt position) <=? EPS then []
  else
    let side := if 0 <? positionAmt position then SELL else BUY in
    let c := marketClose side (JS.abs (positionAmt position)) in
    match oracle c with
    | resolved =>
      [call c;
       tradeLogPush "close" (reason ++ ": " ++ sideName side ++ " (market close)")%string]
    | rejectedUnknownOrder _ =>
      [call c; tradeLogPush "order" "Close skipped: order missing"]
    | rejected m =>
      [call c; tradeLogPush "error" ("Close failed: " ++ m)%string]
    end.

Definition hasPosition (position : PositionSnapshot) : bool :=
  EPS <? JS.abs (positionAmt position).

Definition hasEntryPrice (position : PositionSnapshot) : bool :=
  JS.isFinite (entryPrice position) && (1e-8 <? JS.abs (entryPrice position)).

Definition isLongPosition (position : PositionSnapshot) : bool :=
  0 <? positionAmt position.

Definition stopSideOf (position : PositionSnapshot) : Side :=
  if isLongPosition position then SELL else BUY.

Definition stopPriceOf (c : SwingConfig) (position : PositionSnapshot) : float :=
  if isLongPosition position
  then entryPrice position * (1 - JS.max 0 (stopLossPct c))
  else entryPrice position * (1 + JS.max 0 (stopLossPct c)).

Definition effectiveTick (c : SwingConfig) : float := JS.max 1e-9 (priceTick c).

Definition triggerKill (c : SwingConfig) (position : PositionSnapshot)
    (lastPrice : float) : bool :=
  if isLongPosition position
  then JS.isFinite lastPrice && (lastPrice <=? stopPriceOf c position + effectiveTick c)
  else JS.isFinite lastPrice && (stopPriceOf c position - effectiveTick c <=? lastPrice).

Definition isStopOrder (stopSide : Side) (o : AsterOrder) : bool :=
  let hasStopPrice := JS.isFinite (stopPrice o) && (0 <? stopPrice o) in
  Side_eqb (orderSide o) stopSide &&
  (String.eqb (orderType o) "STOP_MARKET" || hasStopPrice).

Definition debounced (a : StopAttempt) (stopSide : Side) (stop tick : float)
    (now : Z) : bool :=
  match attemptSide a, attemptPrice a with
  | Some s, Some p =>
    Side_eqb s stopSide && (JS.abs (stop - p) <? tick) &&
    (now - attemptAt a <? 5000)%Z
  | _, _ => false
  end.

Definition handleStopLoss (position : PositionSnapshot)
    (referencePrice : option float) (now : Z) (oracle : Call -> Outcome)
    (e : Engine) : Engine * list Effect :=
  if negb (hasPosition position)
  then (set_lastStopAttempt
          {| attemptSide := None; attemptPrice := None; attemptAt := 0 |} e, [])
  else if negb (hasEntryPrice position) then (e, [])
  else
    let stopSide := stopSideOf position in
    let stop := stopPriceOf (config e) position in
    let tick := effectiveTick (config e) in
    let lastPrice :=
      match referencePrice with
      | Some p => p
      | None => tickerLastPrice e
      end in
    if triggerKill (config e) position lastPrice
    then (e, tryClose position "Stop-loss kill-switch" oracle)
    else
      match find (isStopOrder stopSide) (openOrders e) with
      | Some _ => (e, [])
      | None =>
        if debounced (lastStopAttempt e) stopSide stop tick now then (e, [])
        else
          let c := placeStopLossOrder stopSide stop
                     (JS.abs (positionAmt position)) lastPrice in
          let e' :=
            set_lastStopAttempt
              {| attemptSide := Some stopSide; attemptPrice := Some stop;
                 attemptAt := now |} e in
          match oracle c with
          | resolved => (e', [call c])
          | rejectedUnknownOrder m | rejected m =>
            (e', [call c;
                  tradeLogPush "error" ("Failed to place stop-loss order: " ++ m)%string])
          end
      end.

Definition perform (position : PositionSnapshot) (oracle : Call -> Outcome)
    (e : Engine) (action : SwingLogic.SwingAction) : list Effect :=
  match SwingLogic.type action with
  | SwingLogic.OPEN_SHORT => tryOpen SELL (SwingLogic.reason action) oracle e
  | SwingLogic.OPEN_LONG => tryOpen BUY (SwingLogic.reason action) oracle e
  | SwingLogic.CLOSE_POSITION =>
    tryClose position (SwingLogic.reason action) oracle
  end.

(** One timer tick.  [decision] is what [rateLimit.beforeCycle()] answers
    and [oracle] how the awaited coordinator calls end. *)
Definition tick (decision : Decision) (oracle : Call -> Outcome) (now : Z)
    (e : Engine) : Engine * list Effect :=
  if processing e then (e, [])
  else
    match decision with
    | paused => (e, [emitUpdate; onCycleComplete false])
    | skip => (e, [onCycleComplete false])
    | run =>
      if disabled e then (e, [emitUpdate; onCycleComplete false])
      else if negb (isReady e) then (e, [emitUpdate; onCycleComplete false])
      else
        let position := getPosition (accountSnapshot e) (symbol (config e)) in
        let '(topBid, topAsk) := getTopPrices (depthSnapshot e) in
        let bid := match topBid with Some b => b | None => tickerLastPrice e end in
        let ask := match topAsk with Some a => a | None => tickerLastPrice e end in
        let pnl := computePositionPnl position bid ask in
        let price := getReferencePrice e in
        let decisionOut :=
          SwingLogic.stepSwing (swingState e)
            {| SwingLogic.direction := direction (config e);
               SwingLogic.rsiHigh := rsiHigh (config e);
               SwingLogic.rsiLow := rsiLow (config e) |}
            {| SwingLogic.rsi := rsi (binanceSnapshot e);
               SwingLogic.positionAmt := positionAmt position;
               SwingLogic.pnl := pnl |} in
        let e := set_swingState (fst decisionOut) e in
        let acted := flat_map (perform position oracle e) (snd decisionOut) in
        let '(e, stopped) := handleStopLoss position price now oracle e in
        (e, acted ++ stopped ++
            [sessionVolumeUpdate position price; emitUpdate;
             onCycleComplete false])
    end.

(** Everything that can happen to an engine. *)
Inductive Operation :=
| opStart
| opStop
| opAccount (snapshot : AsterAccountSnapshot)
| opOrders (orders : list AsterOrder)
| opDepth (depth : AsterDepth)
| opTicker (ticker : AsterTicker)
| opRsiUpdate (snapshot : BinanceRsiSnapshot)
| opPrecision (precision : option (float * float))
| opTick (decision : Decision) (oracle : Call -> Outcome) (now : Z).

Definition apply (op : Operation) (e : Engine) : Engine * list Effect :=
  match op with
  | opStart => (start e, [])
  | opStop => (stop e, [])
  | opAccount snapshot => onAccount snapshot e
  | opOrders orders => onOrders orders e
  | opDepth depth => onDepth depth e
  | opTicker ticker => onTicker ticker e
  | opRsiUpdate snapshot => onRsiUpdate snapshot e
  | opPrecision precision => onPrecision precision e
  | opTick decision oracle now => tick decision oracle now e
  end.

Fixpoint applyAll (ops : list Operation) (e : Engine) : Engine :=
  match ops with
  | [] => e
  | op :: ops => applyAll ops (fst (apply op e))
  end.

End Engine.

(** From [buildSnapshot]: the stop-loss target shown to the observers, for
    the position and the reference price the snapshot is built from. *)
Definition stopLossTarget (c : SwingConfig) (position : PositionSnapshot)
  : option float :=
  if hasPosition position && hasEntryPrice position
  then Some (if 0 <? positionAmt position
             then entryPrice position * (1 - JS.max 0 (stopLossPct c))
             else entryPrice position * (1 + JS.max 0 (stopLossPct c)))
  else None.

(** From [buildSnapshot]: the kill-switch flag shown to the observers. *)
Definition stopLossKillSwitch (c : SwingConfig) (position : PositionSnapshot)
    (reference : option float) : bool :=
  let tick := JS.max 1e-9 (priceTick c) in
  match stopLossTarget c position, reference with
  | Some target, Some ref =>
    if JS.isFinite ref
    then if 0 <? positionAmt position
         then ref <=? target + tick
         else target - tick <=? ref
    else false
  | _, _ => false
  end.

(** Whether a tick gets past its gates. *)
Definition gated (decision : Decision) (e : Engine) : bool :=
  negb (processing e) &&
  match decision with run => true | _ => false end &&
  negb (disabled e) && isReady e.

(** What a coordinator call made for [position] under configuration [c]
    has to look like: an entry only without a position and for the
    configured amount, a close or a stop order only for the whole of an
    existing position, on its closing side. *)
Definition callFits (c : SwingConfig) (position : PositionSnapshot)
    (effect : Effect) : Prop :=
  match effect with
  | call (placeMarketOrder side amount) =>
    (EPS <? JS.abs (positionAmt position)) = false /\
    SwingLogic.isFlat (positionAmt position) = true /\
    amount = tradeAmount c
  | call (marketClose side quantity) =>
    (JS.abs (positionAmt position) <=? EPS) = false /\
    side = stopSideOf position /\
    quantity = JS.abs (positionAmt position)
  | call (placeStopLossOrder side stop quantity _) =>
    hasPosition position = true /\ hasEntryPrice position = true /\
    side = stopSideOf position /\
    stop = stopPriceOf c position /\
    quantity = JS.abs (positionAmt position)
  | _ => True
  end.

(** *** Fixtures for the closed instances *)

Definition demoConfig : SwingConfig :=
  {| symbol := "BTCUSDT"; direction := SwingLogic.short; tradeAmount := 0.001;
     rsiHigh := 70; rsiLow := 30; stopLossPct := 0.05;
     maxCloseSlippagePct := 0.05; priceTick := 0.1; qtyStep := 0.001 |}.

Definition demoEngine : Engine :=
  {| config := demoConfig; accountSnapshot := None; openOrders := [];
     depthSnapshot := None; tickerSnapshot := None;
     binanceSnapshot := {| rsi := None; isStable := false |};
     timer := false; processing := false; disabled := false;
     lastError := None; ordersSnapshotReady := false;
     swingState := SwingLogic.createInitialSwingState;
     lastStopAttempt :=
       {| attemptSide := None; attemptPrice := None; attemptAt := 0 |} |}.

Definition demoLong (entry : float) : PositionSnapshot :=
  {| positionAmt := 1; entryPrice := entry; markPrice := None;
     unrealizedProfit := 0 |}.

Definition noPosition : PositionSnapshot :=
  {| positionAmt := 0; entryPrice := 0; markPrice := None;
     unrealizedProfit := 0 |}.

(** Stand-ins for the imported helpers, used where a closed instance is
    evaluated. *)
Definition demoGetPosition (account : option AsterAccountSnapshot)
    (sym : string) : PositionSnapshot :=
  match account with
  | Some a =>
    match find (fun p => String.eqb (fst p) sym) (positions a) with
    | Some p => snd p
    | None => noPosition
    end
  | None => noPosition
  end.

Definition demoGetTopPrices (_ : option AsterDepth) : option float * option float :=
  (None, None).

Definition demoComputePositionPnl (_ : PositionSnapshot) (_ _ : float) : float := 0.

Definition demoGetMidOrLast (_ : option AsterDepth) (ticker : option AsterTicker)
  : option float :=
  match ticker with
  | Some t => Some (lastPrice t)
  | None => None
  end.

Definition demoIsOrderActiveStatus (status : string) : bool :=
  String.eqb status "NEW" || String.eqb status "PARTIALLY_FILLED".

Definition demoTick :=
  tick demoGetPosition demoGetTopPrices demoComputePositionPnl demoGetMidOrLast.

Definition spotSnapshot : AsterAccountSnapshot :=
  {| marketType := "spot"; positions := [] |}.

(** An engine past its readiness gate, holding a long position of 1 entered
    at 100, with the ticker at [last] and a stable RSI of 50. *)
Definition readyEngine (last : float) : Engine :=
  {| config := demoConfig;
     accountSnapshot :=
       Some {| marketType := "perp";
               positions := [("BTCUSDT", demoLong 100)] |};
     openOrders := [];
     depthSnapshot := Some {| bids := []; asks := [] |};
     tickerSnapshot := Some {| lastPrice := last |};
     binanceSnapshot := {| rsi := Some 50; isStable := true |};
     timer := true; processing := false; disabled := false;
     lastError := None; ordersSnapshotReady := true;
     swingState := SwingLogic.createInitialSwingState;
     lastStopAttempt :=
       {| attemptSide := None; attemptPrice := None; attemptAt := 0 |} |}.

End SwingEngine.

(* ================================================================== *)
(** ** strategy/common/binance-depth.ts: the incremental order book

    A [Map<string, number>] iterates in insertion order, and the sums over
    a book are floating-point sums, so a book is an association list kept
    in insertion order.  The tracker object is a record; its callbacks
    (WebSocket events, timers, the completion of an awaited REST fetch) are
    state transformers which also return the snapshots handed to the
    listeners.  A suspended [ensureSynced] is a value in the state: the
    completion of its fetch resumes it. *)
(* ================================================================== *)

Module BinanceDepth.

Local Open Scope string_scope.
Local Open Scope list_scope.
Local Open Scope float_scope.

Definition HEARTBEAT_TIMEOUT_MS : Z := 5 * 60 * 1000.
Definition DATA_STALE_THRESHOLD_MS : Z := 5000.
Definition RECONNECT_DELAY_BASE_MS : Z := 3000.
Definition RECONNECT_DELAY_MAX_MS : Z := 60000.
Definition DEFAULT_DEPTH_WINDOW_BPS : float := 9.
Definition DEFAULT_IMBALANCE_RATIO : float := 2.
Definition MAX_BUFFER_SIZE : nat := 5000.
Definition SYNC_SNAPSHOT_MAX_RETRIES : nat := 5.
Definition REST_FAILURE_DEFENSE_THRESHOLD : Z := 1.

Inductive BinanceConnectionState := connected | disconnected | stale.

Definition connectionName (c : BinanceConnectionState) : string :=
  match c with
  | connected => "connected"
  | disconnected => "disconnected"
  | stale => "stale"
  end.

Definition isConnected (c : BinanceConnectionState) : bool :=
  match c with connected => true | _ => false end.

Inductive DepthImbalance := balanced | buy_dominant | sell_dominant.

(** [AsterDepthLevel]: the raw price and quantity strings. *)
Definition AsterDepthLevel : Type := string * string.

(** The update ids [U], [u], [lastUpdateId] and [localLastUpdateId] are
    kept as integers.  The source holds them as doubles; Binance's ids are
    non-negative integers far below [2^53], where the doubles and the
    arithmetic on them are exact.  [idNumber] is the double of such an id
    and [sequencingOf] below is the test sequence of [applyDepthEvent] on
    the doubles themselves. *)
Record DepthUpdateEvent := {
  U : Z;
  u : Z;
  bids : list AsterDepthLevel;
  asks : list AsterDepthLevel
}.

(** [Number.MAX_SAFE_INTEGER]: [2^53 - 1]. *)
Definition MAX_SAFE_INTEGER : Z := 9007199254740991.

(** The double that holds a non-negative integer id (exactly, up to
    [MAX_SAFE_INTEGER]). *)
Definition idNumber (id : Z) : float := of_uint63 (Uint63.of_Z id).

(** [!x] on a number: [0], [-0] and NaN are falsy. *)
Definition falsy (x : float) : bool := (x =? 0) || is_nan x.

Inductive Sequencing := seqApplied | seqIgnored | seqGap.

(** The three tests of [applyDepthEvent], on the doubles as the source
    compares them: [!local], [u < local], [U > local + 1]. *)
Definition sequencingOf (local firstId lastId : float) : Sequencing :=
  if falsy local then seqGap
  else if lastId <? local then seqIgnored
  else if local + 1 <? firstId then seqGap
  else seqApplied.

(** The canonical binary64 form of a positive integer below [2^53], and
    of a non-negative one. *)
Definition normalSF (p : positive) : spec_float :=
  let d := Zpos (digits2_pos p) in
  S754_finite false (Z.to_pos (Zpos p * 2 ^ (53 - d))%Z) (d - 53)%Z.

Definition idSF (id : Z) : spec_float :=
  match id with
  | Zpos p => normalSF p
  | _ => S754_zero false
  end.

Module Rest.
Record DepthSnapshotResponse := {
  lastUpdateId : Z;
  bids : list AsterDepthLevel;
  asks : list AsterDepthLevel
}.
End Rest.

Module Snapshot.
Record BinanceDepthSnapshot := {
  symbol : string;
  buySum : float;
  sellSum : float;
  skipBuySide : bool;
  skipSellSide : bool;
  imbalance : DepthImbalance;
  updatedAt : Z;
  windowBps : float;
  localLastUpdateId : Z
}.
End Snapshot.

Module Health.
Record BinanceDepthHealth := {
  started : bool;
  connected : bool;
  orderBookReady : bool;
  restHealthy : bool;
  healthy : bool;
  reason : option string;
  lastEventAt : Z;
  lastSnapshotAt : Z;
  lastRestSyncAt : Z;
  localLastUpdateId : Z
}.
End Health.

(** A [Map<string, number>] in insertion order. *)
Definition Book : Type := list (string * float).

Fixpoint mapHas (k : string) (b : Book) : bool :=
  match b with
  | [] => false
  | (k', _) :: b => String.eqb k' k || mapHas k b
  end.

Fixpoint mapReplace (k : string) (v : float) (b : Book) : Book :=
  match b with
  | [] => []
  | (k', v') :: b =>
    if String.eqb k' k then (k', v) :: b else (k', v') :: mapReplace k v b
  end.

(** [book.set(k, v)]: an existing key keeps its place. *)
Definition mapSet (k : string) (v : float) (b : Book) : Book :=
  if mapHas k b then mapReplace k v b else b ++ [(k, v)].

(** [book.delete(k)]. *)
Definition mapDelete (k : string) (b : Book) : Book :=
  filter (fun kv => negb (String.eqb (fst kv) k)) b.

(** What a suspended [ensureSynced] will do when its fetch completes. *)
Inductive SyncTask :=
| bootstrapping (attempt : nat) (firstBuffered : DepthUpdateEvent)
| refreshing.

(** What [fetch] and [response.json()] deliver. *)
Inductive FetchResult :=
| fetchFailed (message : string)
| fetchBody (json : Rest.DepthSnapshotResponse).

Record Tracker := {
  symbol : string;
  optionRatio : option float;
  optionDepthWindowBps : option float;
  ws : bool;
  reconnectTimer : bool;
  reconnectDelayMs : Z;
  stopped : bool;
  started : bool;
  snapshot : option Snapshot.BinanceDepthSnapshot;
  lastMessageTime : Z;
  connectionState : BinanceConnectionState;
  bidBook : Book;
  askBook : Book;
  localLastUpdateId : Z;
  orderBookReady : bool;
  eventBuffer : list DepthUpdateEvent;
  syncInFlight : option SyncTask;
  lastEventAt : Z;
  lastSnapshotAt : Z;
  lastRestSyncAt : Z;
  restConsecutiveFailures : Z;
  restLastError : option string
}.

(** [new BinanceDepthTracker(symbol, options)]. *)
Definition create (sym : string) (ratio windowBps : option float) : Tracker :=
  {| symbol := sym; optionRatio := ratio; optionDepthWindowBps := windowBps;
     ws := false; reconnectTimer := false;
     reconnectDelayMs := RECONNECT_DELAY_BASE_MS;
     stopped := false; started := false; snapshot := None;
     lastMessageTime := 0; connectionState := disconnected;
     bidBook := []; askBook := []; localLastUpdateId := 0;
     orderBookReady := false; eventBuffer := []; syncInFlight := None;
     lastEventAt := 0; lastSnapshotAt := 0; lastRestSyncAt := 0;
     restConsecutiveFailures := 0; restLastError := None |}.

(** Field assignments [this.f = v]. *)
Definition set_ws (v : bool) (t : Tracker) : Tracker :=
  {| symbol := symbol t; optionRatio := optionRatio t;
     optionDepthWindowBps := optionDepthWindowBps t; ws := v;
     reconnectTimer := reconnectTimer t;
     reconnectDelayMs := reconnectDelayMs t; stopped := stopped t;
     started := started t; snapshot := snapshot t;
     lastMessageTime := lastMessageTime t;
     connectionState := connectionState t; bidBook := bidBook t;
     askBook := askBook t; localLastUpdateId := localLastUpdateId t;
     orderBookReady := orderBookReady t; eventBuffer := eventBuffer t;
     syncInFlight := syncInFlight t; lastEventAt := lastEventAt t;
     lastSnapshotAt := lastSnapshotAt t; lastRestSyncAt := lastRestSyncAt t;
     restConsecutiveFailures := restConsecutiveFailures t;
     restLastError := restLastError t |}.
Definition set_reconnectTimer (v : bool) (t : Tracker) : Tracker :=
  {| symbol := symbol t; optionRatio := optionRatio t;
     optionDepthWindowBps := optionDepthWindowBps t; ws := ws t;
     reconnectTimer := v; reconnectDelayMs := reconnectDelayMs t;
     stopped := stopped t; started := started t; snapshot := snapshot t;
     lastMessageTime := lastMessageTime t;
     connectionState := connectionState t; bidBook := bidBook t;
     askBook := askBook t; localLastUpdateId := localLastUpdateId t;
     orderBookReady := orderBookReady t; eventBuffer := eventBuffer t;
     syncInFlight := syncInFlight t; lastEventAt := lastEventAt t;
     lastSnapshotAt := lastSnapshotAt t; lastRestSyncAt := lastRestSyncAt t;
     restConsecutiveFailures := restConsecutiveFailures t;
     restLastError := restLastError t |}.
Definition set_reconnectDelayMs (v : Z) (t : Tracker) : Tracker :=
  {| symbol := symbol t; optionRatio := optionRatio t;
     optionDepthWindowBps := optionDepthWindowBps t; ws := ws t;
     reconnectTimer := reconnectTimer t; reconnectDelayMs := v;
     stopped := stopped t; started := started t; snapshot := snapshot t;
     lastMessageTime := lastMessageTime t;
     connectionState := connectionState t; bidBook := bidBook t;
     askBook := askBook t; localLastUpdateId := localLastUpdateId t;
     orderBookReady := orderBookReady t; eventBuffer := eventBuffer t;
     syncInFlight := syncInFlight t; lastEventAt := lastEventAt t;
     lastSnapshotAt := lastSnapshotAt t; lastRestSyncAt := lastRestSyncAt t;
     restConsecutiveFailures := restConsecutiveFailures t;
     restLastError := restLastError t |}.
Definition set_stopped (v : bool) (t : Tracker) : Tracker :=
  {| symbol := symbol t; optionRatio := optionRatio t;
     optionDepthWindowBps := optionDepthWindowBps t; ws := ws t;
     reconnectTimer := reconnectTimer t;
     reconnectDelayMs := reconnectDelayMs t; stopped := v;
     started := started t; snapshot := snapshot t;
     lastMessageTime := lastMessageTime t;
     connectionState := connectionState t; bidBook := bidBook t;
     askBook := askBook t; localLastUpdateId := localLastUpdateId t;
     orderBookReady := orderBookReady t; eventBuffer := eventBuffer t;
     syncInFlight := syncInFlight t; lastEventAt := lastEventAt t;
     lastSnapshotAt := lastSnapshotAt t; lastRestSyncAt := lastRestSyncAt t;
     restConsecutiveFailures := restConsecutiveFailures t;
     restLastError := restLastError t |}.
Definition set_started (v : bool) (t : Tracker) : Tracker :=
  {| symbol := symbol t; optionRatio := optionRatio t;
     optionDepthWindowBps := optionDepthWindowBps t; ws := ws t;
     reconnectTimer := reconnectTimer t;
     reconnectDelayMs := reconnectDelayMs t; stopped := stopped t;
     started := v; snapshot := snapshot t;
     lastMessageTime := lastMessageTime t;
     connectionState := connectionState t; bidBook := bidBook t;
     askBook := askBook t; localLastUpdateId := localLastUpdateId t;
     orderBookReady := orderBookReady t; eventBuffer := eventBuffer t;
     syncInFlight := syncInFlight t; lastEventAt := lastEventAt t;
     lastSnapshotAt := lastSnapshotAt t; lastRestSyncAt := lastRestSyncAt t;
     restConsecutiveFailures := restConsecutiveFailures t;
     restLastError := restLastError t |}.
Definition set_snapshot (v : option Snapshot.BinanceDepthSnapshot) (t : Tracker) : Tracker :=
  {| symbol := symbol t; optionRatio := optionRatio t;
     optionDepthWindowBps := optionDepthWindowBps t; ws := ws t;
     reconnectTimer := reconnectTimer t;
     reconnectDelayMs := reconnectDelayMs t; stopped := stopped t;
     started := started t; snapshot := v;
     lastMessageTime := lastMessageTime t;
     connectionState := connectionState t; bidBook := bidBook t;
     askBook := askBook t; localLastUpdateId := localLastUpdateId t;
     orderBookReady := orderBookReady t; eventBuffer := eventBuffer t;
     syncInFlight := syncInFlight t; lastEventAt := lastEventAt t;
     lastSnapshotAt := lastSnapshotAt t; lastRestSyncAt := lastRestSyncAt t;
     restConsecutiveFailures := restConsecutiveFailures t;
     restLastError := restLastError t |}.
Definition set_lastMessageTime (v : Z) (t : Tracker) : Tracker :=
  {| symbol := symbol t; optionRatio := optionRatio t;
     optionDepthWindowBps := optionDepthWindowBps t; ws := ws t;
     reconnectTimer := reconnectTimer t;
     reconnectDelayMs := reconnectDelayMs t; stopped := stopped t;
     started := started t; snapshot := snapshot t; lastMessageTime := v;
     connectionState := connectionState t; bidBook := bidBook t;
     askBook := askBook t; localLastUpdateId := localLastUpdateId t;
     orderBookReady := orderBookReady t; eventBuffer := eventBuffer t;
     syncInFlight := syncInFlight t; lastEventAt := lastEventAt t;
     lastSnapshotAt := lastSnapshotAt t; lastRestSyncAt := lastRestSyncAt t;
     restConsecutiveFailures := restConsecutiveFailures t;
     restLastError := restLastError t |}.
Definition set_connectionState (v : BinanceConnectionState) (t : Tracker) : Tracker :=
  {| symbol := symbol t; optionRatio := optionRatio t;
     optionDepthWindowBps := optionDepthWindowBps t; ws := ws t;
     reconnectTimer := reconnectTimer t;
     reconnectDelayMs := reconnectDelayMs t; stopped := stopped t;
     started := started t; snapshot := snapshot t;
     lastMessageTime := lastMessageTime t; connectionState := v;
     bidBook := bidBook t; askBook := askBook t;
     localLastUpdateId := localLastUpdateId t;
     orderBookReady := orderBookReady t; eventBuffer := eventBuffer t;
     syncInFlight := syncInFlight t; lastEventAt := lastEventAt t;
     lastSnapshotAt := lastSnapshotAt t; lastRestSyncAt := lastRestSyncAt t;
     restConsecutiveFailures := restConsecutiveFailures t;
     restLastError := restLastError t |}.
Definition set_bidBook (v : Book) (t : Tracker) : Tracker :=
  {| symbol := symbol t; optionRatio := optionRatio t;
     optionDepthWindowBps := optionDepthWindowBps t; ws := ws t;
     reconnectTimer := reconnectTimer t;
     reconnectDelayMs := reconnectDelayMs t; stopped := stopped t;
     started := started t; snapshot := snapshot t;
     lastMessageTime := lastMessageTime t;
     connectionState := connectionState t; bidBook := v;
     askBook := askBook t; localLastUpdateId := localLastUpdateId t;
     orderBookReady := orderBookReady t; eventBuffer := eventBuffer t;
     syncInFlight := syncInFlight t; lastEventAt := lastEventAt t;
     lastSnapshotAt := lastSnapshotAt t; lastRestSyncAt := lastRestSyncAt t;
     restConsecutiveFailures := restConsecutiveFailures t;
     restLastError := restLastError t |}.
Definition set_askBook (v : Book) (t : Tracker) : Tracker :=
  {| symbol := symbol t; optionRatio := optionRatio t;
     optionDepthWindowBps := optionDepthWindowBps t; ws := ws t;
     reconnectTimer := reconnectTimer t;
     reconnectDelayMs := reconnectDelayMs t; stopped := stopped t;
     started := started t; snapshot := snapshot t;
     lastMessageTime := lastMessageTime t;
     connectionState := connectionState t; bidBook := bidBook t;
     askBook := v; localLastUpdateId := localLastUpdateId t;
     orderBookReady := orderBookReady t; eventBuffer := eventBuffer t;
     syncInFlight := syncInFlight t; lastEventAt := lastEventAt t;
     lastSnapshotAt := lastSnapshotAt t; lastRestSyncAt := lastRestSyncAt t;
     restConsecutiveFailures := restConsecutiveFailures t;
     restLastError := restLastError t |}.
Definition set_localLastUpdateId (v : Z) (t : Tracker) : Tracker :=
  {| symbol := symbol t; optionRatio := optionRatio t;
     optionDepthWindowBps := optionDepthWindowBps t; ws := ws t;
     reconnectTimer := reconnectTimer t;
     reconnectDelayMs := reconnectDelayMs t; stopped := stopped t;
     started := started t; snapshot := snapshot t;
     lastMessageTime := lastMessageTime t;
     connectionState := connectionState t; bidBook := bidBook t;
     askBook := askBook t; localLastUpdateId := v;
     orderBookReady := orderBookReady t; eventBuffer := eventBuffer t;
     syncInFlight := syncInFlight t; lastEventAt := lastEventAt t;
     lastSnapshotAt := lastSnapshotAt t; lastRestSyncAt := lastRestSyncAt t;
     restConsecutiveFailures := restConsecutiveFailures t;
     restLastError := restLastError t |}.
Definition set_orderBookReady (v : bool) (t : Tracker) : Tracker :=
  {| symbol := symbol t; optionRatio := optionRatio t;
     optionDepthWindowBps := optionDepthWindowBps t; ws := ws t;
     reconnectTimer := reconnectTimer t;
     reconnectDelayMs := reconnectDelayMs t; stopped := stopped t;
     started := started t; snapshot := snapshot t;
     lastMessageTime := lastMessageTime t;
     connectionState := connectionState t; bidBook := bidBook t;
     askBook := askBook t; localLastUpdateId := localLastUpdateId t;
     orderBookReady := v; eventBuffer := eventBuffer t;
     syncInFlight := syncInFlight t; lastEventAt := lastEventAt t;
     lastSnapshotAt := lastSnapshotAt t; lastRestSyncAt := lastRestSyncAt t;
     restConsecutiveFailures := restConsecutiveFailures t;
     restLastError := restLastError t |}.
Definition set_eventBuffer (v : list DepthUpdateEvent) (t : Tracker) : Tracker :=
  {| symbol := symbol t; optionRatio := optionRatio t;
     optionDepthWindowBps := optionDepthWindowBps t; ws := ws t;
     reconnectTimer := reconnectTimer t;
     reconnectDelayMs := reconnectDelayMs t; stopped := stopped t;
     started := started t; snapshot := snapshot t;
     lastMessageTime := lastMessageTime t;
     connectionState := connectionState t; bidBook := bidBook t;
     askBook := askBook t; localLastUpdateId := localLastUpdateId t;
     orderBookReady := orderBookReady t; eventBuffer := v;
     syncInFlight := syncInFlight t; lastEventAt := lastEventAt t;
     lastSnapshotAt := lastSnapshotAt t; lastRestSyncAt := lastRestSyncAt t;
     restConsecutiveFailures := restConsecutiveFailures t;
     restLastError := restLastError t |}.
Definition set_syncInFlight (v : option SyncTask) (t : Tracker) : Tracker :=
  {| symbol := symbol t; optionRatio := optionRatio t;
     optionDepthWindowBps := optionDepthWindowBps t; ws := ws t;
     reconnectTimer := reconnectTimer t;
     reconnectDelayMs := reconnectDelayMs t; stopped := stopped t;
     started := started t; snapshot := snapshot t;
     lastMessageTime := lastMessageTime t;
     connectionState := connectionState t; bidBook := bidBook t;
     askBook := askBook t; localLastUpdateId := localLastUpdateId t;
     orderBookReady := orderBookReady t; eventBuffer := eventBuffer t;
     syncInFlight := v; lastEventAt := lastEventAt t;
     lastSnapshotAt := lastSnapshotAt t; lastRestSyncAt := lastRestSyncAt t;
     restConsecutiveFailures := restConsecutiveFailures t;
     restLastError := restLastError t |}.
Definition set_lastEventAt (v : Z) (t : Tracker) : Tracker :=
  {| symbol := symbol t; optionRatio := optionRatio t;
     optionDepthWindowBps := optionDepthWindowBps t; ws := ws t;
     reconnectTimer := reconnectTimer t;
     reconnectDelayMs := reconnectDelayMs t; stopped := stopped t;
     started := started t; snapshot := snapshot t;
     lastMessageTime := lastMessageTime t;
     connectionState := connectionState t; bidBook := bidBook t;
     askBook := askBook t; localLastUpdateId := localLastUpdateId t;
     orderBookReady := orderBookReady t; eventBuffer := eventBuffer t;
     syncInFlight := syncInFlight t; lastEventAt := v;
     lastSnapshotAt := lastSnapshotAt t; lastRestSyncAt := lastRestSyncAt t;
     restConsecutiveFailures := restConsecutiveFailures t;
     restLastError := restLastError t |}.
Definition set_lastSnapshotAt (v : Z) (t : Tracker) : Tracker :=
  {| symbol := symbol t; optionRatio := optionRatio t;
     optionDepthWindowBps := optionDepthWindowBps t; ws := ws t;
     reconnectTimer := reconnectTimer t;
     reconnectDelayMs := reconnectDelayMs t; stopped := stopped t;
     started := started t; snapshot := snapshot t;
     lastMessageTime := lastMessageTime t;
     connectionState := connectionState t; bidBook := bidBook t;
     askBook := askBook t; localLastUpdateId := localLastUpdateId t;
     orderBookReady := orderBookReady t; eventBuffer := eventBuffer t;
     syncInFlight := syncInFlight t; lastEventAt := lastEventAt t;
     lastSnapshotAt := v; lastRestSyncAt := lastRestSyncAt t;
     restConsecutiveFailures := restConsecutiveFailures t;
     restLastError := restLastError t |}.
Definition set_lastRestSyncAt (v : Z) (t : Tracker) : Tracker :=
  {| symbol := symbol t; optionRatio := optionRatio t;
     optionDepthWindowBps := optionDepthWindowBps t; ws := ws t;
     reconnectTimer := reconnectTimer t;
     reconnectDelayMs := reconnectDelayMs t; stopped := stopped t;
     started := started t; snapshot := snapshot t;
     lastMessageTime := lastMessageTime t;
     connectionState := connectionState t; bidBook := bidBook t;
     askBook := askBook t; localLastUpdateId := localLastUpdateId t;
     orderBookReady := orderBookReady t; eventBuffer := eventBuffer t;
     syncInFlight := syncInFlight t; lastEventAt := lastEventAt t;
     lastSnapshotAt := lastSnapshotAt t; lastRestSyncAt := v;
     restConsecutiveFailures := restConsecutiveFailures t;
     restLastError := restLastError t |}.
Definition set_restConsecutiveFailures (v : Z) (t : Tracker) : Tracker :=
  {| symbol := symbol t; optionRatio := optionRatio t;
     optionDepthWindowBps := optionDepthWindowBps t; ws := ws t;
     reconnectTimer := reconnectTimer t;
     reconnectDelayMs := reconnectDelayMs t; stopped := stopped t;
     started := started t; snapshot := snapshot t;
     lastMessageTime := lastMessageTime t;
     connectionState := connectionState t; bidBook := bidBook t;
     askBook := askBook t; localLastUpdateId := localLastUpdateId t;
     orderBookReady := orderBookReady t; eventBuffer := eventBuffer t;
     syncInFlight := syncInFlight t; lastEventAt := lastEventAt t;
     lastSnapshotAt := lastSnapshotAt t; lastRestSyncAt := lastRestSyncAt t;
     restConsecutiveFailures := v; restLastError := restLastError t |}.
Definition set_restLastError (v : option string) (t : Tracker) : Tracker :=
  {| symbol := symbol t; optionRatio := optionRatio t;
     optionDepthWindowBps := optionDepthWindowBps t; ws := ws t;
     reconnectTimer := reconnectTimer t;
     reconnectDelayMs := reconnectDelayMs t; stopped := stopped t;
     started := started t; snapshot := snapshot t;
     lastMessageTime := lastMessageTime t;
     connectionState := connectionState t; bidBook := bidBook t;
     askBook := askBook t; localLastUpdateId := localLastUpdateId t;
     orderBookReady := orderBookReady t; eventBuffer := eventBuffer t;
     syncInFlight := syncInFlight t; lastEventAt := lastEventAt t;
     lastSnapshotAt := lastSnapshotAt t; lastRestSyncAt := lastRestSyncAt t;
     restConsecutiveFailures := restConsecutiveFailures t;
     restLastError := v |}.

(** [updateConnectionState]; the connection listeners are not modelled. *)
Definition updateConnectionState (c : BinanceConnectionState) (t : Tracker)
  : Tracker := set_connectionState c t.

(** [cleanup]: timers cleared, socket closed. *)
Definition cleanup (t : Tracker) : Tracker :=
  updateConnectionState disconnected (set_ws false (set_reconnectTimer false t)).

(** [connect]: the socket is created; its events come later. *)
Definition connect (t : Tracker) : Tracker :=
  if ws t || stopped t then t else set_ws true t.

Definition start (t : Tracker) : Tracker :=
  connect (set_stopped false (set_started true t)).

Definition stop (t : Tracker) : Tracker :=
  cleanup (set_stopped true (set_started false t)).

Definition scheduleReconnect (t : Tracker) : Tracker :=
  if reconnectTimer t || stopped t then t else set_reconnectTimer true t.

(** The reconnect timer fires. *)
Definition onReconnectTimer (t : Tracker) : Tracker :=
  let t := set_reconnectTimer false t in
  let t := set_reconnectDelayMs
             (Z.min (reconnectDelayMs t * 2) RECONNECT_DELAY_MAX_MS) t in
  connect t.

Definition forceReconnect (t : Tracker) : Tracker :=
  let t := set_ws false t in
  let t := set_orderBookReady false t in
  let t := set_eventBuffer [] t in
  let t := updateConnectionState disconnected t in
  let t := set_reconnectDelayMs RECONNECT_DELAY_BASE_MS t in
  scheduleReconnect t.

Definition handleOpen (now : Z) (t : Tracker) : Tracker :=
  let t := set_reconnectDelayMs RECONNECT_DELAY_BASE_MS t in
  let t := set_lastMessageTime now t in
  let t := set_lastEventAt now t in
  let t := set_orderBookReady false t in
  let t := set_eventBuffer [] t in
  updateConnectionState connected t.

Definition handleClose (t : Tracker) : Tracker :=
  let t := set_ws false t in
  let t := set_orderBookReady false t in
  let t := set_eventBuffer [] t in
  let t := updateConnectionState disconnected t in
  if negb (stopped t) then scheduleReconnect t else t.

Definition handleError (t : Tracker) : Tracker :=
  if ws t && match connectionState t with disconnected => true | _ => false end
  then scheduleReconnect (set_ws false t)
  else t.

Definition handlePing (now : Z) (t : Tracker) : Tracker :=
  set_lastMessageTime now t.

(** One run of the heartbeat monitor. *)
Definition onHeartbeat (now : Z) (t : Tracker) : Tracker :=
  let elapsed := (now - lastMessageTime t)%Z in
  let t :=
    if (DATA_STALE_THRESHOLD_MS <? elapsed)%Z && isConnected (connectionState t)
    then updateConnectionState stale t else t in
  if (HEARTBEAT_TIMEOUT_MS <? elapsed)%Z then forceReconnect t else t.

(** The 23 h timer fires. *)
Definition onMaxDuration (t : Tracker) : Tracker := forceReconnect t.

Definition isDataStale (now : Z) (t : Tracker) : bool :=
  match snapshot t with
  | None => true
  | Some s => (DATA_STALE_THRESHOLD_MS <? now - Snapshot.updatedAt s)%Z
  end.

Definition getHealth (now : Z) (t : Tracker) : Health.BinanceDepthHealth :=
  if negb (started t) then
    {| Health.started := false;
       Health.connected := false;
       Health.orderBookReady := false;
       Health.restHealthy := true;
       Health.healthy := true;
       Health.reason := None;
       Health.lastEventAt := lastEventAt t;
       Health.lastSnapshotAt := lastSnapshotAt t;
       Health.lastRestSyncAt := lastRestSyncAt t;
       Health.localLastUpdateId := localLastUpdateId t |}
  else
    let restHealthy :=
      (restConsecutiveFailures t <? REST_FAILURE_DEFENSE_THRESHOLD)%Z in
    let reason : option string :=
      if negb (isConnected (connectionState t))
      then Some ("ws_" ++ connectionName (connectionState t))%string
      else if negb (orderBookReady t) then Some "orderbook_not_ready"
      else if isDataStale now t then Some "orderbook_stale"
      else if negb restHealthy then
        match restLastError t with
        | Some (String c m) => Some ("rest_sync_failed:" ++ String c m)%string
        | _ => Some "rest_sync_failed"
        end
      else None in
    {| Health.started := true;
       Health.connected := isConnected (connectionState t);
       Health.orderBookReady := orderBookReady t;
       Health.restHealthy := restHealthy;
       Health.healthy := match reason with None => true | Some _ => false end;
       Health.reason := reason;
       Health.lastEventAt := lastEventAt t;
       Health.lastSnapshotAt := lastSnapshotAt t;
       Health.lastRestSyncAt := lastRestSyncAt t;
       Health.localLastUpdateId := localLastUpdateId t |}.

Definition isHealthy (now : Z) (t : Tracker) : bool :=
  Health.healthy (getHealth now t).


(** [Number(raw)] on a string is JavaScript's own conversion; the tracker
    is parametric in it. *)
Section Tracker.

Variable Number : string -> float.

(** One iteration of the loop of [applyLevels]. *)
Definition applyLevel (book : Book) (level : AsterDepthLevel) : Book :=
  let priceRaw := fst level in
  let qtyRaw := snd level in
  let price := Number priceRaw in
  let qty := Number qtyRaw in
  if String.eqb priceRaw "" || negb (JS.isFinite price) || (price <=? 0)
  then book
  else if negb (JS.isFinite qty) || (qty <? 0) then book
  else if JS.strictEq qty 0 then mapDelete priceRaw book
  else mapSet priceRaw qty book.

Definition applyLevels (book : Book) (levels : list AsterDepthLevel) : Book :=
  fold_left applyLevel levels book.

Definition resetOrderBook (s : Rest.DepthSnapshotResponse) (now : Z)
    (t : Tracker) : Tracker :=
  let t := set_bidBook (applyLevels [] (Rest.bids s)) t in
  let t := set_askBook (applyLevels [] (Rest.asks s)) t in
  let t := set_localLastUpdateId (Rest.lastUpdateId s) t in
  set_lastSnapshotAt now t.

(** [applyDepthEvent]: the tracker afterwards, and the returned boolean. *)
Definition applyDepthEvent (event : DepthUpdateEvent) (t : Tracker)
  : Tracker * bool :=
  if (localLastUpdateId t =? 0)%Z then (t, false)
  else if (u event <? localLastUpdateId t)%Z then (t, true)
  else if (localLastUpdateId t + 1 <? U event)%Z then (t, false)
  else
    let t := set_bidBook (applyLevels (bidBook t) (bids event)) t in
    let t := set_askBook (applyLevels (askBook t) (asks event)) t in
    (set_localLastUpdateId (u event) t, true).

Inductive BookSide := bid | ask.

Definition betterPrice (side : BookSide) (best : option float)
    (entry : string * float) : option float :=
  let qty := snd entry in
  if negb (JS.isFinite qty) || (qty <=? 0) then best
  else
    let price := Number (fst entry) in
    if negb (JS.isFinite price) || (price <=? 0) then best
    else
      match best with
      | None => Some price
      | Some b =>
        match side with
        | bid => if b <? price then Some price else best
        | ask => if price <? b then Some price else best
        end
      end.

Definition findBestPrice (book : Book) (side : BookSide) : option float :=
  fold_left (betterPrice side) book None.

Definition windowBpsOf (t : Tracker) : float :=
  JS.max 1 (match optionDepthWindowBps t with
            | Some w => w
            | None => DEFAULT_DEPTH_WINDOW_BPS
            end).

Definition ratioOf (t : Tracker) : float :=
  JS.max 1.01 (match optionRatio t with
               | Some r => r
               | None => DEFAULT_IMBALANCE_RATIO
               end).

Definition sumBids (bidWindowMin : float) (book : Book) : float :=
  fold_left (fun sum entry =>
               let price := Number (fst entry) in
               if negb (JS.isFinite price) || (price <? bidWindowMin) then sum
               else sum + snd entry) book 0.

Definition sumAsks (askWindowMax : float) (book : Book) : float :=
  fold_left (fun sum entry =>
               let price := Number (fst entry) in
               if negb (JS.isFinite price) || (askWindowMax <? price) then sum
               else sum + snd entry) book 0.

Definition skipSellSideOf (buySum sellSum ratio : float) : bool :=
  JS.strictEq sellSum 0 || (sellSum * ratio <? buySum).

Definition skipBuySideOf (buySum sellSum ratio : float) : bool :=
  JS.strictEq buySum 0 || (buySum * ratio <? sellSum).

Definition imbalanceOf (buySum sellSum ratio : float) : DepthImbalance :=
  if sellSum * ratio <? buySum then buy_dominant
  else if buySum * ratio <? sellSum then sell_dominant
  else balanced.

(** The snapshot computed from the sums. *)
Definition summarize (t : Tracker) (now : Z) (buySum sellSum : float)
  : Snapshot.BinanceDepthSnapshot :=
  let ratio := ratioOf t in
  {| Snapshot.symbol := symbol t;
     Snapshot.buySum := buySum;
     Snapshot.sellSum := sellSum;
     Snapshot.skipBuySide := skipBuySideOf buySum sellSum ratio;
     Snapshot.skipSellSide := skipSellSideOf buySum sellSum ratio;
     Snapshot.imbalance := imbalanceOf buySum sellSum ratio;
     Snapshot.updatedAt := now;
     Snapshot.windowBps := windowBpsOf t;
     Snapshot.localLastUpdateId := localLastUpdateId t |}.

(** [emitDepthSnapshot]: the tracker afterwards and the snapshots handed to
    the listeners (none when the best-price guard returns early). *)
Definition emitDepthSnapshot (now : Z) (t : Tracker)
  : Tracker * list Snapshot.BinanceDepthSnapshot :=
  match findBestPrice (bidBook t) bid, findBestPrice (askBook t) ask with
  | Some bestBid, Some bestAsk =>
    if (bestBid <=? 0) || (bestAsk <=? 0) || (bestAsk <? bestBid) then (t, [])
    else
      let windowBps := windowBpsOf t in
      let bidWindowMin := bestBid * (1 - windowBps / 10000) in
      let askWindowMax := bestAsk * (1 + windowBps / 10000) in
      let s := summarize t now (sumBids bidWindowMin (bidBook t))
                 (sumAsks askWindowMax (askBook t)) in
      (set_snapshot (Some s) t, [s])
  | _, _ => (t, [])
  end.

(** [ensureSynced], up to its first [await]: the task left suspended on
    the REST fetch. *)
Definition ensureSynced (t : Tracker) : Tracker :=
  match syncInFlight t with
  | Some _ => t
  | None =>
    if stopped t || negb (started t) then t
    else if negb (orderBookReady t) then
      match eventBuffer t with
      | [] => t
      | firstBuffered :: _ =>
        set_syncInFlight (Some (bootstrapping 0 firstBuffered)) t
      end
    else set_syncInFlight (Some refreshing) t
  end.

(** [handlePayload] on a parsed event ([None]: [parseDepthEvent] gave
    [null]). *)
Definition handlePayload (parsed : option DepthUpdateEvent) (now : Z)
    (t : Tracker) : Tracker * list Snapshot.BinanceDepthSnapshot :=
  match parsed with
  | None => (t, [])
  | Some event =>
    if negb (orderBookReady t) then
      let buffer := eventBuffer t ++ [event] in
      let buffer :=
        if (MAX_BUFFER_SIZE <? List.length buffer)%nat
        then skipn (List.length buffer - MAX_BUFFER_SIZE) buffer else buffer in
      (ensureSynced (set_eventBuffer buffer t), [])
    else
      let '(t, applied) := applyDepthEvent event t in
      if negb applied then
        let t := set_orderBookReady false t in
        let t := set_eventBuffer [event] t in
        (ensureSynced t, [])
      else emitDepthSnapshot now t
  end.

Definition handleMessage (parsed : option DepthUpdateEvent) (now : Z)
    (t : Tracker) : Tracker * list Snapshot.BinanceDepthSnapshot :=
  let t := set_lastMessageTime now t in
  let t := set_lastEventAt now t in
  let t :=
    match connectionState t with
    | stale => updateConnectionState connected t
    | _ => t
    end in
  handlePayload parsed now t.

(** The refresh timer fires. *)
Definition onRefreshTimer (t : Tracker) : Tracker :=
  if negb (started t) || stopped t || negb (orderBookReady t) then t
  else ensureSynced t.

(** The bookkeeping of [fetchDepthSnapshot] once the response is in. *)
Definition fetchDepthSnapshot (result : FetchResult) (now : Z) (t : Tracker)
  : Tracker * option Rest.DepthSnapshotResponse :=
  let failed message :=
    (set_restLastError (Some message)
       (set_restConsecutiveFailures (restConsecutiveFailures t + 1) t), None) in
  match result with
  | fetchFailed message => failed message
  | fetchBody json =>
    if (Rest.lastUpdateId json <=? 0)%Z then failed "invalid lastUpdateId"
    else
      (set_restLastError None
         (set_restConsecutiveFailures 0 (set_lastRestSyncAt now t)), Some json)
  end.

(** The buffered events are applied until one is refused. *)
Fixpoint applyBuffered (buffered : list DepthUpdateEvent) (t : Tracker)
  : Tracker * bool :=
  match buffered with
  | [] => (t, true)
  | event :: rest =>
    let '(t, applied) := applyDepthEvent event t in
    if applied then applyBuffered rest t else (t, false)
  end.

(** [continue] in the bootstrap loop: the next attempt suspends on a new
    fetch, unless the retries are used up or the buffer is empty. *)
Definition retryBootstrap (attempt : nat) (t : Tracker) : Tracker :=
  if (S attempt <? SYNC_SNAPSHOT_MAX_RETRIES)%nat then
    match eventBuffer t with
    | [] => set_syncInFlight None t
    | firstBuffered :: _ =>
      set_syncInFlight (Some (bootstrapping (S attempt) firstBuffered)) t
    end
  else set_syncInFlight None t.

(** The awaited fetch completes and the suspended task runs on, to its end
    or to its next fetch. *)
Definition onFetchCompleted (result : FetchResult) (now : Z) (t : Tracker)
  : Tracker * list Snapshot.BinanceDepthSnapshot :=
  match syncInFlight t with
  | None => (t, [])
  | Some task =>
    let '(t, fetched) := fetchDepthSnapshot result now t in
    match fetched with
    | None => (set_syncInFlight None t, [])
    | Some s =>
      match task with
      | refreshing =>
        if (Rest.lastUpdateId s <? localLastUpdateId t)%Z
        then (set_syncInFlight None t, [])
        else
          let t := set_orderBookReady true (resetOrderBook s now t) in
          let '(t, out) := emitDepthSnapshot now t in
          (set_syncInFlight None t, out)
      | bootstrapping attempt firstBuffered =>
        if (Rest.lastUpdateId s <? U firstBuffered)%Z
        then (retryBootstrap attempt t, [])
        else
          let t := resetOrderBook s now t in
          let buffered :=
            filter (fun event => (Rest.lastUpdateId s <? u event)%Z)
                   (eventBuffer t) in
          let nextUpdateId := (Rest.lastUpdateId s + 1)%Z in
          let finish (t : Tracker) :=
            let t := set_eventBuffer [] (set_orderBookReady true t) in
            let '(t, out) := emitDepthSnapshot now t in
            (set_syncInFlight None t, out) in
          match buffered with
          | [] => finish t
          | nextEvent :: _ =>
            if (nextUpdateId <? U nextEvent)%Z || (u nextEvent <? nextUpdateId)%Z
            then (retryBootstrap attempt t, [])
            else
              let '(t, ok) := applyBuffered buffered t in
              if ok then finish t else (retryBootstrap attempt t, [])
          end
      end
    end
  end.

(** Everything that can happen to a tracker. *)
Inductive Operation :=
| opStart
| opStop
| opOpen (now : Z)
| opClose
| opError
| opPing (now : Z)
| opMessage (parsed : option DepthUpdateEvent) (now : Z)
| opHeartbeat (now : Z)
| opMaxDuration
| opReconnectTimer
| opRefreshTimer
| opFetchCompleted (result : FetchResult) (now : Z).

Definition apply (op : Operation) (t : Tracker)
  : Tracker * list Snapshot.BinanceDepthSnapshot :=
  match op with
  | opStart => (start t, [])
  | opStop => (stop t, [])
  | opOpen now => (handleOpen now t, [])
  | opClose => (handleClose t, [])
  | opError => (handleError t, [])
  | opPing now => (handlePing now t, [])
  | opMessage parsed now => handleMessage parsed now t
  | opHeartbeat now => (onHeartbeat now t, [])
  | opMaxDuration => (onMaxDuration t, [])
  | opReconnectTimer => (onReconnectTimer t, [])
  | opRefreshTimer => (onRefreshTimer t, [])
  | opFetchCompleted result now => onFetchCompleted result now t
  end.

Fixpoint applyAll (ops : list Operation) (t : Tracker) : Tracker :=
  match ops with
  | [] => t
  | op :: ops => applyAll ops (fst (apply op t))
  end.

(** The states a tracker goes through after its construction. *)
Inductive reachable : Tracker -> Prop :=
| reachable_create sym ratio windowBps : reachable (create sym ratio windowBps)
| reachable_apply op t : reachable t -> reachable (fst (apply op t)).

(** *** Vocabulary of the statements about the tracker *)

(** The tracker after the levels of [event] are written and
    [localLastUpdateId] is moved to [u]. *)
Definition updated (event : DepthUpdateEvent) (t : Tracker) : Tracker :=
  set_localLastUpdateId (u event)
    (set_askBook (applyLevels (askBook t) (asks event))
       (set_bidBook (applyLevels (bidBook t) (bids event)) t)).

(** When the task suspended on the fetch is not a bootstrap, no operation
    lowers [localLastUpdateId]. *)
Definition outsideBootstrap (op : Operation) (t : Tracker) : Prop :=
  match op, syncInFlight t with
  | opFetchCompleted _ _, Some (bootstrapping _ _) => False
  | _, _ => True
  end.

(** Each event of the list is applied in turn, starting from [local]. *)
Fixpoint appliedInSequence (local : Z) (events : list DepthUpdateEvent) : Prop :=
  match events with
  | [] => True
  | event :: events =>
    (local <> 0 /\ U event <= local + 1 /\ local <= u event)%Z /\
    appliedInSequence (u event) events
  end.

(** Live events arriving one after the other. *)
Fixpoint receive (events : list DepthUpdateEvent) (now : Z) (t : Tracker)
  : Tracker :=
  match events with
  | [] => t
  | event :: events => receive events now (fst (handlePayload (Some event) now t))
  end.

(** The book from which a snapshot is published: both best prices exist,
    are positive, and the best bid is not above the best ask. *)
Definition notCrossed (t : Tracker) : Prop :=
  exists bestBid bestAsk,
    findBestPrice (bidBook t) bid = Some bestBid /\
    findBestPrice (askBook t) ask = Some bestAsk /\
    (0 <? bestBid) = true /\ (0 <? bestAsk) = true /\
    (bestBid <=? bestAsk) = true.

(** Every snapshot an operation hands to the listeners comes out of
    [emitDepthSnapshot], run on a tracker with the same options whose books
    are those of the final state. *)
Definition emittedFrom (s : Snapshot.BinanceDepthSnapshot) (t final : Tracker)
  : Prop :=
  exists now1 t1,
    In s (snd (emitDepthSnapshot now1 t1)) /\
    optionRatio t1 = optionRatio t /\
    bidBook final = bidBook t1 /\ askBook final = askBook t1 /\
    snapshot final = Some s.

End Tracker.

(** *** Fixtures for the closed instances *)

(** A tracker that was never started, with seven REST failures on record,
    a stale socket and an order book marked ready. *)
Definition neglected : Tracker :=
  set_restLastError (Some "HTTP 500")
    (set_restConsecutiveFailures 7
       (set_connectionState stale
          (set_orderBookReady true (create "BTCUSDT" None None)))).

Definition event_5_7 : DepthUpdateEvent :=
  {| U := 5; u := 7; bids := []; asks := [] |}.

Definition snapshot_8 : Rest.DepthSnapshotResponse :=
  {| Rest.lastUpdateId := 8;
     Rest.bids := [("100", "1")];
     Rest.asks := [("101", "2")] |}.

(** A tracker that is started, connected, has buffered one event and is
    bootstrapped from a snapshot with [lastUpdateId = 8]. *)
Definition bootstrapped : Tracker :=
  applyAll JS.decimalNumber
    [opStart; opOpen 0; opMessage (Some event_5_7) 1;
     opFetchCompleted (fetchBody snapshot_8) 2]
    (create "BTCUSDT" None None).

Definition event_9_10 : DepthUpdateEvent :=
  {| U := 9; u := 10; bids := [("100", "5")]; asks := [] |}.

Definition event_11_12 : DepthUpdateEvent :=
  {| U := 11; u := 12; bids := []; asks := [("101", "0"); ("102", "4")] |}.

(** The snapshot published when the live event [(9, 10)] reaches the
    bootstrapped tracker: 5 on the bid side against 2 on the ask side. *)
Definition published_9_10 : Snapshot.BinanceDepthSnapshot :=
  {| Snapshot.symbol := "BTCUSDT";
     Snapshot.buySum := 5;
     Snapshot.sellSum := 2;
     Snapshot.skipBuySide := false;
     Snapshot.skipSellSide := true;
     Snapshot.imbalance := buy_dominant;
     Snapshot.updatedAt := 3;
     Snapshot.windowBps := 9;
     Snapshot.localLastUpdateId := 10 |}.

(** *** Vocabulary of the further statements about the tracker *)

(** [book.get(k)]. *)
Definition mapGet (k : string) (b : Book) : option float :=
  match find (fun kv => String.eqb (fst kv) k) b with
  | Some kv => Some (snd kv)
  | None => None
  end.

Section TrackerInvariants.

Variable Number : string -> float.

(** Whether [applyLevels] accepts the level. *)
Definition accepted (level : AsterDepthLevel) : bool :=
  negb (String.eqb (fst level) "") &&
  JS.isFinite (Number (fst level)) && negb (Number (fst level) <=? 0) &&
  JS.isFinite (Number (snd level)) && negb (Number (snd level) <? 0).

(** A level as [applyLevels] accepts it: a non-empty price string that
    reads as a finite positive number, and a finite positive quantity. *)
Definition validEntry (entry : string * float) : Prop :=
  fst entry <> "" /\
  JS.isFinite (Number (fst entry)) = true /\ (0 <? Number (fst entry)) = true /\
  JS.isFinite (snd entry) = true /\ (0 <? snd entry) = true.

Definition validBook (b : Book) : Prop := Forall validEntry b.

(** What every tracker state satisfies. *)
Definition wellFormed (t : Tracker) : Prop :=
  validBook (bidBook t) /\ validBook (askBook t) /\
  (List.length (eventBuffer t) <= MAX_BUFFER_SIZE)%nat /\
  (0 <= localLastUpdateId t)%Z /\
  (orderBookReady t = true -> 0 < localLastUpdateId t)%Z /\
  (RECONNECT_DELAY_BASE_MS <= reconnectDelayMs t <= RECONNECT_DELAY_MAX_MS)%Z /\
  (0 <= restConsecutiveFailures t)%Z /\
  (forall attempt firstBuffered,
     syncInFlight t = Some (bootstrapping attempt firstBuffered) ->
     (attempt < SYNC_SNAPSHOT_MAX_RETRIES)%nat).

End TrackerInvariants.

(** The fields that the work on the order book (applying events,
    resetting from a snapshot, publishing) never writes. *)
Definition sameOutsideBook (t t' : Tracker) : Prop :=
  stopped t' = stopped t /\ started t' = started t /\ ws t' = ws t /\
  reconnectTimer t' = reconnectTimer t /\
  restConsecutiveFailures t' = restConsecutiveFailures t /\
  restLastError t' = restLastError t /\
  lastRestSyncAt t' = lastRestSyncAt t.

(** Whether [price] is no better than [best] on the given side: no
    higher for a bid, no lower for an ask. *)
Definition noBetterThan (side : BookSide) (best price : float) : bool :=
  match side with
  | bid => price <=? best
  | ask => best <=? price
  end.

(** Whether [fetchDepthSnapshot] ends in its [catch]: the request failed,
    or the body carries no positive [lastUpdateId]. *)
Definition fetchFails (result : FetchResult) : bool :=
  match result with
  | fetchFailed _ => true
  | fetchBody json => (Rest.lastUpdateId json <=? 0)%Z
  end.

End BinanceDepth.

(* ================================================================== *)
(** ** Order facts about binary64 comparisons

  The comparisons of primitive floats are specified through
  [SpecFloat.SFcompare]; the few order facts the development needs are
  derived from that specification. *)
(* ================================================================== *)

Module FloatOrder.

Local Open Scope float_scope.

Lemma Pos_compare_cont_Eq_opp (m1 m2 : positive) :
  Pos.compare_cont Eq m2 m1 = CompOpp (Pos.compare_cont Eq m1 m2).
Proof.
  change (Pos.compare_cont Eq m2 m1) with (Pos.compare m2 m1).
  change (Pos.compare_cont Eq m1 m2) with (Pos.compare m1 m2).
  apply Pos.compare_antisym.
Qed.

Lemma SFcompare_antisym (a b : spec_float) (c : comparison) :
  SFcompare a b = Some c -> SFcompare b a = Some (CompOpp c).
Proof.
  destruct a as [sa|sa| |sa ma ea], b as [sb|sb| |sb mb eb]; simpl;
    try discriminate;
    try (destruct sa; intros [= <-]; reflexivity);
    try (destruct sb; intros [= <-]; reflexivity);
    try (destruct sa, sb; intros [= <-]; reflexivity).
  intros [= <-]. f_equal.
  rewrite (Z.compare_antisym ea eb), (Pos_compare_cont_Eq_opp ma mb).
  destruct sa, sb; try reflexivity;
    destruct (ea ?= eb)%Z; simpl; try reflexivity;
    destruct (Pos.compare_cont Eq ma mb); reflexivity.
Qed.

(** [a < b] and [b < a] never hold together. *)
Lemma ltb_asym (a b : float) : (a <? b) = true -> (b <? a) = false.
Proof.
  rewrite !ltb_spec. unfold SFltb.
  destruct (SFcompare (Prim2SF a) (Prim2SF b)) as [c|] eqn:E; try discriminate.
  rewrite (SFcompare_antisym _ _ _ E).
  destruct c; simpl; congruence.
Qed.

(** [a <= b] excludes [b < a]. *)
Lemma leb_not_gtb (a b : float) : (a <=? b) = true -> (b <? a) = false.
Proof.
  rewrite leb_spec, ltb_spec. unfold SFleb, SFltb.
  destruct (SFcompare (Prim2SF a) (Prim2SF b)) as [c|] eqn:E; try discriminate.
  rewrite (SFcompare_antisym _ _ _ E).
  destruct c; simpl; congruence.
Qed.

(** [a < b] excludes [b <= a]. *)
Lemma ltb_not_geb (a b : float) : (a <? b) = true -> (b <=? a) = false.
Proof.
  rewrite leb_spec, ltb_spec. unfold SFleb, SFltb.
  destruct (SFcompare (Prim2SF a) (Prim2SF b)) as [c|] eqn:E; try discriminate.
  rewrite (SFcompare_antisym _ _ _ E).
  destruct c; simpl; congruence.
Qed.

(** A number below [-e] has an absolute value above [e]. *)
Lemma ltb_opp_not_abs_leb (x e : float) :
  (x <? - e) = true -> (JS.abs x <=? e) = false.
Proof.
  unfold JS.abs. rewrite leb_spec, ltb_spec, abs_spec, opp_spec.
  unfold SFleb, SFltb.
  destruct (Prim2SF x) as [sx|sx| |sx mx ex],
           (Prim2SF e) as [se|se| |se me ee]; simpl;
    try discriminate; try reflexivity;
    try (destruct sx; simpl; try discriminate; reflexivity);
    try (destruct se; simpl; try discriminate; reflexivity);
    try (destruct sx, se; simpl; try discriminate; reflexivity).
  destruct sx, se; simpl; try discriminate; try reflexivity.
  destruct (ex ?= ee)%Z; simpl; try discriminate; try reflexivity.
  destruct (Pos.compare_cont Eq mx me); simpl; try discriminate; reflexivity.
Qed.

Lemma not_nan_spec (a : float) : is_nan a = false -> Prim2SF a <> S754_nan.
Proof.
  unfold is_nan. rewrite FloatAxioms.eqb_spec. unfold SFeqb. intros H E.
  rewrite E in H. discriminate.
Qed.

Lemma SFcompare_total (a b : spec_float) :
  a <> S754_nan -> b <> S754_nan -> exists c, SFcompare a b = Some c.
Proof.
  destruct a, b; cbn; intros Ha Hb; try congruence; eauto.
Qed.

Lemma isFinite_not_nan (a : float) : JS.isFinite a = true -> is_nan a = false.
Proof.
  unfold JS.isFinite. destruct (is_nan a); [discriminate|reflexivity].
Qed.

(** On numbers that are not NaN the order is total. *)
Lemma ltb_false_leb (a b : float) :
  JS.isFinite a = true -> JS.isFinite b = true ->
  (a <? b) = false -> (b <=? a) = true.
Proof.
  intros Ha Hb. rewrite ltb_spec, leb_spec. unfold SFltb, SFleb.
  destruct (SFcompare_total (Prim2SF a) (Prim2SF b)) as [c E];
    try (apply not_nan_spec, isFinite_not_nan; assumption).
  rewrite E, (SFcompare_antisym _ _ _ E).
  destruct c; cbn; congruence.
Qed.

Lemma leb_false_ltb (a b : float) :
  JS.isFinite a = true -> JS.isFinite b = true ->
  (a <=? b) = false -> (b <? a) = true.
Proof.
  intros Ha Hb. rewrite ltb_spec, leb_spec. unfold SFltb, SFleb.
  destruct (SFcompare_total (Prim2SF a) (Prim2SF b)) as [c E];
    try (apply not_nan_spec, isFinite_not_nan; assumption).
  rewrite E, (SFcompare_antisym _ _ _ E).
  destruct c; cbn; congruence.
Qed.

(** A number above [e] has an absolute value above [e]. *)
Lemma gtb_not_abs_leb (x e : float) :
  (e <? x) = true -> (JS.abs x <=? e) = false.
Proof.
  unfold JS.abs. rewrite leb_spec, ltb_spec, abs_spec.
  unfold SFleb, SFltb.
  destruct (Prim2SF x) as [sx|sx| |sx mx ex],
           (Prim2SF e) as [se|se| |se me ee]; simpl;
    try discriminate; try reflexivity;
    try (destruct sx; simpl; try discriminate; reflexivity);
    try (destruct se; simpl; try discriminate; reflexivity);
    try (destruct sx, se; simpl; try discriminate; reflexivity).
  destruct sx, se; simpl; try discriminate; try reflexivity.
  rewrite (Z.compare_antisym ee ex), (Pos_compare_cont_Eq_opp me mx).
  destruct (ee ?= ex)%Z; simpl; try discriminate; try reflexivity.
  destruct (Pos.compare_cont Eq me mx); simpl; try discriminate; reflexivity.
Qed.

(** A number above [e >= 0] is not below [-e]. *)
Lemma gtb_not_ltb_opp (x e : float) :
  (e <? x) = true -> (0 <=? e) = true -> (x <? - e) = false.
Proof.
  rewrite leb_spec, !ltb_spec, opp_spec. unfold SFleb, SFltb.
  change (Prim2SF 0) with (S754_zero false).
  destruct (Prim2SF x) as [sx|sx| |sx mx ex],
           (Prim2SF e) as [se|se| |se me ee]; simpl;
    try discriminate; try reflexivity;
    try (destruct sx; simpl; try discriminate; reflexivity);
    try (destruct se; simpl; try discriminate; reflexivity);
    try (destruct sx, se; simpl; try discriminate; reflexivity).
Qed.

(** A number that is at most [b] and differs from it is below it. *)
Lemma leb_neq_ltb (a b : float) :
  (a <=? b) = true -> (b =? a) = false -> (a <? b) = true.
Proof.
  rewrite leb_spec, ltb_spec, FloatAxioms.eqb_spec. unfold SFleb, SFltb, SFeqb.
  destruct (SFcompare (Prim2SF a) (Prim2SF b)) as [c|] eqn:E; try discriminate.
  rewrite (SFcompare_antisym _ _ _ E).
  destruct c; cbn; congruence.
Qed.

(** [<=] is transitive: on the specification of the comparison first. *)
Lemma SFcompare_le_trans (a b c : spec_float) x y :
  SFcompare a b = Some x -> x <> Gt ->
  SFcompare b c = Some y -> y <> Gt ->
  exists z, SFcompare a c = Some z /\ z <> Gt.
Proof.
  destruct a as [sa|sa| |sa ma ea], b as [sb|sb| |sb mb eb],
           c as [sc|sc| |sc mc ec]; cbn;
    intros H1 N1 H2 N2; try discriminate;
    injection H1 as <-; injection H2 as <-;
    try (destruct sa; try congruence); try (destruct sb; try congruence);
    try (destruct sc; try congruence);
    try (eexists; split; [reflexivity|congruence]).
  all: eexists; (split; [reflexivity|]).
  all: revert N1 N2.
  all: change (Pos.compare_cont Eq) with Pos.compare.
  all: destruct (Z.compare_spec ea eb), (Z.compare_spec eb ec),
         (Z.compare_spec ea ec); try lia; try congruence; cbn.
  all: destruct (Pos.compare_spec ma mb), (Pos.compare_spec mb mc),
         (Pos.compare_spec ma mc); try lia; cbn; congruence.
Qed.

Lemma leb_trans (a b c : float) :
  (a <=? b) = true -> (b <=? c) = true -> (a <=? c) = true.
Proof.
  rewrite !leb_spec. unfold SFleb.
  destruct (SFcompare (Prim2SF a) (Prim2SF b)) as [x|] eqn:E1; [|discriminate].
  destruct (SFcompare (Prim2SF b) (Prim2SF c)) as [y|] eqn:E2; [|discriminate].
  intros H1 H2.
  assert (Nx : x <> Gt) by (destruct x; congruence).
  assert (Ny : y <> Gt) by (destruct y; congruence).
  destruct (SFcompare_le_trans _ _ _ x y E1 Nx E2 Ny) as (z & -> & Hz).
  destruct z; congruence.
Qed.

Lemma ltb_leb (a b : float) : (a <? b) = true -> (a <=? b) = true.
Proof.
  rewrite ltb_spec, leb_spec. unfold SFltb, SFleb.
  destruct (SFcompare (Prim2SF a) (Prim2SF b)) as [[| |]|]; congruence.
Qed.

Lemma leb_refl (a : float) : JS.isFinite a = true -> (a <=? a) = true.
Proof.
  intros H. pose proof (not_nan_spec a (isFinite_not_nan a H)) as N.
  rewrite leb_spec. unfold SFleb.
  destruct (Prim2SF a) as [s|s| |s m e]; cbn; try congruence;
    try (destruct s; reflexivity).
  change (Pos.compare_cont Eq m m) with (Pos.compare m m).
  destruct s; rewrite Z.compare_refl, Pos.compare_refl; reflexivity.
Qed.

End FloatOrder.

(* ================================================================== *)
(** ** Integers below 2^53 as doubles *)
(* ================================================================== *)

(** The doubles of non-negative integers below [2^53] compare as the
    integers do, and adding one to them is exact. *)
Module SafeIntegerFacts.

Import BinanceDepth.
Local Open Scope Z_scope.

(** [digits2_pos] is the bit length. *)
Lemma digits2_pos_bounds (p : positive) :
  2 ^ (Zpos (digits2_pos p) - 1) <= Zpos p < 2 ^ Zpos (digits2_pos p).
Proof.
  induction p as [p IH|p IH|]; cbn [digits2_pos].
  - rewrite Pos2Z.inj_succ.
    replace (Z.succ (Zpos (digits2_pos p)) - 1) with (Zpos (digits2_pos p)) by lia.
    rewrite Z.pow_succ_r by lia.
    replace (2 ^ Zpos (digits2_pos p)) with (2 * 2 ^ (Zpos (digits2_pos p) - 1)) in *
      by (rewrite <- Z.pow_succ_r by lia; f_equal; lia).
    lia.
  - rewrite Pos2Z.inj_succ.
    replace (Z.succ (Zpos (digits2_pos p)) - 1) with (Zpos (digits2_pos p)) by lia.
    rewrite Z.pow_succ_r by lia.
    replace (2 ^ Zpos (digits2_pos p)) with (2 * 2 ^ (Zpos (digits2_pos p) - 1)) in *
      by (rewrite <- Z.pow_succ_r by lia; f_equal; lia).
    lia.
  - cbn. lia.
Qed.

Lemma iter_xO_Z (p k : positive) :
  Zpos (Pos.iter xO p k) = Zpos p * 2 ^ Zpos k.
Proof.
  induction k as [|k IH] using Pos.peano_ind.
  - cbn. lia.
  - rewrite Pos.iter_succ, Pos2Z.inj_succ, Z.pow_succ_r by lia.
    rewrite Pos2Z.inj_xO, IH. lia.
Qed.

Lemma digits2_pos_iter_xO (p k : positive) :
  digits2_pos (Pos.iter xO p k) = (digits2_pos p + k)%positive.
Proof.
  induction k as [|k IH] using Pos.peano_ind.
  - cbn. lia.
  - rewrite Pos.iter_succ. cbn [digits2_pos]. rewrite IH. lia.
Qed.

Lemma iter_pos_iter {A} (f : A -> A) (n : positive) (x : A) :
  SpecFloat.iter_pos f n x = Pos.iter f x n.
Proof.
  revert x. induction n as [n IH|n IH|]; intros x;
    cbn [SpecFloat.iter_pos Pos.iter].
  - rewrite !IH. rewrite <- !Pos.iter_swap. reflexivity.
  - rewrite !IH. reflexivity.
  - reflexivity.
Qed.

(** Shifting out zero bits is exact. *)
Lemma shr_exact (k m : positive) :
  SpecFloat.iter_pos shr_1 k {| shr_m := Zpos (Pos.iter xO m k); shr_r := false; shr_s := false |}
  = {| shr_m := Zpos m; shr_r := false; shr_s := false |}.
Proof.
  rewrite iter_pos_iter.
  induction k as [|k IH] using Pos.peano_ind.
  - reflexivity.
  - rewrite (Pos.iter_succ_r k shr_record shr_1), (Pos.iter_succ k positive xO).
    cbn [shr_1 orb]. exact IH.
Qed.

(** A canonical mantissa is neither shifted nor rounded. *)
Lemma binary_round_aux_canonical (m : positive) (e : Z) :
  Zpos (digits2_pos m) = 53 -> -1074 <= e <= 971 ->
  binary_round_aux prec emax false (Zpos m) e loc_Exact = S754_finite false m e.
Proof.
  intros Hd He. unfold binary_round_aux, shr_fexp, fexp, emin, prec, emax.
  cbn [Zdigits2 shr_record_of_loc]. rewrite Hd.
  replace (Z.max (53 + e - 53) (3 - 1024 - 53) - e) with 0 by lia.
  cbn [shr shr_m loc_of_shr_record round_nearest_even Zdigits2].
  rewrite Hd.
  replace (Z.max (53 + e - 53) (3 - 1024 - 53) - e) with 0 by lia.
  cbn [shr shr_m shr_record_of_loc].
  destruct (Z.leb_spec e (1024 - 53)); [reflexivity|lia].
Qed.

Lemma binary_round_aux_shift (m k : positive) (e : Z) :
  Zpos (digits2_pos m) = 53 -> -1074 <= e -> e + Zpos k <= 971 ->
  binary_round_aux prec emax false (Zpos (Pos.iter xO m k)) e loc_Exact
  = S754_finite false m (e + Zpos k).
Proof.
  intros Hd He Hk. unfold binary_round_aux, shr_fexp, fexp, emin, prec, emax.
  cbn [Zdigits2 shr_record_of_loc].
  rewrite digits2_pos_iter_xO, Pos2Z.inj_add, Hd.
  replace (Z.max (53 + Zpos k + e - 53) (3 - 1024 - 53) - e) with (Zpos k) by lia.
  cbn [shr]. rewrite shr_exact.
  cbn [shr_m loc_of_shr_record round_nearest_even Zdigits2].
  rewrite Hd.
  replace (Z.max (53 + (e + Zpos k) - 53) (3 - 1024 - 53) - (e + Zpos k))
    with 0 by lia.
  cbn [shr shr_m shr_record_of_loc].
  destruct (Z.leb_spec (e + Zpos k) (1024 - 53)); [reflexivity|lia].
Qed.

Lemma to_pos_shift (p : positive) (k : Z) :
  0 < k -> Z.to_pos (Zpos p * 2 ^ k) = Pos.iter xO p (Z.to_pos k).
Proof.
  intros Hk.
  assert (0 < 2 ^ k) by (apply Z.pow_pos_nonneg; lia).
  apply Pos2Z.inj. rewrite iter_xO_Z, !Z2Pos.id; try lia.
Qed.

Lemma digits_small (p : positive) :
  Zpos p < 2 ^ 53 -> Zpos (digits2_pos p) <= 53.
Proof.
  intros H. destruct (digits2_pos_bounds p) as [Hl _].
  destruct (Z.le_gt_cases (Zpos (digits2_pos p)) 53) as [|Hgt]; [assumption|].
  assert (2 ^ 53 <= 2 ^ (Zpos (digits2_pos p) - 1))
    by (apply Z.pow_le_mono_r; lia).
  lia.
Qed.

(** Rounding a positive integer below [2^53] only normalises it. *)
Lemma binary_round_small (p : positive) :
  Zpos (digits2_pos p) <= 53 ->
  binary_round prec emax false p 0 = normalSF p.
Proof.
  intros Hd. unfold binary_round, normalSF, shl_align, fexp, emin, prec, emax.
  rewrite Z.add_0_r.
  replace (Z.max (Zpos (digits2_pos p) - 53) (3 - 1024 - 53))
    with (Zpos (digits2_pos p) - 53) by lia.
  rewrite Z.sub_0_r.
  assert (Hpos : 0 < Zpos (digits2_pos p)) by lia.
  destruct (Zpos (digits2_pos p) - 53) as [|q|q] eqn:E; try lia.
  - rewrite binary_round_aux_canonical; [|lia|lia].
    replace (53 - Zpos (digits2_pos p)) with 0 by lia.
    f_equal; try lia; rewrite Z.pow_0_r, Z.mul_1_r; reflexivity.
  - rewrite binary_round_aux_canonical.
    + replace (53 - Zpos (digits2_pos p)) with (Zpos q) by lia.
      rewrite to_pos_shift by lia. reflexivity.
    + rewrite digits2_pos_iter_xO, Pos2Z.inj_add. lia.
    + lia.
Qed.

(** The normal forms compare as the integers. *)
Lemma normalSF_compare (p q : positive) :
  Zpos (digits2_pos p) <= 53 -> Zpos (digits2_pos q) <= 53 ->
  SFcompare (normalSF p) (normalSF q) = Some (Pos.compare p q).
Proof.
  intros Hp Hq. unfold normalSF. cbn [SFcompare].
  change (Pos.compare_cont Eq) with Pos.compare.
  destruct (digits2_pos_bounds p) as [Lp Up].
  destruct (digits2_pos_bounds q) as [Lq Uq].
  f_equal.
  destruct (Z.compare_spec (Zpos (digits2_pos p) - 53) (Zpos (digits2_pos q) - 53))
    as [E|E|E].
  - assert (Ed : Zpos (digits2_pos p) = Zpos (digits2_pos q)) by lia.
    rewrite Ed.
    assert (Hc : 0 < 2 ^ (53 - Zpos (digits2_pos q)))
      by (apply Z.pow_pos_nonneg; lia).
    rewrite !Pos2Z.inj_compare, !Z2Pos.id by nia.
    destruct (Z.compare_spec (Zpos p) (Zpos q)) as [E'|E'|E'].
    + rewrite E'. apply Z.compare_refl.
    + apply Z.compare_lt_iff. nia.
    + apply Z.compare_gt_iff. nia.
  - symmetry. apply Pos.compare_lt_iff.
    assert (2 ^ Zpos (digits2_pos p) <= 2 ^ (Zpos (digits2_pos q) - 1))
      by (apply Z.pow_le_mono_r; lia).
    lia.
  - symmetry. apply Pos.compare_gt_iff.
    assert (2 ^ Zpos (digits2_pos q) <= 2 ^ (Zpos (digits2_pos p) - 1))
      by (apply Z.pow_le_mono_r; lia).
    lia.
Qed.

(** Adding one stays exact below [2^53]. *)
Lemma normalSF_succ (p : positive) :
  Zpos p + 1 < 2 ^ 53 ->
  SFadd prec emax (normalSF p) (normalSF 1) = normalSF (p + 1).
Proof.
  intros Hsafe.
  assert (Hp : Zpos (digits2_pos p) <= 53) by (apply digits_small; lia).
  assert (Hq : Zpos (digits2_pos (p + 1)) <= 53)
    by (apply digits_small; lia).
  destruct (digits2_pos_bounds p) as [Lp Up].
  destruct (digits2_pos_bounds (p + 1)) as [Lq Uq].
  set (d := Zpos (digits2_pos p)) in *.
  set (d' := Zpos (digits2_pos (p + 1))) in *.
  assert (Hd : 1 <= d) by (unfold d; lia).
  assert (Hd' : 2 <= d').
  { destruct (Z.le_gt_cases 2 d') as [|Hlt]; [assumption|].
    assert (d' = 1) by (unfold d' in *; lia).
    rewrite H in Uq. cbn in Uq. lia. }
  change (normalSF 1) with (S754_finite false 4503599627370496 (-52)).
  unfold normalSF at 1. fold d. cbn [SFadd cond_Zopp].
  replace (Z.min (d - 53) (-52)) with (-52) by lia.
  assert (A1 : Zpos (fst (shl_align (Z.to_pos (Zpos p * 2 ^ (53 - d))) (d - 53) (-52)))
               = Zpos p * 2 ^ 52).
  { unfold shl_align.
    assert (Hc : 0 < 2 ^ (53 - d)) by (apply Z.pow_pos_nonneg; lia).
    destruct (-52 - (d - 53)) as [|k|k] eqn:E; try lia; cbn [fst].
    - rewrite Z2Pos.id by nia. replace (53 - d) with 52 by lia. reflexivity.
    - rewrite iter_xO_Z, Z2Pos.id by nia.
      rewrite <- Z.mul_assoc, <- Z.pow_add_r by lia.
      do 2 f_equal. lia. }
  assert (A2 : Zpos (fst (shl_align 4503599627370496 (-52) (-52))) = 2 ^ 52)
    by reflexivity.
  rewrite A1, A2.
  replace (Zpos p * 2 ^ 52 + 2 ^ 52) with (Zpos (Pos.iter xO (p + 1)%positive 52))
    by (rewrite iter_xO_Z; lia).
  cbn [binary_normalize]. unfold binary_round, shl_align.
  rewrite digits2_pos_iter_xO, Pos2Z.inj_add. fold d'.
  unfold fexp at 1 2, emin, prec, emax.
  replace (Z.max (d' + 52 + -52 - 53) (3 - 1024 - 53)) with (d' - 53) by lia.
  destruct (d' - 53 - -52) as [|k|k] eqn:E; try lia.
  unfold normalSF. fold d'.
  destruct (Z.eq_dec d' 53) as [E53|N53].
  - rewrite binary_round_aux_shift; [|exact E53|lia|lia].
    f_equal; [|lia].
    replace (53 - d') with 0 by lia.
    rewrite Z.pow_0_r, Z.mul_1_r. reflexivity.
  - replace (Pos.iter xO (p + 1)%positive 52)
      with (Pos.iter xO (Z.to_pos (Zpos (p + 1) * 2 ^ (53 - d'))) k).
    + assert (Hc : 0 < 2 ^ (53 - d')) by (apply Z.pow_pos_nonneg; lia).
      rewrite binary_round_aux_shift; [f_equal; lia| |lia|lia].
      rewrite to_pos_shift by lia.
      rewrite digits2_pos_iter_xO, Pos2Z.inj_add. fold d'.
      rewrite Z2Pos.id by lia. lia.
    + apply Pos2Z.inj.
      assert (Hc : 0 < 2 ^ (53 - d')) by (apply Z.pow_pos_nonneg; lia).
      rewrite !iter_xO_Z, Z2Pos.id by nia.
      rewrite <- Z.mul_assoc, <- Z.pow_add_r by lia.
      do 2 f_equal. lia.
Qed.

Local Open Scope float_scope.

(** The same facts on the primitive doubles. *)
Lemma idNumber_spec (n : Z) :
  (0 <= n < 2 ^ 53)%Z -> Prim2SF (idNumber n) = idSF n.
Proof.
  intros Hn. unfold idNumber. rewrite of_uint63_spec.
  change (Uint63Axioms.to_Z (Uint63.of_Z n)) with (Uint63.to_Z (Uint63.of_Z n)).
  rewrite Uint63.of_Z_spec.
  rewrite Z.mod_small.
  2:{ split; [lia|]. apply Z.lt_trans with (2 ^ 53)%Z; [lia|reflexivity]. }
  destruct n as [|p|p]; [reflexivity| |lia].
  cbn [binary_normalize idSF]. apply binary_round_small, digits_small. lia.
Qed.

Lemma idSF_compare (a b : Z) :
  (0 <= a < 2 ^ 53)%Z -> (0 <= b < 2 ^ 53)%Z ->
  SFcompare (idSF a) (idSF b) = Some (a ?= b)%Z.
Proof.
  intros Ha Hb.
  destruct a as [|p|p], b as [|q|q]; try lia; try reflexivity.
  cbn [idSF]. rewrite normalSF_compare by (apply digits_small; lia).
  reflexivity.
Qed.

Lemma idNumber_ltb (a b : Z) :
  (0 <= a < 2 ^ 53)%Z -> (0 <= b < 2 ^ 53)%Z ->
  (idNumber a <? idNumber b) = (a <? b)%Z.
Proof.
  intros Ha Hb. rewrite ltb_spec, !idNumber_spec by assumption.
  unfold SFltb. rewrite idSF_compare by assumption.
  unfold Z.ltb. destruct (a ?= b)%Z; reflexivity.
Qed.

Lemma idNumber_eqb (a b : Z) :
  (0 <= a < 2 ^ 53)%Z -> (0 <= b < 2 ^ 53)%Z ->
  (idNumber a =? idNumber b) = (a =? b)%Z.
Proof.
  intros Ha Hb. rewrite FloatAxioms.eqb_spec, !idNumber_spec by assumption.
  unfold SFeqb. rewrite idSF_compare by assumption.
  destruct (Z.eqb_spec a b) as [->|N]; [now rewrite Z.compare_refl|].
  destruct (Z.compare_spec a b); [contradiction|reflexivity|reflexivity].
Qed.

Lemma idNumber_not_nan (a : Z) :
  (0 <= a < 2 ^ 53)%Z -> is_nan (idNumber a) = false.
Proof.
  intros Ha. unfold is_nan. rewrite idNumber_eqb by assumption.
  now rewrite Z.eqb_refl.
Qed.

Lemma idNumber_succ (n : Z) :
  (0 <= n)%Z -> (n + 1 < 2 ^ 53)%Z -> idNumber n + 1 = idNumber (n + 1).
Proof.
  intros H0 Hn. apply Prim2SF_inj.
  rewrite add_spec, !idNumber_spec by lia.
  change (Prim2SF 1) with (normalSF 1).
  destruct n as [|p|p]; [reflexivity| |lia].
  cbn [idSF]. replace (Zpos p + 1)%Z with (Zpos (p + 1)) by lia.
  cbn [idSF]. apply normalSF_succ. lia.
Qed.

End SafeIntegerFacts.

(* ================================================================== *)
(** ** Properties of the swing state machine *)
(* ================================================================== *)

Module SwingLogicFacts.

Import SwingLogic.
Local Open Scope float_scope.

Ltac break_if :=
  match goal with
  | |- context [if ?b then _ else _] => destruct b eqn:?
  end.

Lemma stepFlat_length prev r config st :
  (List.length (snd (stepFlat prev r config st)) <= 1)%nat.
Proof.
  unfold stepFlat.
  repeat (cbn [fst snd List.length app Nat.ltb Nat.leb
               armedShortEntry armedLongEntry set_armedShortEntry
               set_armedLongEntry set_armedShortExit set_armedLongExit];
          try break_if);
    cbn in *; try lia; try discriminate.
Qed.

Lemma stepShort_length prev r p config st :
  (List.length (snd (stepShort prev r p config st)) <= 1)%nat.
Proof. unfold stepShort. repeat break_if; cbn; lia. Qed.

Lemma stepLong_length prev r p config st :
  (List.length (snd (stepLong prev r p config st)) <= 1)%nat.
Proof. unfold stepLong. repeat break_if; cbn; lia. Qed.

Lemma stepSwing_length state config input :
  (List.length (snd (stepSwing state config input)) <= 1)%nat.
Proof.
  unfold stepSwing.
  destruct (rsi input) as [r|]; [|cbn; lia].
  destruct (negb (JS.isFinite r)); [cbn; lia|].
  destruct (isFlat (positionAmt input)); [apply stepFlat_length|].
  destruct (isShort (positionAmt input)); [apply stepShort_length|].
  destruct (isLong (positionAmt input)); [apply stepLong_length|].
  cbn; lia.
Qed.

(** The scenarios of the test suite of swing-logic. *)
Example short_entry_scenario :
  snd (run (cfg short) [ev 69 0 0; ev 71 0 0; ev 69 0 0] createInitialSwingState)
  = [[]; []; [OPEN_SHORT]].
Proof. reflexivity. Qed.

Example long_entry_scenario :
  snd (run (cfg long) [ev 31 0 0; ev 29 0 0; ev 31 0 0] createInitialSwingState)
  = [[]; []; [OPEN_LONG]].
Proof. reflexivity. Qed.

Example short_exit_scenario :
  snd (run (cfg both)
         [ev 31 (-1) (-1); ev 29 (-1) (-1); ev 31 (-1) 0; ev 31 (-1) 0.01;
          ev 29 (-1) 0.01; ev 31 (-1) 0.01] createInitialSwingState)
  = [[]; []; []; []; []; [CLOSE_POSITION]].
Proof. reflexivity. Qed.

Example long_exit_scenario :
  snd (run (cfg both) [ev 69 1 0; ev 71 1 0; ev 69 1 0.01] createInitialSwingState)
  = [[]; []; [CLOSE_POSITION]].
Proof. reflexivity. Qed.

(** C3. Whatever the state, the configuration (any direction, any
    thresholds [rsiHigh], [rsiLow]) and the event, [stepSwing] returns at
    most one action; in particular [OPEN_LONG] and [OPEN_SHORT] are never
    returned by the same call. *)
Theorem stepSwing_at_most_one_action
    (state : SwingState) (config : SwingLogicConfig) (input : SwingStepInput) :
  (List.length (snd (stepSwing state config input)) <= 1)%nat /\
  ~ (In OPEN_LONG (actionTypes (stepSwing state config input)) /\
     In OPEN_SHORT (actionTypes (stepSwing state config input))).
Proof.
  pose proof (stepSwing_length state config input) as Hlen.
  split; [exact Hlen|].
  unfold actionTypes.
  destruct (snd (stepSwing state config input)) as [|a [|b l]]; cbn in *.
  - intros [[] _].
  - intros [[H1|[]] [H2|[]]]. congruence.
  - lia.
Qed.

(** A short position is not flat. *)
Lemma isShort_not_flat amt : isShort amt = true -> isFlat amt = false.
Proof.
  unfold isShort, isFlat. intros H.
  apply andb_prop in H as [Hfin Hlt].
  rewrite Hfin. cbn.
  now apply FloatOrder.ltb_opp_not_abs_leb.
Qed.

Lemma stepSwing_short state config r amt p :
  JS.isFinite r = true -> isShort amt = true ->
  stepSwing state config {| rsi := Some r; positionAmt := amt; pnl := p |}
  = stepShort (prevRsi state) r p config
      (set_armedLongEntry false
         (set_armedShortEntry false (set_prevRsi (Some r) state))).
Proof.
  intros Hr Hs. unfold stepSwing. cbn [rsi positionAmt pnl].
  rewrite Hr, (isShort_not_flat _ Hs), Hs. reflexivity.
Qed.

(** Crossing a threshold downwards and upwards in one sample is impossible. *)
Lemma cross_exclusive prev r t :
  crossDown prev r t = true -> crossUp prev r t = false.
Proof.
  destruct prev as [q|]; cbn; [|reflexivity].
  intros H. apply andb_prop in H as [_ H].
  rewrite (FloatOrder.ltb_asym _ _ H). apply andb_false_r.
Qed.

(** C4. In a step with a valid RSI and a short position, while
    [armedShortExit] is set, [CLOSE_POSITION] is emitted exactly when the
    RSI crosses [rsiLow] upwards and [pnl > 0], and then the arm is cleared;
    a cross-up with [pnl <= 0] emits nothing and leaves the arm set, as does
    every step without the cross-up. *)
Theorem short_exit_requires_profit
    (state : SwingState) (config : SwingLogicConfig) (r amt p : float)
    (Hrsi : JS.isFinite r = true)
    (Hshort : isShort amt = true)
    (Harmed : armedShortExit state = true) :
  let res := stepSwing state config
               {| rsi := Some r; positionAmt := amt; pnl := p |} in
  let cross := crossUp (prevRsi state) r (rsiLow config) in
  (In CLOSE_POSITION (actionTypes res) <-> cross = true /\ (0 <? p) = true) /\
  (cross = true -> (0 <? p) = true ->
     snd res = [closeShort] /\ armedShortExit (fst res) = false) /\
  (cross = true -> (p <=? 0) = true ->
     snd res = [] /\ armedShortExit (fst res) = true) /\
  (cross = false \/ (0 <? p) = false ->
     snd res = [] /\ armedShortExit (fst res) = true).
Proof.
  intros res cross. subst res.
  rewrite (stepSwing_short state config r amt p Hrsi Hshort).
  unfold stepShort, actionTypes.
  fold cross.
  assert (Harm' :
    armedShortExit
      (if crossDown (prevRsi state) r (rsiLow config)
       then set_armedShortExit true
              (set_armedLongExit false
                 (set_armedLongEntry false
                    (set_armedShortEntry false (set_prevRsi (Some r) state))))
       else set_armedLongExit false
              (set_armedLongEntry false
                 (set_armedShortEntry false (set_prevRsi (Some r) state))))
    = true).
  { destruct (crossDown _ _ _); cbn; auto. }
  cbn [prevRsi set_prevRsi set_armedShortEntry set_armedLongEntry
       set_armedLongExit] in *.
  rewrite Harm'. cbn [andb].
  assert (Hle : (p <=? 0) = true -> (0 <? p) = false)
    by apply FloatOrder.leb_not_gtb.
  destruct cross eqn:Hc, (0 <? p) eqn:Hp; cbn;
    repeat split; intros; cbn in *;
    try match goal with H : (p <=? 0) = true |- _ => specialize (Hle H) end;
    intuition (try congruence).
Qed.

(** The scenario of the test suite: armed short exit, RSI 29 then 31,
    pnl 0.01. *)
Lemma short_exit_requires_profit_witness :
  let state := {| prevRsi := Some 29; armedShortEntry := false;
                  armedShortExit := true; armedLongEntry := false;
                  armedLongExit := false |} in
  let config := {| direction := both; rsiHigh := 70; rsiLow := 30 |} in
  let res := stepSwing state config
               {| rsi := Some 31; positionAmt := -1; pnl := 0.01 |} in
  let cross := crossUp (prevRsi state) 31 (rsiLow config) in
  (In CLOSE_POSITION (actionTypes res) <-> cross = true /\ (0 <? 0.01) = true) /\
  (cross = true -> (0 <? 0.01) = true ->
     snd res = [closeShort] /\ armedShortExit (fst res) = false) /\
  (cross = true -> (0.01 <=? 0) = true ->
     snd res = [] /\ armedShortExit (fst res) = true) /\
  (cross = false \/ (0 <? 0.01) = false ->
     snd res = [] /\ armedShortExit (fst res) = true).
Proof.
  exact (short_exit_requires_profit
           {| prevRsi := Some 29; armedShortEntry := false;
              armedShortExit := true; armedLongEntry := false;
              armedLongExit := false |}
           {| direction := both; rsiHigh := 70; rsiLow := 30 |}
           31 (-1) 0.01 eq_refl eq_refl eq_refl).
Defined.

(** The non-flat part of [stepSwing], where [config] is only read for its
    thresholds. *)
Lemma stepSwing_exposed state config r amt p :
  JS.isFinite r = true -> isFlat amt = false ->
  stepSwing state config {| rsi := Some r; positionAmt := amt; pnl := p |}
  = let nextState :=
      set_armedLongEntry false
        (set_armedShortEntry false (set_prevRsi (Some r) state)) in
    if isShort amt then stepShort (prevRsi state) r p config nextState
    else if isLong amt then stepLong (prevRsi state) r p config nextState
    else (nextState, []).
Proof.
  intros Hr Hf. unfold stepSwing. cbn [rsi positionAmt pnl].
  now rewrite Hr, Hf.
Qed.

Lemma stepShort_entry_arms prev r p config st :
  armedShortEntry (fst (stepShort prev r p config st)) = armedShortEntry st /\
  armedLongEntry (fst (stepShort prev r p config st)) = armedLongEntry st.
Proof. unfold stepShort. repeat break_if; cbn; auto. Qed.

Lemma stepLong_entry_arms prev r p config st :
  armedShortEntry (fst (stepLong prev r p config st)) = armedShortEntry st /\
  armedLongEntry (fst (stepLong prev r p config st)) = armedLongEntry st.
Proof. unfold stepLong. repeat break_if; cbn; auto. Qed.

Lemma stepFlat_exit_arms prev r config st :
  armedShortExit (fst (stepFlat prev r config st)) = false /\
  armedLongExit (fst (stepFlat prev r config st)) = false.
Proof.
  unfold stepFlat.
  repeat (cbn [fst snd List.length app Nat.ltb Nat.leb
               armedShortEntry armedLongEntry set_armedShortEntry
               set_armedLongEntry set_armedShortExit set_armedLongExit];
          try break_if);
    cbn; auto.
Qed.

(** A raised entry arm was raised by a flat step, which lowered both exit
    arms; no later step raises an exit arm without lowering the entry arms. *)
Lemma reachable_entry_arm_excludes_exit_arms st :
  reachable st ->
  armedShortEntry st || armedLongEntry st = true ->
  armedShortExit st = false /\ armedLongExit st = false.
Proof.
  induction 1 as [|st config input Hreach IH]; [cbn; discriminate|].
  destruct input as [rs amt p]. destruct rs as [r|]; [|exact IH].
  destruct (JS.isFinite r) eqn:Hr.
  2:{ unfold stepSwing; cbn [rsi]. rewrite Hr. exact IH. }
  destruct (isFlat amt) eqn:Hf.
  - intros _. unfold stepSwing; cbn [rsi positionAmt]. rewrite Hr, Hf.
    apply stepFlat_exit_arms.
  - rewrite (stepSwing_exposed _ _ _ _ _ Hr Hf). cbv zeta.
    destruct (isShort amt); [|destruct (isLong amt)].
    + destruct (stepShort_entry_arms (prevRsi st) r p config
        (set_armedLongEntry false
           (set_armedShortEntry false (set_prevRsi (Some r) st)))) as [-> ->].
      cbn. discriminate.
    + destruct (stepLong_entry_arms (prevRsi st) r p config
        (set_armedLongEntry false
           (set_armedShortEntry false (set_prevRsi (Some r) st)))) as [-> ->].
      cbn. discriminate.
    + cbn. discriminate.
Qed.

(** A long amount is not a short one. *)
Lemma isLong_not_short amt : isLong amt = true -> isShort amt = false.
Proof.
  unfold isLong, isShort. intros H. apply andb_prop in H as [Hf Hl].
  rewrite Hf. cbn [andb].
  apply (FloatOrder.gtb_not_ltb_opp amt EPS Hl). reflexivity.
Qed.

(** C7. In a step with a valid RSI and a non-flat position both entry arms
    end up lowered, and the exits are evaluated whatever the configured
    direction: the whole result is the same under every direction, and for
    a short position (under direction [long] too) a cross below [rsiLow]
    raises the short exit arm, and a raised arm fires [CLOSE_POSITION]
    exactly on a cross above [rsiLow] with [pnl > 0], the arm being then
    lowered; symmetrically for a long position around [rsiHigh] (under
    direction [short] too).  In particular, when the engine comes from flat
    with [armedShortEntry] raised and the position is [-1], the step lowers
    both entry arms and emits no action. *)
Theorem exits_ignore_direction_and_entry_arms_cleared
    (state : SwingState) (config : SwingLogicConfig) (r amt p : float)
    (Hrsi : JS.isFinite r = true)
    (Hexposed : isFlat amt = false) :
  let input := {| rsi := Some r; positionAmt := amt; pnl := p |} in
  let res := stepSwing state config input in
  let prev := prevRsi state in
  armedShortEntry (fst res) = false /\
  armedLongEntry (fst res) = false /\
  (forall d, stepSwing state (withDirection d config) input = res) /\
  (isShort amt = true ->
   (crossDown prev r (rsiLow config) = true ->
    armedShortExit (fst res) = true /\ snd res = []) /\
   (In CLOSE_POSITION (actionTypes res) <->
    armedShortExit state = true /\
    crossUp prev r (rsiLow config) = true /\ (0 <? p) = true) /\
   (In CLOSE_POSITION (actionTypes res) ->
    snd res = [closeShort] /\ armedShortExit (fst res) = false) /\
   (armedShortExit state = true -> snd res = [] ->
    armedShortExit (fst res) = true) /\
   armedLongExit (fst res) = false) /\
  (isLong amt = true ->
   (crossUp prev r (rsiHigh config) = true ->
    armedLongExit (fst res) = true /\ snd res = []) /\
   (In CLOSE_POSITION (actionTypes res) <->
    armedLongExit state = true /\
    crossDown prev r (rsiHigh config) = true /\ (0 <? p) = true) /\
   (In CLOSE_POSITION (actionTypes res) ->
    snd res = [closeLong] /\ armedLongExit (fst res) = false) /\
   (armedLongExit state = true -> snd res = [] ->
    armedLongExit (fst res) = true) /\
   armedShortExit (fst res) = false) /\
  (reachable state -> armedShortEntry state = true -> amt = (-1) ->
   snd res = []).
Proof.
  intros input res prev. subst input res prev.
  rewrite (stepSwing_exposed _ _ _ _ _ Hrsi Hexposed). cbv zeta.
  set (ns := set_armedLongEntry false
               (set_armedShortEntry false (set_prevRsi (Some r) state))).
  split; [|split; [|split; [|split; [|split]]]].
  - destruct (isShort amt); [|destruct (isLong amt)]; [| |reflexivity].
    + now destruct (stepShort_entry_arms (prevRsi state) r p config ns) as [-> _].
    + now destruct (stepLong_entry_arms (prevRsi state) r p config ns) as [-> _].
  - destruct (isShort amt); [|destruct (isLong amt)]; [| |reflexivity].
    + now destruct (stepShort_entry_arms (prevRsi state) r p config ns) as [_ ->].
    + now destruct (stepLong_entry_arms (prevRsi state) r p config ns) as [_ ->].
  - intros d. rewrite (stepSwing_exposed _ _ _ _ _ Hrsi Hexposed). reflexivity.
  - intros ->. unfold stepShort, ns, actionTypes.
    pose proof (cross_exclusive (prevRsi state) r (rsiLow config)) as Hx.
    destruct state as [pr ase asx ale alx].
    cbn [prevRsi armedShortExit armedLongExit set_prevRsi set_armedShortEntry
         set_armedLongEntry set_armedShortExit set_armedLongExit] in *.
    destruct (crossDown pr r (rsiLow config));
      [rewrite (Hx eq_refl)|destruct (crossUp pr r (rsiLow config))];
      destruct asx, (0 <? p); cbn;
      repeat split; intros; try reflexivity; try discriminate;
      try tauto; try (now left);
      repeat match goal with
             | H : _ /\ _ |- _ => destruct H
             end; try discriminate.
  - intros Hlong. rewrite (isLong_not_short _ Hlong), Hlong.
    unfold stepLong, ns, actionTypes.
    pose proof (cross_exclusive (prevRsi state) r (rsiHigh config)) as Hx.
    destruct state as [pr ase asx ale alx].
    cbn [prevRsi armedShortExit armedLongExit set_prevRsi set_armedShortEntry
         set_armedLongEntry set_armedShortExit set_armedLongExit] in *.
    destruct (crossDown pr r (rsiHigh config));
      [rewrite (Hx eq_refl)|destruct (crossUp pr r (rsiHigh config))];
      destruct alx, (0 <? p); cbn;
      repeat split; intros; try reflexivity; try discriminate;
      try tauto; try (now left);
      repeat match goal with
             | H : _ /\ _ |- _ => destruct H
             end; try discriminate.
  - intros Hreach Harm ->.
    destruct (reachable_entry_arm_excludes_exit_arms state Hreach) as [Hse _].
    { now rewrite Harm. }
    change (isShort (-1)) with true. cbv iota.
    unfold stepShort, ns.
    destruct (crossDown (prevRsi state) r (rsiLow config)) eqn:Hd.
    + rewrite (cross_exclusive _ _ _ Hd). cbn. reflexivity.
    + cbn. rewrite Hse. reflexivity.
Qed.

(** The scenario of the test suite: short entry armed while flat (RSI 69
    then 71), then a short position of [-1] appears; and a short position
    held under direction [long]: the exit is armed on the cross below 30
    and fires on the cross back above 30 with a profit. *)
Lemma exits_ignore_direction_and_entry_arms_cleared_witness :
  let config := {| direction := long; rsiHigh := 70; rsiLow := 30 |} in
  let flat r := {| rsi := Some r; positionAmt := 0; pnl := 0 |} in
  let state :=
    fst (stepSwing (fst (stepSwing createInitialSwingState
                           (withDirection both config) (flat 69)))
           (withDirection both config) (flat 71)) in
  let input := {| rsi := Some 71; positionAmt := -1; pnl := 0 |} in
  let res := stepSwing state config input in
  let held := {| prevRsi := Some 31; armedShortEntry := false;
                 armedShortExit := false; armedLongEntry := false;
                 armedLongExit := false |} in
  let armed := stepSwing held config
                 {| rsi := Some 29; positionAmt := -1; pnl := 0.01 |} in
  let fired := stepSwing (fst armed) config
                 {| rsi := Some 31; positionAmt := -1; pnl := 0.01 |} in
  armedShortEntry state = true /\
  armedShortEntry (fst res) = false /\
  armedLongEntry (fst res) = false /\
  (forall d, stepSwing state (withDirection d config) input = res) /\
  snd res = [] /\
  (armedShortExit (fst armed) = true /\ snd armed = []) /\
  (snd fired = [closeShort] /\ armedShortExit (fst fired) = false).
Proof.
  cbv zeta.
  pose proof (exits_ignore_direction_and_entry_arms_cleared
    (fst (stepSwing (fst (stepSwing createInitialSwingState
       {| direction := both; rsiHigh := 70; rsiLow := 30 |}
       {| rsi := Some 69; positionAmt := 0; pnl := 0 |}))
       {| direction := both; rsiHigh := 70; rsiLow := 30 |}
       {| rsi := Some 71; positionAmt := 0; pnl := 0 |}))
    {| direction := long; rsiHigh := 70; rsiLow := 30 |}
    71 (-1) 0 eq_refl eq_refl) as (H1 & H2 & H3 & _ & _ & H4).
  pose proof (exits_ignore_direction_and_entry_arms_cleared
    {| prevRsi := Some 31; armedShortEntry := false;
       armedShortExit := false; armedLongEntry := false;
       armedLongExit := false |}
    {| direction := long; rsiHigh := 70; rsiLow := 30 |}
    29 (-1) 0.01 eq_refl eq_refl) as (_ & _ & _ & Harm & _).
  destruct (Harm eq_refl) as (Harmed & _).
  pose proof (exits_ignore_direction_and_entry_arms_cleared
    (fst (stepSwing
       {| prevRsi := Some 31; armedShortEntry := false;
          armedShortExit := false; armedLongEntry := false;
          armedLongExit := false |}
       {| direction := long; rsiHigh := 70; rsiLow := 30 |}
       {| rsi := Some 29; positionAmt := -1; pnl := 0.01 |}))
    {| direction := long; rsiHigh := 70; rsiLow := 30 |}
    31 (-1) 0.01 eq_refl eq_refl) as (_ & _ & _ & Hfire & _).
  destruct (Hfire eq_refl) as (_ & Hiff & Hclose & _).
  split; [reflexivity|].
  split; [exact H1|]. split; [exact H2|]. split; [exact H3|].
  split; [apply H4; [|reflexivity|reflexivity];
          apply reachable_step, reachable_step, reachable_init|].
  split; [exact (Harmed eq_refl)|].
  apply Hclose. apply Hiff. repeat split; reflexivity.
Defined.

End SwingLogicFacts.

(* ================================================================== *)
(** ** Properties of the swing engine *)
(* ================================================================== *)

Module SwingEngineFacts.

Import SwingEngine.
Local Open Scope string_scope.
Local Open Scope list_scope.
Local Open Scope float_scope.

(** A position that passes [hasPosition] is closed by [tryClose]. *)
Lemma tryClose_calls position reason oracle :
  hasPosition position = true ->
  let side := if isLongPosition position then SELL else BUY in
  let c := marketClose side (JS.abs (positionAmt position)) in
  exists type detail,
    tryClose position reason oracle = [call c; tradeLogPush type detail].
Proof.
  unfold hasPosition, tryClose, isLongPosition. intros H.
  rewrite (FloatOrder.ltb_not_geb _ _ H). cbv zeta.
  destruct (oracle _); eauto.
Qed.

(** C1, as the program has it.  For a position with
    [|positionAmt| > 1e-5]: when the entry price is finite with
    [|entryPrice| > 1e-8] and [handleStopLoss] runs with a finite
    reference price such that, with
    [stop = entryPrice * (1 -/+ max(0, stopLossPct))] and
    [tick = max(1e-9, priceTick)], [reference <= stop + tick] for a long
    (or [reference >= stop - tick] for a short), the only coordinator call
    is one reduce-only market close of the whole position (SELL for a long,
    BUY for a short), issued first; no stop order is placed, the engine is
    left unchanged, and the open orders are not even consulted.  When the
    entry price is not usable (not finite, or [|entryPrice| <= 1e-8], a
    finite non-zero price of that size included), [handleStopLoss] does
    nothing at all, whatever the reference price, the orders and the
    coordinator. *)
Theorem kill_switch_market_close
    (e : Engine) (position : PositionSnapshot) (reference : float)
    (now : Z) (oracle : Call -> Outcome)
    (Hposition : hasPosition position = true) :
  let side := if isLongPosition position then SELL else BUY in
  let c := marketClose side (JS.abs (positionAmt position)) in
  let out := handleStopLoss position (Some reference) now oracle e in
  let crossed :=
    if isLongPosition position
    then reference <=? stopPriceOf (config e) position + effectiveTick (config e)
    else stopPriceOf (config e) position - effectiveTick (config e)
           <=? reference in
  (hasEntryPrice position = true -> JS.isFinite reference = true ->
   crossed = true ->
   fst out = e /\
   (exists type detail, snd out = [call c; tradeLogPush type detail]) /\
   filter isCall (snd out) = [call c] /\
   (forall e', config e' = config e ->
      snd (handleStopLoss position (Some reference) now oracle e') = snd out)) /\
  (hasEntryPrice position = false ->
   forall price, handleStopLoss position price now oracle e = (e, [])) /\
  (hasEntryPrice position = false <->
   JS.isFinite (entryPrice position) = false \/
   (1e-8 <? JS.abs (entryPrice position)) = false) /\
  ((JS.abs (entryPrice position) <=? 1e-8) = true ->
   hasEntryPrice position = false).
Proof.
  cbv zeta. split; [|split; [|split]].
  - intros Hentry Hfinite Hcrossed.
    assert (Hkill : forall e', config e' = config e ->
              handleStopLoss position (Some reference) now oracle e'
              = (e', tryClose position "Stop-loss kill-switch" oracle)).
    { intros e' Hc. unfold handleStopLoss.
      rewrite Hposition, Hentry. cbn [negb].
      unfold triggerKill. rewrite Hc, Hfinite.
      destruct (isLongPosition position); rewrite Hcrossed; reflexivity. }
    rewrite (Hkill e eq_refl). cbn [fst snd].
    destruct (tryClose_calls position "Stop-loss kill-switch" oracle Hposition)
      as (type & detail & Hclose).
    split; [reflexivity|]. split; [eauto|].
    split; [rewrite Hclose; reflexivity|].
    intros e' He'. rewrite (Hkill e' He'). reflexivity.
  - intros Hentry price. unfold handleStopLoss.
    rewrite Hposition, Hentry. reflexivity.
  - unfold hasEntryPrice. apply andb_false_iff.
  - intros Hsmall. unfold hasEntryPrice.
    rewrite (FloatOrder.leb_not_gtb _ _ Hsmall). apply andb_false_r.
Qed.

(** The scenario of the specification: long, entry 100, stop-loss 5%,
    tick 0.1, reference price 95.05; and the same position entered at
    [5e-9], which gets no handling. *)
Lemma kill_switch_market_close_witness :
  let out :=
    handleStopLoss (demoLong 100) (Some 95.05) 0 (fun _ => resolved) demoEngine in
  (fst out = demoEngine /\
   (exists type detail,
      snd out = [call (marketClose SELL 1); tradeLogPush type detail]) /\
   filter isCall (snd out) = [call (marketClose SELL 1)] /\
   (forall e', config e' = config demoEngine ->
      snd (handleStopLoss (demoLong 100) (Some 95.05) 0 (fun _ => resolved) e')
      = snd out)) /\
  handleStopLoss (demoLong 5e-9) (Some 4e-9) 0 (fun _ => resolved) demoEngine
  = (demoEngine, []).
Proof.
  cbv zeta. split.
  - destruct (kill_switch_market_close demoEngine (demoLong 100) 95.05 0
                (fun _ => resolved) eq_refl) as (Hkill & _).
    exact (Hkill eq_refl eq_refl eq_refl).
  - destruct (kill_switch_market_close demoEngine (demoLong 5e-9) 4e-9 0
                (fun _ => resolved) eq_refl) as (_ & Hnone & _ & Hsmall).
    exact (Hnone (Hsmall eq_refl) (Some 4e-9)).
Defined.

(** C1 as stated fails for a finite, non-zero entry price that does not
    exceed [1e-8]: a long position entered at [5e-9] with the reference
    price [4e-9] below the stop price gets no market close. *)
Lemma kill_switch_tiny_entry_price_counterexample :
  let c := {| symbol := "BTCUSDT"; direction := SwingLogic.long;
              tradeAmount := 1; rsiHigh := 70; rsiLow := 30;
              stopLossPct := 0.05; maxCloseSlippagePct := 0.05;
              priceTick := 1e-10; qtyStep := 1 |} in
  let e := set_config c demoEngine in
  let position := demoLong 5e-9 in
  let reference := 4e-9 in
  hasPosition position = true /\
  JS.isFinite (entryPrice position) = true /\
  (entryPrice position =? 0) = false /\
  JS.isFinite reference = true /\
  isLongPosition position = true /\
  (reference <=? stopPriceOf c position + priceTick c) = true /\
  (reference <=? stopPriceOf c position + effectiveTick c) = true /\
  handleStopLoss position (Some reference) 0 (fun _ => resolved) e = (e, []).
Proof. cbv zeta. repeat split; reflexivity. Qed.

Section SpotGuard.

Variable getPosition : option AsterAccountSnapshot -> string -> PositionSnapshot.
Variable getTopPrices : option AsterDepth -> option float * option float.
Variable computePositionPnl : PositionSnapshot -> float -> float -> float.
Variable getMidOrLast : option AsterDepth -> option AsterTicker -> option float.
Variable isOrderActiveStatus : string -> bool.

Local Abbreviation onAccount := (onAccount getPosition getMidOrLast).
Local Abbreviation tick :=
  (tick getPosition getTopPrices computePositionPnl getMidOrLast).
Local Abbreviation apply :=
  (apply getPosition getTopPrices computePositionPnl getMidOrLast
         isOrderActiveStatus).
Local Abbreviation applyAll :=
  (applyAll getPosition getTopPrices computePositionPnl getMidOrLast
            isOrderActiveStatus).

(** A disabled engine is not changed by a tick, whose only possible
    effects are the snapshot emission and the rate limiter's cycle end. *)
Lemma tick_disabled decision oracle now e :
  disabled e = true ->
  tick decision oracle now e =
  (e, if processing e then []
      else match decision with
           | skip => [onCycleComplete false]
           | run | paused => [emitUpdate; onCycleComplete false]
           end).
Proof.
  intros Hd. unfold SwingEngine.tick. rewrite Hd.
  destruct (processing e), decision; reflexivity.
Qed.

Lemma onAccount_disabled snapshot e :
  disabled e = true -> disabled (fst (onAccount snapshot e)) = true.
Proof.
  intros Hd. unfold SwingEngine.onAccount.
  cbn [disabled set_accountSnapshot].
  rewrite Hd. cbn [negb].
  destruct (_ && _); exact Hd.
Qed.

(** No operation clears [disabled]. *)
Lemma apply_disabled op e :
  disabled e = true -> disabled (fst (apply op e)) = true.
Proof.
  intros Hd. destruct op; cbn [SwingEngine.apply].
  - unfold start. destruct (timer e); exact Hd.
  - unfold stop. destruct (timer e); exact Hd.
  - now apply onAccount_disabled.
  - exact Hd.
  - exact Hd.
  - exact Hd.
  - exact Hd.
  - unfold onPrecision. destruct precision as [[tick step]|]; exact Hd.
  - rewrite (tick_disabled _ _ _ _ Hd). exact Hd.
Qed.

Lemma applyAll_disabled ops e :
  disabled e = true -> disabled (applyAll ops e) = true.
Proof.
  revert e. induction ops as [|op ops IH]; intros e Hd; [exact Hd|].
  cbn [SwingEngine.applyAll]. apply IH. now apply apply_disabled.
Qed.

(** C8, as the program has it.  An account snapshot with market type
    [spot], received while the direction is [short] or [both], leaves the
    engine disabled, and when it was not disabled yet it sets [lastError]
    and pushes an error entry to the trade log.  After that, whatever
    operations follow, [disabled] stays set, and a later tick changes
    nothing in the engine (the swing state machine is not stepped), makes no
    coordinator call, and emits a snapshot unless another tick is still
    being processed or the rate limiter answers [skip]. *)
Theorem spot_guard_disables_for_good
    (snapshot : AsterAccountSnapshot) (e : Engine) (ops : list Operation)
    (decision : Decision) (oracle : Call -> Outcome) (now : Z)
    (Hspot : marketType snapshot = "spot")
    (Hshort : shortingConfigured (config e) = true) :
  let e1 := fst (onAccount snapshot e) in
  let e2 := applyAll ops e1 in
  let out := tick decision oracle now e2 in
  disabled e1 = true /\
  (disabled e = false ->
     lastError e1 = Some spotError /\
     In (tradeLogPush "error" spotError) (snd (onAccount snapshot e))) /\
  disabled e2 = true /\
  fst out = e2 /\
  filter isCall (snd out) = [] /\
  (processing e2 = false -> decision <> skip -> In emitUpdate (snd out)) /\
  (processing e2 = true \/ decision = skip -> ~ In emitUpdate (snd out)).
Proof.
  cbv zeta.
  assert (H1 : disabled (fst (onAccount snapshot e)) = true).
  { unfold SwingEngine.onAccount. rewrite Hspot.
    cbn [config set_accountSnapshot disabled]. rewrite Hshort.
    change (String.eqb "spot" "spot" && true) with true. cbv iota.
    destruct (disabled e) eqn:Hd; cbn [negb fst disabled set_disabled];
      [exact Hd | reflexivity]. }
  pose proof (applyAll_disabled ops _ H1) as H2.
  rewrite (tick_disabled decision oracle now _ H2). cbn [fst snd].
  split; [exact H1|]. split.
  { intros Hd. unfold SwingEngine.onAccount. rewrite Hspot.
    cbn [config set_accountSnapshot disabled]. rewrite Hshort, Hd.
    change (String.eqb "spot" "spot" && true) with true.
    cbn. auto. }
  split; [exact H2|]. split; [reflexivity|].
  split; [destruct (processing _), decision; reflexivity|].
  split.
  - intros -> Hskip. destruct decision; cbn; auto; congruence.
  - intros [-> | ->]; [cbn; tauto|].
    destruct (processing _); cbn; [tauto|]. intros [H|[]]. discriminate.
Qed.

End SpotGuard.

(** A spot account on the default short-only configuration, followed by a
    ticker update, a start and a tick. *)
Lemma spot_guard_disables_for_good_witness :
  let onAccount := onAccount demoGetPosition demoGetMidOrLast in
  let applyAll :=
    applyAll demoGetPosition demoGetTopPrices demoComputePositionPnl
      demoGetMidOrLast demoIsOrderActiveStatus in
  let ops := [opTicker {| lastPrice := 100 |}; opStart] in
  let e1 := fst (onAccount spotSnapshot demoEngine) in
  let e2 := applyAll ops e1 in
  let out := demoTick run (fun _ => resolved) 0%Z e2 in
  disabled e1 = true /\
  (disabled demoEngine = false ->
     lastError e1 = Some spotError /\
     In (tradeLogPush "error" spotError) (snd (onAccount spotSnapshot demoEngine))) /\
  disabled e2 = true /\
  fst out = e2 /\
  filter isCall (snd out) = [] /\
  (processing e2 = false -> run <> skip -> In emitUpdate (snd out)) /\
  (processing e2 = true \/ run = skip -> ~ In emitUpdate (snd out)).
Proof.
  exact (spot_guard_disables_for_good demoGetPosition demoGetTopPrices
           demoComputePositionPnl demoGetMidOrLast demoIsOrderActiveStatus
           spotSnapshot demoEngine [opTicker {| lastPrice := 100 |}; opStart]
           run (fun _ => resolved) 0%Z eq_refl eq_refl).
Defined.

(** C8 as stated fails on "every subsequent tick returns after emitting a
    snapshot": on a disabled engine a tick for which the rate limiter
    answers [skip] returns without emitting, and so does a tick that finds
    another one in progress. *)
Lemma spot_guard_skipped_tick_counterexample :
  let onAccount := onAccount demoGetPosition demoGetMidOrLast in
  let e1 := fst (onAccount spotSnapshot demoEngine) in
  disabled e1 = true /\
  demoTick skip (fun _ => resolved) 0%Z e1 = (e1, [onCycleComplete false]) /\
  ~ In emitUpdate (snd (demoTick skip (fun _ => resolved) 0%Z e1)).
Proof.
  cbv zeta. split; [reflexivity|]. split; [reflexivity|].
  cbn. intros [H|[]]. discriminate.
Qed.

End SwingEngineFacts.

(* ================================================================== *)
(** ** Properties of the depth tracker *)
(* ================================================================== *)

Module BinanceDepthFacts.

Import BinanceDepth.
Local Open Scope string_scope.
Local Open Scope list_scope.
Local Open Scope float_scope.

(** C10. On a tracker that is not started, [getHealth] answers
    [healthy = true], [reason = null], [connected = false],
    [orderBookReady = false] and [restHealthy = true], whatever the rest of
    the state (REST failures, staleness, connection state); this is the case
    after [stop()]; and an answer with [healthy = false] can only come from a
    started tracker. *)
Theorem getHealth_not_started (now : Z) (t : Tracker) :
  let idle (h : Health.BinanceDepthHealth) :=
    Health.healthy h = true /\ Health.reason h = None /\
    Health.connected h = false /\ Health.orderBookReady h = false /\
    Health.restHealthy h = true /\ Health.started h = false in
  (started t = false -> idle (getHealth now t)) /\
  idle (getHealth now (stop t)) /\
  (Health.healthy (getHealth now t) = false -> started t = true).
Proof.
  cbv zeta. split; [|split].
  - intros H. unfold getHealth. rewrite H. cbn. tauto.
  - unfold getHealth. cbn. tauto.
  - unfold getHealth. destruct (started t); [reflexivity|].
    cbn. discriminate.
Qed.

Lemma getHealth_not_started_witness :
  let h := getHealth 1000000 neglected in
  Health.healthy h = true /\ Health.reason h = None /\
  Health.connected h = false /\ Health.orderBookReady h = false /\
  Health.restHealthy h = true /\ Health.started h = false.
Proof.
  exact (proj1 (getHealth_not_started 1000000 neglected) eq_refl).
Defined.

Section Sequencing.

Variable Number : string -> float.

Local Abbreviation applyLevels := (applyLevels Number).
Local Abbreviation applyDepthEvent := (applyDepthEvent Number).
Local Abbreviation handlePayload := (handlePayload Number).
Local Abbreviation updated := (updated Number).

Lemma applyDepthEvent_applied event t :
  (localLastUpdateId t <> 0 /\ U event <= localLastUpdateId t + 1 /\
   localLastUpdateId t <= u event)%Z ->
  applyDepthEvent event t = (updated event t, true).
Proof.
  intros (H0 & H1 & H2). unfold BinanceDepth.applyDepthEvent, updated.
  destruct (Z.eqb_spec (localLastUpdateId t) 0); [lia|].
  destruct (Z.ltb_spec (u event) (localLastUpdateId t)); [lia|].
  destruct (Z.ltb_spec (localLastUpdateId t + 1) (U event)); [lia|].
  reflexivity.
Qed.

Lemma applyDepthEvent_ignored event t :
  (localLastUpdateId t <> 0 /\ u event < localLastUpdateId t)%Z ->
  applyDepthEvent event t = (t, true).
Proof.
  intros (H0 & H1). unfold BinanceDepth.applyDepthEvent.
  destruct (Z.eqb_spec (localLastUpdateId t) 0); [lia|].
  destruct (Z.ltb_spec (u event) (localLastUpdateId t)); [reflexivity|lia].
Qed.

Lemma applyDepthEvent_gap event t :
  (localLastUpdateId t = 0 \/
   (localLastUpdateId t + 1 < U event /\ localLastUpdateId t <= u event))%Z ->
  applyDepthEvent event t = (t, false).
Proof.
  unfold BinanceDepth.applyDepthEvent.
  destruct (Z.eqb_spec (localLastUpdateId t) 0); [reflexivity|].
  destruct (Z.ltb_spec (u event) (localLastUpdateId t)); [lia|].
  destruct (Z.ltb_spec (localLastUpdateId t + 1) (U event)); [reflexivity|lia].
Qed.

(** The verdict of the tests on doubles, for ids that are integers
    [0 <= id <= 2^53 - 1] with [local + 1] in that range too. *)
Lemma sequencingOf_safe (local firstId lastId : Z) :
  (0 <= local < MAX_SAFE_INTEGER)%Z ->
  (0 <= firstId <= MAX_SAFE_INTEGER)%Z ->
  (0 <= lastId <= MAX_SAFE_INTEGER)%Z ->
  sequencingOf (idNumber local) (idNumber firstId) (idNumber lastId)
  = if (local =? 0)%Z then seqGap
    else if (lastId <? local)%Z then seqIgnored
    else if (local + 1 <? firstId)%Z then seqGap
    else seqApplied.
Proof.
  unfold MAX_SAFE_INTEGER. intros Hl HU Hu.
  assert (P : (2 ^ 53 = 9007199254740992)%Z) by reflexivity.
  unfold sequencingOf, falsy.
  change 0 with (idNumber 0).
  rewrite SafeIntegerFacts.idNumber_eqb, SafeIntegerFacts.idNumber_not_nan,
    SafeIntegerFacts.idNumber_ltb, SafeIntegerFacts.idNumber_succ,
    SafeIntegerFacts.idNumber_ltb by lia.
  now rewrite orb_false_r.
Qed.

(** C2, as the program has it.  With [local = localLastUpdateId]:
    an event is applied (levels written, [local := u]) exactly when
    [local <> 0], [U <= local + 1] and [local <= u]; an event with
    [u < local] (and [local <> 0]) is ignored, leaving the book and
    [local] unchanged; every other case ([local = 0], or [U > local + 1]
    with [u >= local]) is a sequence gap.  For ids that are integers from
    0 to [2^53 - 1] this is what the three tests of the source decide on
    the doubles that hold them; on arbitrary doubles the tests are [!local],
    [u < local] and [U > local + 1] in double arithmetic.  On a gap on a
    ready book, [handlePayload] marks the book not ready, keeps the event
    as the only buffered one, leaves the book and [local] as they are,
    publishes nothing and calls [ensureSynced]: a bootstrap starts when no
    sync is in flight and the tracker is started and not stopped; a sync
    already in flight is left to run, and a tracker that is stopped or not
    started starts none. *)
Theorem applyDepthEvent_semantics (event : DepthUpdateEvent) (t : Tracker) (now : Z) :
  let local := localLastUpdateId t in
  let out := applyDepthEvent event t in
  let isApplied := (local <> 0 /\ U event <= local + 1 /\ local <= u event)%Z in
  let isIgnored := (local <> 0 /\ u event < local)%Z in
  let isGap := (local = 0 \/ (local + 1 < U event /\ local <= u event))%Z in
  let verdict :=
    sequencingOf (idNumber local) (idNumber (U event)) (idNumber (u event)) in
  (isApplied \/ isIgnored \/ isGap) /\
  (isApplied -> out = (updated event t, true)) /\
  (isIgnored -> out = (t, true)) /\
  (isGap -> out = (t, false)) /\
  ((0 <= local < MAX_SAFE_INTEGER)%Z ->
   (0 <= U event <= MAX_SAFE_INTEGER)%Z ->
   (0 <= u event <= MAX_SAFE_INTEGER)%Z ->
   (verdict = seqApplied <-> isApplied) /\
   (verdict = seqIgnored <-> isIgnored) /\
   (verdict = seqGap <-> isGap) /\
   out = match verdict with
         | seqApplied => (updated event t, true)
         | seqIgnored => (t, true)
         | seqGap => (t, false)
         end) /\
  (forall l firstId lastId : float,
     (sequencingOf l firstId lastId = seqApplied <->
      falsy l = false /\ (lastId <? l) = false /\
      (l + 1 <? firstId) = false) /\
     (sequencingOf l firstId lastId = seqIgnored <->
      falsy l = false /\ (lastId <? l) = true) /\
     (sequencingOf l firstId lastId = seqGap <->
      falsy l = true \/
      ((lastId <? l) = false /\ (l + 1 <? firstId) = true))) /\
  (isGap -> orderBookReady t = true ->
     let t' := set_eventBuffer [event] (set_orderBookReady false t) in
     handlePayload (Some event) now t = (ensureSynced t', []) /\
     orderBookReady (ensureSynced t') = false /\
     eventBuffer (ensureSynced t') = [event] /\
     bidBook (ensureSynced t') = bidBook t /\
     askBook (ensureSynced t') = askBook t /\
     localLastUpdateId (ensureSynced t') = local /\
     (syncInFlight t = None -> started t = true -> stopped t = false ->
      syncInFlight (ensureSynced t') = Some (bootstrapping 0 event)) /\
     (forall task, syncInFlight t = Some task ->
                   syncInFlight (ensureSynced t') = Some task) /\
     (stopped t = true \/ started t = false ->
      syncInFlight (ensureSynced t') = syncInFlight t)).
Proof.
  cbv zeta.
  pose proof (applyDepthEvent_gap event t) as Hgap.
  pose proof (applyDepthEvent_applied event t) as Happlied.
  pose proof (applyDepthEvent_ignored event t) as Hignored.
  split; [lia|]. split; [exact Happlied|]. split; [exact Hignored|].
  split; [exact Hgap|]. split; [|split].
  - intros Hl HU Hu. rewrite (sequencingOf_safe _ _ _ Hl HU Hu).
    destruct (Z.eqb_spec (localLastUpdateId t) 0) as [E0|N0].
    { repeat split; intros; try discriminate; try lia; auto. }
    destruct (Z.ltb_spec (u event) (localLastUpdateId t)).
    { repeat split; intros; try discriminate; try lia; auto. }
    destruct (Z.ltb_spec (localLastUpdateId t + 1) (U event)).
    { repeat split; intros; try discriminate; try lia; auto. }
    repeat split; intros; try discriminate; try lia; auto.
  - intros l firstId lastId. unfold sequencingOf.
    destruct (falsy l), (lastId <? l), (l + 1 <? firstId);
      repeat split; intros; try discriminate; try reflexivity;
      try (now left); try (right; split; reflexivity);
      repeat match goal with
             | H : _ /\ _ |- _ => destruct H
             | H : _ \/ _ |- _ => destruct H
             end; try discriminate.
  - intros Hg Hready.
    unfold BinanceDepth.handlePayload. rewrite Hready. cbn [negb].
    rewrite (Hgap Hg). cbn [negb].
    split; [reflexivity|].
    unfold ensureSynced.
    cbn [syncInFlight set_eventBuffer set_orderBookReady stopped started
         orderBookReady eventBuffer negb].
    destruct (syncInFlight t) eqn:Hs.
    + cbn [orderBookReady eventBuffer bidBook askBook localLastUpdateId
           syncInFlight set_eventBuffer set_orderBookReady].
      rewrite Hs.
      repeat split; try reflexivity; try discriminate; auto.
    + destruct (stopped t) eqn:Hst, (started t) eqn:Hsd;
        cbn [orb negb orderBookReady eventBuffer bidBook askBook
             localLastUpdateId syncInFlight set_eventBuffer
             set_orderBookReady set_syncInFlight];
        rewrite ?Hs;
        repeat split; try reflexivity; intros; try congruence;
        try discriminate;
        match goal with
        | H : _ \/ _ |- _ => destruct H; discriminate
        end.
Qed.

End Sequencing.

Lemma bootstrapped_reachable : reachable JS.decimalNumber bootstrapped.
Proof.
  unfold bootstrapped. cbn [applyAll].
  repeat apply reachable_apply. apply reachable_create.
Qed.

(** The bootstrap scenario of the specification: events [(5, 7)],
    [(8, 9)], [(10, 11)] buffered, snapshot at 8. *)
Example depth_bootstrap_scenario :
  let e U u := opMessage (Some {| U := U; u := u; bids := []; asks := [] |}) in
  let t :=
    applyAll JS.decimalNumber
      [opStart; opOpen 0; e 5%Z 7%Z 1%Z; e 8%Z 9%Z 2%Z; e 10%Z 11%Z 3%Z;
       opFetchCompleted (fetchBody snapshot_8) 4]
      (create "BTCUSDT" None None) in
  orderBookReady t = true /\ localLastUpdateId t = 11%Z /\
  eventBuffer t = [] /\ syncInFlight t = None.
Proof. vm_compute. repeat split. Qed.

(** The gap scenario: [local = 8] and the event [(U = 110, u = 120)]. *)
Lemma applyDepthEvent_semantics_witness :
  let event := {| U := 110; u := 120; bids := []; asks := [] |} in
  let t' := set_eventBuffer [event] (set_orderBookReady false bootstrapped) in
  localLastUpdateId bootstrapped = 8%Z /\
  sequencingOf (idNumber 8) (idNumber 110) (idNumber 120) = seqGap /\
  applyDepthEvent JS.decimalNumber event bootstrapped = (bootstrapped, false) /\
  handlePayload JS.decimalNumber (Some event) 3 bootstrapped
    = (ensureSynced t', []) /\
  orderBookReady (ensureSynced t') = false /\
  eventBuffer (ensureSynced t') = [event] /\
  bidBook (ensureSynced t') = bidBook bootstrapped /\
  syncInFlight (ensureSynced t') = Some (bootstrapping 0 event).
Proof.
  cbv zeta.
  pose proof (applyDepthEvent_semantics JS.decimalNumber
                {| U := 110; u := 120; bids := []; asks := [] |}
                bootstrapped 3) as (_ & _ & _ & Hgap & Hsafe & _ & Hresync).
  assert (Hg : (localLastUpdateId bootstrapped = 0 \/
                (localLastUpdateId bootstrapped + 1 < 110 /\
                 localLastUpdateId bootstrapped <= 120))%Z)
    by (right; split; [reflexivity | discriminate]).
  split; [reflexivity|].
  split.
  { destruct Hsafe as (_ & _ & Hverdict & _);
      [split; [discriminate|reflexivity]
      |split; discriminate|split; discriminate|].
    apply Hverdict. exact Hg. }
  split; [exact (Hgap Hg)|].
  destruct (Hresync Hg eq_refl) as (H1 & H2 & H3 & H4 & _ & _ & H5 & _).
  split; [exact H1|]. split; [exact H2|]. split; [exact H3|].
  split; [exact H4|].
  exact (H5 eq_refl eq_refl eq_refl).
Defined.

(** Beyond [2^53] the doubles round: at [local = 2^53 + 2] the sum
    [local + 1] is [2^53 + 4], so an event starting at [2^53 + 4] passes
    the test [U > local + 1] of the source although two ids are missing.
    Such ids are outside the range of the statements above. *)
Example sequencing_beyond_safe_integers :
  (9007199254740994 + 1 =? 9007199254740996) = true /\
  sequencingOf 9007199254740994 9007199254740996 9007199254740998
  = seqApplied.
Proof. repeat split; reflexivity. Qed.

(** C2 as stated fails on an event with [u = local]: it is a duplicate in
    the sense of the claim ([u <= local]) and [local + 1 <= u] does not
    hold, yet its levels are written to the book.  It also fails for
    [local = 0], where an event with [U <= 1 <= u] is refused. *)
Lemma duplicate_event_applied_counterexample :
  let event := {| U := 8; u := 8; bids := [("100", "5")]; asks := [] |} in
  let out := applyDepthEvent JS.decimalNumber event bootstrapped in
  let fresh := create "BTCUSDT" None None in
  let first := {| U := 1; u := 1; bids := []; asks := [] |} in
  orderBookReady bootstrapped = true /\
  (u event <= localLastUpdateId bootstrapped)%Z /\
  ~ (localLastUpdateId bootstrapped + 1 <= u event)%Z /\
  snd out = true /\
  bidBook bootstrapped = [("100", 1)] /\
  bidBook (fst out) = [("100", 5)] /\
  (U first <= localLastUpdateId fresh + 1 <= u first)%Z /\
  applyDepthEvent JS.decimalNumber first fresh = (fresh, false).
Proof.
  cbv zeta. repeat split; try reflexivity; try discriminate.
  intros H. apply H. reflexivity.
Qed.

Section Monotonicity.

Variable Number : string -> float.

Local Abbreviation applyDepthEvent := (applyDepthEvent Number).
Local Abbreviation applyBuffered := (applyBuffered Number).
Local Abbreviation emitDepthSnapshot := (emitDepthSnapshot Number).
Local Abbreviation handlePayload := (handlePayload Number).
Local Abbreviation handleMessage := (handleMessage Number).
Local Abbreviation onFetchCompleted := (onFetchCompleted Number).
Local Abbreviation resetOrderBook := (resetOrderBook Number).
Local Abbreviation apply := (apply Number).
Local Abbreviation receive := (receive Number).

Ltac break_match :=
  match goal with
  | |- context [match ?x with _ => _ end] => destruct x eqn:?
  end.

Lemma applyDepthEvent_local event t :
  (localLastUpdateId t <= localLastUpdateId (fst (applyDepthEvent event t)))%Z.
Proof.
  unfold BinanceDepth.applyDepthEvent.
  destruct (Z.eqb_spec (localLastUpdateId t) 0); [cbn; lia|].
  destruct (Z.ltb_spec (u event) (localLastUpdateId t)); [cbn; lia|].
  destruct (Z.ltb_spec (localLastUpdateId t + 1) (U event)); cbn; lia.
Qed.

Lemma applyBuffered_local es t :
  (localLastUpdateId t <= localLastUpdateId (fst (applyBuffered es t)))%Z.
Proof.
  revert t. induction es as [|event es IH]; intros t; cbn; [lia|].
  pose proof (applyDepthEvent_local event t) as H.
  destruct (applyDepthEvent event t) as [t1 applied]. cbn in H.
  destruct applied; cbn; [|lia].
  specialize (IH t1). lia.
Qed.

Lemma emitDepthSnapshot_local now t :
  localLastUpdateId (fst (emitDepthSnapshot now t)) = localLastUpdateId t.
Proof.
  unfold BinanceDepth.emitDepthSnapshot. repeat break_match; reflexivity.
Qed.

Lemma ensureSynced_local t :
  localLastUpdateId (ensureSynced t) = localLastUpdateId t.
Proof. unfold ensureSynced. repeat break_match; reflexivity. Qed.

Lemma handlePayload_local parsed now t :
  (localLastUpdateId t <= localLastUpdateId (fst (handlePayload parsed now t)))%Z.
Proof.
  unfold BinanceDepth.handlePayload.
  destruct parsed as [event|]; [|cbn; lia].
  destruct (orderBookReady t); cbn [negb].
  - pose proof (applyDepthEvent_local event t) as H.
    destruct (applyDepthEvent event t) as [t1 applied]. cbn in H.
    destruct applied; cbn [negb].
    + now rewrite emitDepthSnapshot_local.
    + cbn [fst]. now rewrite ensureSynced_local.
  - cbn [fst]. rewrite ensureSynced_local. cbn. lia.
Qed.

Lemma apply_local op t :
  outsideBootstrap op t ->
  (localLastUpdateId t <= localLastUpdateId (fst (apply op t)))%Z.
Proof.
  destruct op; cbn [BinanceDepth.apply fst]; intros Hout.
  - unfold start, connect. repeat break_match; cbn; lia.
  - cbn. lia.
  - cbn. lia.
  - unfold handleClose, scheduleReconnect. repeat break_match; cbn; lia.
  - unfold handleError, scheduleReconnect. repeat break_match; cbn; lia.
  - cbn. lia.
  - unfold BinanceDepth.handleMessage.
    match goal with
    | |- (_ <= localLastUpdateId (fst (handlePayload _ _ ?t1)))%Z =>
      pose proof (handlePayload_local parsed now t1) as H;
      assert (E : localLastUpdateId t1 = localLastUpdateId t)
        by (cbn [connectionState set_lastEventAt set_lastMessageTime];
            destruct (connectionState t); reflexivity)
    end.
    lia.
  - unfold onHeartbeat, forceReconnect, scheduleReconnect.
    repeat break_match; cbn; lia.
  - unfold onMaxDuration, forceReconnect, scheduleReconnect.
    repeat break_match; cbn; lia.
  - unfold onReconnectTimer, connect. repeat break_match; cbn; lia.
  - unfold onRefreshTimer. break_match; [lia|].
    rewrite ensureSynced_local. lia.
  - unfold outsideBootstrap in Hout.
    unfold BinanceDepth.onFetchCompleted.
    destruct (syncInFlight t) as [[attempt firstBuffered|]|];
      [contradiction| |cbn; lia].
    unfold fetchDepthSnapshot.
    destruct result as [message|json]; [cbn; lia|].
    destruct (Z.leb_spec (Rest.lastUpdateId json) 0); [cbn; lia|].
    cbn [localLastUpdateId set_restLastError set_restConsecutiveFailures
         set_lastRestSyncAt].
    destruct (Z.ltb_spec (Rest.lastUpdateId json) (localLastUpdateId t));
      [cbn; lia|].
    match goal with
    | |- context [emitDepthSnapshot now ?t1] =>
      pose proof (emitDepthSnapshot_local now t1) as He;
      destruct (emitDepthSnapshot now t1) as [t2 out]
    end.
    cbn in He |- *. lia.
Qed.

Lemma retryBootstrap_local attempt t :
  localLastUpdateId (retryBootstrap attempt t) = localLastUpdateId t.
Proof. unfold retryBootstrap. repeat break_match; reflexivity. Qed.

(** What a completed bootstrap fetch does to [localLastUpdateId]: nothing,
    or the snapshot was accepted and the identifier is at least the
    snapshot's, itself at least the first buffered [U]. *)
Lemma bootstrap_local result now attempt firstBuffered t :
  syncInFlight t = Some (bootstrapping attempt firstBuffered) ->
  let t' := fst (onFetchCompleted result now t) in
  localLastUpdateId t' = localLastUpdateId t \/
  exists s, result = fetchBody s /\
            (U firstBuffered <= Rest.lastUpdateId s <= localLastUpdateId t')%Z.
Proof.
  intros Htask. cbv zeta. unfold BinanceDepth.onFetchCompleted. rewrite Htask.
  unfold fetchDepthSnapshot.
  destruct result as [message|json]; [left; reflexivity|].
  destruct (Z.leb_spec (Rest.lastUpdateId json) 0); [left; reflexivity|].
  destruct (Z.ltb_spec (Rest.lastUpdateId json) (U firstBuffered)).
  { left. cbn [fst]. now rewrite retryBootstrap_local. }
  right. exists json. split; [reflexivity|]. split; [assumption|].
  set (t1 := resetOrderBook json now _).
  assert (H1 : localLastUpdateId t1 = Rest.lastUpdateId json) by reflexivity.
  destruct (filter _ (eventBuffer t1)) as [|nextEvent rest] eqn:Hbuf.
  - match goal with
    | |- context [emitDepthSnapshot now ?t2] =>
      pose proof (emitDepthSnapshot_local now t2) as He;
      destruct (emitDepthSnapshot now t2) as [t3 out]
    end.
    cbn in He |- *. lia.
  - destruct (_ || _).
    { cbn [fst]. rewrite retryBootstrap_local. lia. }
    pose proof (applyBuffered_local (nextEvent :: rest) t1) as Hb.
    destruct (applyBuffered (nextEvent :: rest) t1) as [t2 ok].
    cbn [fst] in Hb.
    destruct ok.
    + match goal with
      | |- context [emitDepthSnapshot now ?t3] =>
        pose proof (emitDepthSnapshot_local now t3) as He;
        destruct (emitDepthSnapshot now t3) as [t4 out]
      end.
      cbn in He |- *. lia.
    + cbn [fst]. rewrite retryBootstrap_local. lia.
Qed.

Lemma applyBuffered_sequence events last t :
  appliedInSequence (localLastUpdateId t) (events ++ [last]) ->
  snd (applyBuffered (events ++ [last]) t) = true /\
  localLastUpdateId (fst (applyBuffered (events ++ [last]) t)) = u last.
Proof.
  revert t. induction events as [|event events IH]; intros t [Hap Hrest];
    cbn [app BinanceDepth.applyBuffered];
    rewrite (applyDepthEvent_applied Number _ _ Hap).
  - cbn. auto.
  - apply IH. exact Hrest.
Qed.

Lemma emitDepthSnapshot_ready now t :
  orderBookReady (fst (emitDepthSnapshot now t)) = orderBookReady t.
Proof.
  unfold BinanceDepth.emitDepthSnapshot. repeat break_match; reflexivity.
Qed.

Lemma receive_sequence events last now t :
  orderBookReady t = true ->
  appliedInSequence (localLastUpdateId t) (events ++ [last]) ->
  orderBookReady (receive (events ++ [last]) now t) = true /\
  localLastUpdateId (receive (events ++ [last]) now t) = u last.
Proof.
  assert (Hstep : forall event t,
    orderBookReady t = true ->
    (localLastUpdateId t <> 0 /\ U event <= localLastUpdateId t + 1 /\
     localLastUpdateId t <= u event)%Z ->
    orderBookReady (fst (handlePayload (Some event) now t)) = true /\
    localLastUpdateId (fst (handlePayload (Some event) now t)) = u event).
  { intros event t0 Hready Hap. unfold BinanceDepth.handlePayload.
    rewrite Hready. cbn [negb]. rewrite (applyDepthEvent_applied Number _ _ Hap).
    cbn [negb]. rewrite emitDepthSnapshot_ready, emitDepthSnapshot_local.
    split; [exact Hready | reflexivity]. }
  revert t. induction events as [|event events IH]; intros t Hready [Hap Hrest];
    cbn [app receive]; destruct (Hstep _ _ Hready Hap) as [Hr Hl].
  - auto.
  - apply IH; [exact Hr|]. now rewrite Hl.
Qed.

(** C6, as the program has it.  [localLastUpdateId] never decreases under
    an operation of the tracker (socket events, timers, live diff events,
    the completion of a periodic-refresh fetch), with one exception: the
    completion of a bootstrap fetch, which either leaves it alone or sets
    it from the accepted snapshot, to a value that is at least the
    snapshot's [lastUpdateId] and so at least the first buffered [U].  And
    after a gap-free run of applied events, buffered or live, it is the
    [u] of the last one. *)
Theorem localLastUpdateId_monotone_outside_bootstrap
    (op : Operation) (t : Tracker)
    (events : list DepthUpdateEvent) (last : DepthUpdateEvent) (now : Z) :
  (outsideBootstrap op t ->
   (localLastUpdateId t <= localLastUpdateId (fst (apply op t)))%Z) /\
  (forall result attempt firstBuffered,
     syncInFlight t = Some (bootstrapping attempt firstBuffered) ->
     let t' := fst (onFetchCompleted result now t) in
     localLastUpdateId t' = localLastUpdateId t \/
     exists s, result = fetchBody s /\
               (U firstBuffered <= Rest.lastUpdateId s <= localLastUpdateId t')%Z) /\
  (appliedInSequence (localLastUpdateId t) (events ++ [last]) ->
   snd (applyBuffered (events ++ [last]) t) = true /\
   localLastUpdateId (fst (applyBuffered (events ++ [last]) t)) = u last /\
   (orderBookReady t = true ->
    localLastUpdateId (receive (events ++ [last]) now t) = u last)).
Proof.
  split; [apply apply_local|]. split.
  - intros result attempt firstBuffered Htask.
    exact (bootstrap_local result now attempt firstBuffered t Htask).
  - intros Hseq.
    destruct (applyBuffered_sequence events last t Hseq) as [H1 H2].
    split; [exact H1|]. split; [exact H2|].
    intros Hready. now apply receive_sequence.
Qed.

End Monotonicity.

Section Emission.

Variable Number : string -> float.

Local Abbreviation findBestPrice := (findBestPrice Number).
Local Abbreviation applyDepthEvent := (applyDepthEvent Number).
Local Abbreviation applyBuffered := (applyBuffered Number).
Local Abbreviation emitDepthSnapshot := (emitDepthSnapshot Number).
Local Abbreviation handlePayload := (handlePayload Number).
Local Abbreviation onFetchCompleted := (onFetchCompleted Number).
Local Abbreviation apply := (apply Number).
Local Abbreviation notCrossed := (notCrossed Number).
Local Abbreviation emittedFrom := (emittedFrom Number).

Ltac break_match :=
  match goal with
  | |- context [match ?x with _ => _ end] => destruct x eqn:?
  end.

(** A best price is a finite number. *)
Lemma findBestPrice_finite book side best :
  findBestPrice book side = Some best -> JS.isFinite best = true.
Proof.
  unfold BinanceDepth.findBestPrice.
  assert (H : forall acc,
             (forall b, acc = Some b -> JS.isFinite b = true) ->
             forall b, fold_left (betterPrice Number side) book acc = Some b ->
                       JS.isFinite b = true).
  { induction book as [|entry book IH]; intros acc Hacc b; cbn [fold_left].
    - apply Hacc.
    - apply IH. intros b'. unfold betterPrice.
      destruct (negb (JS.isFinite (snd entry)) || (snd entry <=? 0));
        [apply Hacc|].
      destruct (JS.isFinite (Number (fst entry))) eqn:Hfin; cbn [negb orb];
        [|apply Hacc].
      destruct (Number (fst entry) <=? 0); [apply Hacc|].
      destruct acc as [a|]; [|now intros [= <-]].
      destruct side; break_match; try apply Hacc; now intros [= <-]. }
  apply H. discriminate.
Qed.

Lemma emitDepthSnapshot_In now t s :
  In s (snd (emitDepthSnapshot now t)) ->
  notCrossed t /\
  emitDepthSnapshot now t = (set_snapshot (Some s) t, [s]) /\
  exists buySum sellSum, s = summarize t now buySum sellSum.
Proof.
  unfold BinanceDepth.emitDepthSnapshot, notCrossed.
  destruct (findBestPrice (bidBook t) bid) as [bestBid|] eqn:Hb; [|intros []].
  destruct (findBestPrice (askBook t) ask) as [bestAsk|] eqn:Ha; [|intros []].
  pose proof (findBestPrice_finite _ _ _ Hb) as Fb.
  pose proof (findBestPrice_finite _ _ _ Ha) as Fa.
  assert (F0 : JS.isFinite 0 = true) by reflexivity.
  destruct (bestBid <=? 0) eqn:E1; [intros []|].
  destruct (bestAsk <=? 0) eqn:E2; [intros []|].
  destruct (bestAsk <? bestBid) eqn:E3; [intros []|].
  cbn [orb snd]. intros [<-|[]].
  split; [|split; [reflexivity|eauto]].
  exists bestBid, bestAsk. repeat split; auto.
  - now apply FloatOrder.leb_false_ltb.
  - now apply FloatOrder.leb_false_ltb.
  - now apply FloatOrder.ltb_false_leb.
Qed.

(** A crossed book publishes nothing and changes nothing. *)
Lemma emitDepthSnapshot_crossed now t bestBid bestAsk :
  findBestPrice (bidBook t) bid = Some bestBid ->
  findBestPrice (askBook t) ask = Some bestAsk ->
  (bestAsk <? bestBid) = true ->
  emitDepthSnapshot now t = (t, []).
Proof.
  intros Hb Ha Hx. unfold BinanceDepth.emitDepthSnapshot.
  rewrite Hb, Ha, Hx. now rewrite !orb_true_r.
Qed.

Lemma applyDepthEvent_ratio event t :
  optionRatio (fst (applyDepthEvent event t)) = optionRatio t.
Proof. unfold BinanceDepth.applyDepthEvent. repeat break_match; reflexivity. Qed.

Lemma applyBuffered_ratio events t :
  optionRatio (fst (applyBuffered events t)) = optionRatio t.
Proof.
  revert t. induction events as [|event events IH]; intros t; cbn; [reflexivity|].
  pose proof (applyDepthEvent_ratio event t) as H.
  destruct (applyDepthEvent event t) as [t1 applied]. cbn in H.
  destruct applied; cbn; [|exact H]. now rewrite IH.
Qed.

Lemma emittedFrom_emit s t now1 t1 final out :
  optionRatio t1 = optionRatio t ->
  emitDepthSnapshot now1 t1 = (final, out) ->
  In s out ->
  emittedFrom s t final /\ emittedFrom s t (set_syncInFlight None final).
Proof.
  intros Hr E Hin.
  assert (Hin' : In s (snd (emitDepthSnapshot now1 t1))) by now rewrite E.
  destruct (emitDepthSnapshot_In _ _ _ Hin') as (_ & E' & _).
  rewrite E in E'. injection E' as -> _.
  split; exists now1, t1; cbn; auto.
Qed.

Ltac emission_of_emit t Hr :=
  match goal with
  | |- context [emitDepthSnapshot ?now ?t1] =>
    let E := fresh "E" in
    let Hin := fresh "Hin" in
    destruct (emitDepthSnapshot now t1) as [? ?] eqn:E;
    cbn [fst snd]; intros Hin;
    apply (emittedFrom_emit _ t _ _ _ _ Hr E Hin)
  end.

Lemma handlePayload_emission parsed now t s :
  In s (snd (handlePayload parsed now t)) ->
  emittedFrom s t (fst (handlePayload parsed now t)).
Proof.
  unfold BinanceDepth.handlePayload.
  destruct parsed as [event|]; [|intros []].
  destruct (orderBookReady t); cbn [negb]; [|intros []].
  pose proof (applyDepthEvent_ratio event t) as Hr.
  destruct (applyDepthEvent event t) as [t1 applied]. cbn [fst] in Hr.
  destruct applied; cbn [negb]; [|intros []].
  emission_of_emit t Hr.
Qed.

Lemma onFetchCompleted_emission result now t s :
  In s (snd (onFetchCompleted result now t)) ->
  emittedFrom s t (fst (onFetchCompleted result now t)).
Proof.
  unfold BinanceDepth.onFetchCompleted.
  destruct (syncInFlight t) as [task|]; [|intros []].
  unfold fetchDepthSnapshot.
  destruct result as [message|json]; [intros []|].
  destruct (Rest.lastUpdateId json <=? 0)%Z; [intros []|].
  destruct task as [attempt firstBuffered|].
  - destruct (Rest.lastUpdateId json <? U firstBuffered)%Z; [intros []|].
    match goal with
    | |- context [filter ?f (eventBuffer ?t0)] =>
      set (t1 := t0); destruct (filter f (eventBuffer t1)) as [|nextEvent rest]
    end.
    + assert (Hr : optionRatio (set_eventBuffer [] (set_orderBookReady true t1))
                   = optionRatio t) by reflexivity.
      emission_of_emit t Hr.
    + destruct (_ || _); [intros []|].
      pose proof (applyBuffered_ratio (nextEvent :: rest) t1) as Hr.
      destruct (applyBuffered (nextEvent :: rest) t1) as [t2 ok].
      cbn [fst] in Hr.
      destruct ok; [|intros []].
      assert (Hr' : optionRatio (set_eventBuffer [] (set_orderBookReady true t2))
                    = optionRatio t) by exact Hr.
      emission_of_emit t Hr'.
  - destruct (Rest.lastUpdateId json <? _)%Z; [intros []|].
    match goal with
    | |- context [emitDepthSnapshot now ?t2] =>
      assert (Hr : optionRatio t2 = optionRatio t) by reflexivity
    end.
    emission_of_emit t Hr.
Qed.

Lemma apply_emission op t s :
  In s (snd (apply op t)) -> emittedFrom s t (fst (apply op t)).
Proof.
  destruct op; cbn [BinanceDepth.apply snd]; try (intros []).
  - unfold BinanceDepth.handleMessage. intros Hin.
    destruct (handlePayload_emission _ _ _ _ Hin)
      as (now1 & t1 & H1 & H2 & H3 & H4 & H5).
    exists now1, t1. repeat split; auto.
    rewrite H2.
    cbn [connectionState set_lastEventAt set_lastMessageTime].
    destruct (connectionState t); reflexivity.
  - apply onFetchCompleted_emission.
Qed.

(** C5, as the program has it.  The tracker does not keep the book
    uncrossed; it checks the best prices when it publishes.  Whenever an
    operation hands a snapshot to the listeners, the book of the resulting
    state has a best bid and a best ask, both positive, with
    [bestBid <= bestAsk] (equality included), and that snapshot is the one
    stored.  On any tracker whose best ask is below its best bid,
    [emitDepthSnapshot] publishes nothing and changes nothing, and an
    operation that ends on such a book has published nothing. *)
Theorem published_book_not_crossed
    (op : Operation) (t : Tracker) (s : Snapshot.BinanceDepthSnapshot)
    (Hpublished : In s (snd (apply op t))) :
  let final := fst (apply op t) in
  snapshot final = Some s /\
  notCrossed final /\
  (forall (held : Tracker) now bestBid bestAsk,
     findBestPrice (bidBook held) bid = Some bestBid ->
     findBestPrice (askBook held) ask = Some bestAsk ->
     (bestAsk <? bestBid) = true ->
     emitDepthSnapshot now held = (held, [])) /\
  (forall (other : Operation) (held : Tracker) bestBid bestAsk,
     findBestPrice (bidBook (fst (apply other held))) bid = Some bestBid ->
     findBestPrice (askBook (fst (apply other held))) ask = Some bestAsk ->
     (bestAsk <? bestBid) = true ->
     snd (apply other held) = []).
Proof.
  cbv zeta.
  destruct (apply_emission _ _ _ Hpublished)
    as (now1 & t1 & Hin & _ & Hb & Ha & Hs).
  destruct (emitDepthSnapshot_In _ _ _ Hin) as (Hnc & _ & _).
  split; [exact Hs|]. split; [|split].
  - unfold notCrossed in *. now rewrite Hb, Ha.
  - intros held now bestBid bestAsk. apply emitDepthSnapshot_crossed.
  - intros other held bestBid bestAsk Hbid Hask Hcrossed.
    destruct (snd (apply other held)) as [|s' rest] eqn:Hout; [reflexivity|].
    assert (Hin' : In s' (snd (apply other held)))
      by (rewrite Hout; now left).
    destruct (apply_emission _ _ _ Hin')
      as (now2 & t2 & Hin2 & _ & Hb2 & Ha2 & _).
    destruct (emitDepthSnapshot_In _ _ _ Hin2)
      as ((b2 & a2 & Hfb & Hfa & _ & _ & Hle) & _ & _).
    rewrite <- Hb2, Hbid in Hfb. rewrite <- Ha2, Hask in Hfa.
    injection Hfb as <-. injection Hfa as <-.
    rewrite (FloatOrder.leb_not_gtb _ _ Hle) in Hcrossed. discriminate.
Qed.

(** C9.  For every snapshot handed to the listeners, with the configured
    ratio [ratio ?? 2] and [R = max(1.01, configured)], that is 1.01 for a
    configured ratio of at most 1.01 and the configured ratio above it:
    [skipSellSide] holds iff [sellSum === 0] or [buySum > sellSum * R], and
    [skipBuySide] holds iff [buySum === 0] or [sellSum > buySum * R]; so
    exchanging [buySum] and [sellSum] exchanges the two flags. *)
Theorem skip_flags_of_published_snapshot
    (op : Operation) (t : Tracker) (s : Snapshot.BinanceDepthSnapshot)
    (Hpublished : In s (snd (apply op t))) :
  let configured := match optionRatio t with
                    | Some ratio => ratio
                    | None => 2
                    end in
  let R := JS.max 1.01 configured in
  ((configured <=? 1.01) = true -> R = 1.01) /\
  ((1.01 <? configured) = true -> R = configured) /\
  (Snapshot.skipSellSide s = true <->
   JS.strictEq (Snapshot.sellSum s) 0 = true \/
   (Snapshot.sellSum s * R <? Snapshot.buySum s) = true) /\
  (Snapshot.skipBuySide s = true <->
   JS.strictEq (Snapshot.buySum s) 0 = true \/
   (Snapshot.buySum s * R <? Snapshot.sellSum s) = true) /\
  (forall now buySum sellSum,
     Snapshot.skipSellSide (summarize t now sellSum buySum)
     = Snapshot.skipBuySide (summarize t now buySum sellSum) /\
     Snapshot.skipBuySide (summarize t now sellSum buySum)
     = Snapshot.skipSellSide (summarize t now buySum sellSum)).
Proof.
  cbv zeta.
  destruct (apply_emission _ _ _ Hpublished)
    as (now1 & t1 & Hin & Hr & _).
  destruct (emitDepthSnapshot_In _ _ _ Hin) as (_ & _ & buySum & sellSum & ->).
  assert (HR : ratioOf t1
               = JS.max 1.01 match optionRatio t with
                             | Some ratio => ratio
                             | None => 2
                             end)
    by (unfold ratioOf; now rewrite Hr).
  cbn [summarize Snapshot.skipSellSide Snapshot.skipBuySide
       Snapshot.buySum Snapshot.sellSum].
  rewrite HR. unfold skipSellSideOf, skipBuySideOf.
  set (configured := match optionRatio t with
                     | Some ratio => ratio
                     | None => 2
                     end).
  split; [|split; [|split; [apply orb_true_iff|split; [apply orb_true_iff|]]]].
  - intros Hle. unfold JS.max.
    assert (Hnan : is_nan configured = false).
    { unfold is_nan. rewrite FloatAxioms.eqb_spec. unfold SFeqb.
      rewrite leb_spec in Hle. unfold SFleb in Hle.
      destruct (Prim2SF configured) as [sg|sg| |sg m e];
        try reflexivity; try discriminate; destruct sg; cbn;
        rewrite ?Z.compare_refl, ?Pos.compare_cont_refl; reflexivity. }
    rewrite Hnan. change (is_nan 1.01) with false. cbn [orb].
    rewrite (FloatOrder.leb_not_gtb _ _ Hle).
    destruct (configured <? 1.01); reflexivity.
  - intros Hlt. unfold JS.max. rewrite Hlt.
    assert (Hnan : is_nan configured = false).
    { unfold is_nan. rewrite FloatAxioms.eqb_spec. unfold SFeqb.
      rewrite ltb_spec in Hlt. unfold SFltb in Hlt.
      destruct (Prim2SF configured) as [sg|sg| |sg m e];
        try reflexivity; try discriminate; destruct sg; cbn;
        rewrite ?Z.compare_refl, ?Pos.compare_cont_refl; reflexivity. }
    rewrite Hnan. reflexivity.
  - unfold ratioOf. intros now b a. split; reflexivity.
Qed.

End Emission.

(** On the tracker bootstrapped at [local = 8]: the live event [(9, 10)],
    then the gap-free run [(9, 10)], [(11, 12)]. *)
Lemma localLastUpdateId_monotone_outside_bootstrap_witness :
  (localLastUpdateId bootstrapped <=
   localLastUpdateId
     (fst (apply JS.decimalNumber (opMessage (Some event_9_10) 3) bootstrapped)))%Z /\
  snd (applyBuffered JS.decimalNumber ([event_9_10] ++ [event_11_12]) bootstrapped)
    = true /\
  localLastUpdateId
    (fst (applyBuffered JS.decimalNumber ([event_9_10] ++ [event_11_12])
            bootstrapped)) = 12%Z /\
  localLastUpdateId
    (receive JS.decimalNumber ([event_9_10] ++ [event_11_12]) 3 bootstrapped)
    = 12%Z.
Proof.
  destruct (localLastUpdateId_monotone_outside_bootstrap JS.decimalNumber
              (opMessage (Some event_9_10) 3) bootstrapped
              [event_9_10] event_11_12 3) as (Hmono & _ & Hrun).
  split; [exact (Hmono I)|].
  assert (Hseq : appliedInSequence (localLastUpdateId bootstrapped)
                   ([event_9_10] ++ [event_11_12])).
  { vm_compute. intuition discriminate. }
  destruct (Hrun Hseq) as (H1 & H2 & H3).
  split; [exact H1|]. split; [exact H2|]. exact (H3 eq_refl).
Defined.

(** C6 as stated fails for the bootstrap.  Two events are buffered, the
    first snapshot ([lastUpdateId = 100]) is accepted and written but the
    next buffered event does not follow it, so the bootstrap retries; the
    second snapshot comes from a staler server ([lastUpdateId = 96]), is
    accepted as well, and [localLastUpdateId] goes from 100 down to 96. *)
Lemma bootstrap_lowers_localLastUpdateId_counterexample :
  let first := {| U := 90; u := 95; bids := []; asks := [] |} in
  let second := {| U := 103; u := 104; bids := []; asks := [] |} in
  let body id := fetchBody {| Rest.lastUpdateId := id;
                              Rest.bids := [("100", "1")];
                              Rest.asks := [("101", "2")] |} in
  let t :=
    applyAll JS.decimalNumber
      [opStart; opOpen 0; opMessage (Some first) 1; opMessage (Some second) 2;
       opFetchCompleted (body 100%Z) 3]
      (create "BTCUSDT" None None) in
  let t' := fst (apply JS.decimalNumber (opFetchCompleted (body 96%Z) 4) t) in
  syncInFlight t = Some (bootstrapping 1 first) /\
  localLastUpdateId t = 100%Z /\
  localLastUpdateId t' = 96%Z /\
  (localLastUpdateId t' < localLastUpdateId t)%Z.
Proof. vm_compute. repeat split. Qed.

Lemma published_9_10_emitted :
  snd (apply JS.decimalNumber (opMessage (Some event_9_10) 3) bootstrapped)
  = [published_9_10].
Proof. vm_compute. reflexivity. Qed.

Lemma published_9_10_In :
  In published_9_10
     (snd (apply JS.decimalNumber (opMessage (Some event_9_10) 3) bootstrapped)).
Proof. rewrite published_9_10_emitted. left. reflexivity. Qed.

(** The live event [(9, 10)] on the bootstrapped tracker publishes from an
    uncrossed book; the tracker bootstrapped from a crossed snapshot (bid
    101, ask 100) publishes nothing. *)
Lemma published_book_not_crossed_witness :
  let final :=
    fst (apply JS.decimalNumber (opMessage (Some event_9_10) 3) bootstrapped) in
  let crossed := {| Rest.lastUpdateId := 8;
                    Rest.bids := [("101", "1")];
                    Rest.asks := [("100", "1")] |} in
  let before := applyAll JS.decimalNumber
                  [opStart; opOpen 0; opMessage (Some event_5_7) 1]
                  (create "BTCUSDT" None None) in
  let held := fst (apply JS.decimalNumber
                     (opFetchCompleted (fetchBody crossed) 2) before) in
  snapshot final = Some published_9_10 /\
  notCrossed JS.decimalNumber final /\
  (orderBookReady held = true /\
   emitDepthSnapshot JS.decimalNumber 3 held = (held, [])) /\
  snd (apply JS.decimalNumber (opFetchCompleted (fetchBody crossed) 2) before)
  = [].
Proof.
  cbv zeta.
  destruct (published_book_not_crossed JS.decimalNumber
              (opMessage (Some event_9_10) 3) bootstrapped published_9_10
              published_9_10_In) as (H1 & H2 & H3 & H4).
  split; [exact H1|]. split; [exact H2|]. split; [split|].
  - vm_compute. reflexivity.
  - apply (H3 _ 3%Z 101 100); vm_compute; reflexivity.
  - apply (H4 _ _ 101 100); vm_compute; reflexivity.
Defined.

(** C5 as stated fails: a tracker bootstrapped from a snapshot whose best
    bid (101) is above its best ask (100) is ready with both sides
    non-empty. *)
Lemma ready_book_crossed_counterexample :
  let crossed := {| Rest.lastUpdateId := 8;
                    Rest.bids := [("101", "1")];
                    Rest.asks := [("100", "1")] |} in
  let ops := [opStart; opOpen 0; opMessage (Some event_5_7) 1;
              opFetchCompleted (fetchBody crossed) 2] in
  let t := applyAll JS.decimalNumber ops (create "BTCUSDT" None None) in
  reachable JS.decimalNumber t /\
  orderBookReady t = true /\
  bidBook t = [("101", 1)] /\
  askBook t = [("100", 1)] /\
  findBestPrice JS.decimalNumber (bidBook t) bid = Some 101 /\
  findBestPrice JS.decimalNumber (askBook t) ask = Some 100 /\
  (101 <? 100) = false /\
  (100 <? 101) = true.
Proof.
  cbv zeta. split.
  - cbn [applyAll]. repeat apply reachable_apply. apply reachable_create.
  - vm_compute. repeat split.
Qed.

Lemma skip_flags_of_published_snapshot_witness :
  let t := bootstrapped in
  let s := published_9_10 in
  let configured := match optionRatio t with
                    | Some ratio => ratio
                    | None => 2
                    end in
  let R := JS.max 1.01 configured in
  ((configured <=? 1.01) = true -> R = 1.01) /\
  ((1.01 <? configured) = true -> R = configured) /\
  (Snapshot.skipSellSide s = true <->
   JS.strictEq (Snapshot.sellSum s) 0 = true \/
   (Snapshot.sellSum s * R <? Snapshot.buySum s) = true) /\
  (Snapshot.skipBuySide s = true <->
   JS.strictEq (Snapshot.buySum s) 0 = true \/
   (Snapshot.buySum s * R <? Snapshot.sellSum s) = true) /\
  (forall now buySum sellSum,
     Snapshot.skipSellSide (summarize t now sellSum buySum)
     = Snapshot.skipBuySide (summarize t now buySum sellSum) /\
     Snapshot.skipBuySide (summarize t now sellSum buySum)
     = Snapshot.skipSellSide (summarize t now buySum sellSum)).
Proof.
  exact (skip_flags_of_published_snapshot JS.decimalNumber
           (opMessage (Some event_9_10) 3) bootstrapped published_9_10
           published_9_10_In).
Defined.

End BinanceDepthFacts.

(* ================================================================== *)
(** ** Further properties of the swing state machine *)
(* ================================================================== *)

Module SwingLogicExtras.

Import SwingLogic.
Local Open Scope float_scope.

Lemma crossDown_excludes_crossUp prev r t :
  crossDown prev r t = true -> crossUp prev r t = false.
Proof.
  destruct prev as [q|]; cbn; [|reflexivity].
  intros H. apply andb_prop in H as [_ H].
  rewrite (FloatOrder.ltb_asym _ _ H). apply andb_false_r.
Qed.

(** The flat branch in closed form. *)
Lemma stepFlat_closed_form state config r :
  let out := stepFlat (prevRsi state) r config (set_prevRsi (Some r) state) in
  let fireS := shortFires state config r in
  let fireL := longFires state config r in
  snd out = (if fireS then [openShort] else if fireL then [openLong] else []) /\
  armedShortEntry (fst out)
  = allowShort config && negb fireS && negb fireL &&
    (armedShortEntry state || crossUp (prevRsi state) r (rsiHigh config)) /\
  armedLongEntry (fst out)
  = allowLong config && negb fireL &&
    ((negb fireS && armedLongEntry state) ||
     crossDown (prevRsi state) r (rsiLow config)) /\
  armedShortExit (fst out) = false /\
  armedLongExit (fst out) = false /\
  prevRsi (fst out) = Some r.
Proof.
  cbv zeta. unfold longFires, shortFires, stepFlat, allowShort, allowLong.
  pose proof (crossDown_excludes_crossUp (prevRsi state) r (rsiHigh config)) as Hh.
  pose proof (crossDown_excludes_crossUp (prevRsi state) r (rsiLow config)) as Hl.
  destruct state as [prev ase asx ale alx]. cbn [prevRsi armedShortEntry
    armedLongEntry set_prevRsi] in *.
  destruct (crossDown prev r (rsiHigh config));
    [rewrite (Hh eq_refl)|destruct (crossUp prev r (rsiHigh config))];
    (destruct (crossDown prev r (rsiLow config));
     [rewrite (Hl eq_refl)|destruct (crossUp prev r (rsiLow config))]);
    destruct (direction config), ase, ale; cbn; repeat split; reflexivity.
Qed.

Lemma stepSwing_flat state config r amt p :
  JS.isFinite r = true -> isFlat amt = true ->
  stepSwing state config {| rsi := Some r; positionAmt := amt; pnl := p |}
  = stepFlat (prevRsi state) r config (set_prevRsi (Some r) state).
Proof.
  intros Hr Hf. unfold stepSwing. cbn [rsi positionAmt pnl].
  now rewrite Hr, Hf.
Qed.

Lemma In_types_singleton (a : SwingAction) (t : SwingActionType) :
  In t (map type [a]) <-> type a = t.
Proof. cbn. intuition. Qed.

(** X1. In a flat step with a valid RSI, [OPEN_SHORT] is emitted exactly
    when shorts are allowed, the short entry was armed before the step and
    the RSI crosses [rsiHigh] downwards; it is then the only action and the
    short entry arm is lowered.  The sample that arms never fires. *)
Theorem short_entry_fires_exactly
    (state : SwingState) (config : SwingLogicConfig) (r amt p : float)
    (Hrsi : JS.isFinite r = true)
    (Hflat : isFlat amt = true) :
  let out := stepSwing state config
               {| rsi := Some r; positionAmt := amt; pnl := p |} in
  (In OPEN_SHORT (actionTypes out) <->
   allowShort config = true /\ armedShortEntry state = true /\
   crossDown (prevRsi state) r (rsiHigh config) = true) /\
  (In OPEN_SHORT (actionTypes out) ->
   snd out = [openShort] /\ armedShortEntry (fst out) = false).
Proof.
  cbv zeta. rewrite (stepSwing_flat _ _ _ _ _ Hrsi Hflat).
  destruct (stepFlat_closed_form state config r) as (Ha & Hs & _).
  unfold actionTypes. rewrite Ha, Hs.
  assert (E : shortFires state config r = true <->
              allowShort config = true /\ armedShortEntry state = true /\
              crossDown (prevRsi state) r (rsiHigh config) = true).
  { unfold shortFires. rewrite !andb_true_iff. tauto. }
  destruct (shortFires state config r).
  - cbn. rewrite !andb_false_r. cbn. intuition.
  - destruct (longFires state config r); cbn;
      intuition (try discriminate; try congruence).
Qed.

Lemma short_entry_fires_exactly_witness :
  let state := {| prevRsi := Some 71; armedShortEntry := true;
                  armedShortExit := false; armedLongEntry := false;
                  armedLongExit := false |} in
  let out := stepSwing state (cfg short) (ev 69 0 0) in
  (In OPEN_SHORT (actionTypes out) <->
   allowShort (cfg short) = true /\ armedShortEntry state = true /\
   crossDown (prevRsi state) 69 (rsiHigh (cfg short)) = true) /\
  (In OPEN_SHORT (actionTypes out) ->
   snd out = [openShort] /\ armedShortEntry (fst out) = false).
Proof.
  exact (short_entry_fires_exactly
           {| prevRsi := Some 71; armedShortEntry := true;
              armedShortExit := false; armedLongEntry := false;
              armedLongExit := false |} (cfg short) 69 0 0 eq_refl eq_refl).
Defined.

(** X2. In a flat step with a valid RSI, [OPEN_LONG] is emitted exactly
    when longs are allowed, the long entry was armed before the step, the
    RSI crosses [rsiLow] upwards and the short entry does not fire in the
    same step; it is then the only action and both entry arms are
    lowered. *)
Theorem long_entry_fires_exactly
    (state : SwingState) (config : SwingLogicConfig) (r amt p : float)
    (Hrsi : JS.isFinite r = true)
    (Hflat : isFlat amt = true) :
  let out := stepSwing state config
               {| rsi := Some r; positionAmt := amt; pnl := p |} in
  (In OPEN_LONG (actionTypes out) <->
   allowLong config = true /\ armedLongEntry state = true /\
   crossUp (prevRsi state) r (rsiLow config) = true /\
   ~ In OPEN_SHORT (actionTypes out)) /\
  (In OPEN_LONG (actionTypes out) ->
   snd out = [openLong] /\
   armedShortEntry (fst out) = false /\ armedLongEntry (fst out) = false).
Proof.
  cbv zeta. rewrite (stepSwing_flat _ _ _ _ _ Hrsi Hflat).
  destruct (stepFlat_closed_form state config r) as (Ha & Hs & Hl & _).
  unfold actionTypes. rewrite Ha, Hs, Hl. unfold longFires.
  destruct (shortFires state config r); cbn [andb negb];
    [rewrite !andb_false_r; cbn; intuition (try discriminate; try congruence)|].
  rewrite !andb_true_r.
  destruct (allowLong config), (armedLongEntry state),
    (crossUp (prevRsi state) r (rsiLow config)); cbn;
    rewrite ?andb_false_r; cbn;
    intuition (try discriminate; try congruence).
Qed.

Lemma long_entry_fires_exactly_witness :
  let state := {| prevRsi := Some 29; armedShortEntry := false;
                  armedShortExit := false; armedLongEntry := true;
                  armedLongExit := false |} in
  let out := stepSwing state (cfg both) (ev 31 0 0) in
  (In OPEN_LONG (actionTypes out) <->
   allowLong (cfg both) = true /\ armedLongEntry state = true /\
   crossUp (prevRsi state) 31 (rsiLow (cfg both)) = true /\
   ~ In OPEN_SHORT (actionTypes out)) /\
  (In OPEN_LONG (actionTypes out) ->
   snd out = [openLong] /\
   armedShortEntry (fst out) = false /\ armedLongEntry (fst out) = false).
Proof.
  exact (long_entry_fires_exactly
           {| prevRsi := Some 29; armedShortEntry := false;
              armedShortExit := false; armedLongEntry := true;
              armedLongExit := false |} (cfg both) 31 0 0 eq_refl eq_refl).
Defined.

Lemma stepSwing_invalid state config input :
  match rsi input with
  | Some r => JS.isFinite r = false
  | None => True
  end ->
  stepSwing state config input = (state, []).
Proof.
  unfold stepSwing. destruct (rsi input) as [r|]; [|reflexivity].
  now intros ->.
Qed.

Lemma stepShort_closed_form prev r p config st :
  let fire := armedShortExit st && crossUp prev r (rsiLow config) && (0 <? p) in
  snd (stepShort prev r p config st) = (if fire then [closeShort] else []) /\
  armedShortExit (fst (stepShort prev r p config st))
  = negb fire && (armedShortExit st || crossDown prev r (rsiLow config)) /\
  armedLongExit (fst (stepShort prev r p config st)) = false /\
  armedShortEntry (fst (stepShort prev r p config st)) = armedShortEntry st /\
  armedLongEntry (fst (stepShort prev r p config st)) = armedLongEntry st /\
  prevRsi (fst (stepShort prev r p config st)) = prevRsi st.
Proof.
  cbv zeta. unfold stepShort.
  pose proof (crossDown_excludes_crossUp prev r (rsiLow config)) as Hx.
  destruct st as [pr ase asx ale alx]. cbn [armedShortExit] in *.
  destruct (crossDown prev r (rsiLow config));
    [rewrite (Hx eq_refl)|destruct (crossUp prev r (rsiLow config))];
    destruct asx, (0 <? p); cbn; repeat split; reflexivity.
Qed.

Lemma crossUp_excludes_crossDown prev r t :
  crossUp prev r t = true -> crossDown prev r t = false.
Proof.
  intros H. destruct (crossDown prev r t) eqn:E; [|reflexivity].
  rewrite (crossDown_excludes_crossUp _ _ _ E) in H. discriminate.
Qed.

Lemma stepLong_closed_form prev r p config st :
  let fire := armedLongExit st && crossDown prev r (rsiHigh config) && (0 <? p) in
  snd (stepLong prev r p config st) = (if fire then [closeLong] else []) /\
  armedLongExit (fst (stepLong prev r p config st))
  = negb fire && (armedLongExit st || crossUp prev r (rsiHigh config)) /\
  armedShortExit (fst (stepLong prev r p config st)) = false /\
  armedShortEntry (fst (stepLong prev r p config st)) = armedShortEntry st /\
  armedLongEntry (fst (stepLong prev r p config st)) = armedLongEntry st /\
  prevRsi (fst (stepLong prev r p config st)) = prevRsi st.
Proof.
  cbv zeta. unfold stepLong.
  pose proof (crossUp_excludes_crossDown prev r (rsiHigh config)) as Hx.
  destruct st as [pr ase asx ale alx]. cbn [armedLongExit] in *.
  destruct (crossUp prev r (rsiHigh config));
    [rewrite (Hx eq_refl)|destruct (crossDown prev r (rsiHigh config))];
    destruct alx, (0 <? p); cbn; repeat split; reflexivity.
Qed.

(** A long position is neither flat nor short. *)
Lemma isLong_exposed amt :
  isLong amt = true -> isFlat amt = false /\ isShort amt = false.
Proof.
  unfold isLong, isFlat, isShort. intros H.
  apply andb_prop in H as [Hfin Hgt]. rewrite Hfin. cbn [negb orb andb]. split.
  - now apply FloatOrder.gtb_not_abs_leb.
  - now apply FloatOrder.gtb_not_ltb_opp.
Qed.

Lemma stepSwing_long state config r amt p :
  JS.isFinite r = true -> isLong amt = true ->
  stepSwing state config {| rsi := Some r; positionAmt := amt; pnl := p |}
  = stepLong (prevRsi state) r p config
      (set_armedLongEntry false
         (set_armedShortEntry false (set_prevRsi (Some r) state))).
Proof.
  intros Hr Hl. destruct (isLong_exposed _ Hl) as [Hf Hs].
  unfold stepSwing. cbn [rsi positionAmt pnl].
  now rewrite Hr, Hf, Hs, Hl.
Qed.

(** X3. In a step with a valid RSI and a long position
    ([positionAmt > 1e-8], finite), while [armedLongExit] is set,
    [CLOSE_POSITION] is emitted exactly when the RSI crosses [rsiHigh]
    downwards and [pnl > 0], and the arm is then cleared; in every other
    case, a cross-down with [pnl <= 0] included, nothing is emitted and the
    arm stays set.  The short exit arm is lowered in all cases. *)
Theorem long_exit_requires_profit
    (state : SwingState) (config : SwingLogicConfig) (r amt p : float)
    (Hrsi : JS.isFinite r = true)
    (Hlong : isLong amt = true)
    (Harmed : armedLongExit state = true) :
  let out := stepSwing state config
               {| rsi := Some r; positionAmt := amt; pnl := p |} in
  let cross := crossDown (prevRsi state) r (rsiHigh config) in
  (In CLOSE_POSITION (actionTypes out) <-> cross = true /\ (0 <? p) = true) /\
  (cross = true -> (0 <? p) = true ->
     snd out = [closeLong] /\ armedLongExit (fst out) = false) /\
  (cross = true -> (p <=? 0) = true ->
     snd out = [] /\ armedLongExit (fst out) = true) /\
  (cross = false \/ (0 <? p) = false ->
     snd out = [] /\ armedLongExit (fst out) = true) /\
  armedShortExit (fst out) = false.
Proof.
  cbv zeta. rewrite (stepSwing_long _ _ _ _ _ Hrsi Hlong).
  match goal with
  | |- context [stepLong ?a ?b ?c ?d ?st] =>
    destruct (stepLong_closed_form a b c d st) as (Ha & Hx & Hs & _)
  end.
  unfold actionTypes. rewrite Ha, Hx, Hs.
  cbn [armedLongExit set_armedLongEntry set_armedShortEntry set_prevRsi].
  rewrite Harmed. cbn [andb orb].
  assert (Hle : (p <=? 0) = true -> (0 <? p) = false)
    by apply FloatOrder.leb_not_gtb.
  destruct (crossDown (prevRsi state) r (rsiHigh config)), (0 <? p); cbn;
    repeat split; intros;
    try match goal with H : (p <=? 0) = true |- _ => specialize (Hle H) end;
    intuition (try congruence).
Qed.

Lemma long_exit_requires_profit_witness :
  let state := {| prevRsi := Some 71; armedShortEntry := false;
                  armedShortExit := false; armedLongEntry := false;
                  armedLongExit := true |} in
  let out := stepSwing state (cfg both) (ev 69 1 0.01) in
  let cross := crossDown (prevRsi state) 69 (rsiHigh (cfg both)) in
  (In CLOSE_POSITION (actionTypes out) <-> cross = true /\ (0 <? 0.01) = true) /\
  (cross = true -> (0 <? 0.01) = true ->
     snd out = [closeLong] /\ armedLongExit (fst out) = false) /\
  (cross = true -> (0.01 <=? 0) = true ->
     snd out = [] /\ armedLongExit (fst out) = true) /\
  (cross = false \/ (0 <? 0.01) = false ->
     snd out = [] /\ armedLongExit (fst out) = true) /\
  armedShortExit (fst out) = false.
Proof.
  exact (long_exit_requires_profit
           {| prevRsi := Some 71; armedShortEntry := false;
              armedShortExit := false; armedLongEntry := false;
              armedLongExit := true |} (cfg both) 69 1 0.01
           eq_refl eq_refl eq_refl).
Defined.

(** The five ways through [stepSwing]. *)
Lemma stepSwing_cases state config input :
  let out := stepSwing state config input in
  let amt := positionAmt input in
  let cleared r :=
    set_armedLongEntry false
      (set_armedShortEntry false (set_prevRsi (Some r) state)) in
  (out = (state, []) /\
   match rsi input with Some r => JS.isFinite r = false | None => True end) \/
  exists r, rsi input = Some r /\ JS.isFinite r = true /\
    ((isFlat amt = true /\
      out = stepFlat (prevRsi state) r config (set_prevRsi (Some r) state)) \/
     (isFlat amt = false /\ isShort amt = true /\
      out = stepShort (prevRsi state) r (pnl input) config (cleared r)) \/
     (isFlat amt = false /\ isShort amt = false /\ isLong amt = true /\
      out = stepLong (prevRsi state) r (pnl input) config (cleared r)) \/
     (isFlat amt = false /\ isShort amt = false /\ isLong amt = false /\
      out = (cleared r, []))).
Proof.
  cbv zeta. unfold stepSwing.
  destruct (rsi input) as [r|]; [|left; auto].
  destruct (JS.isFinite r) eqn:Hr; cbn [negb]; [|left; auto].
  right. exists r. split; [reflexivity|]. split; [exact Hr|].
  destruct (isFlat (positionAmt input)); [left; auto|right].
  destruct (isShort (positionAmt input)); [left; auto|right].
  destruct (isLong (positionAmt input)); [left; auto|right; auto].
Qed.

(** X4. The configured direction is a hard limit on entries: with
    direction [long] no call returns [OPEN_SHORT] and after a valid sample
    the short entry arm is down; with direction [short] no call returns
    [OPEN_LONG] and after a valid sample the long entry arm is down. *)
Theorem disallowed_side_never_opens
    (state : SwingState) (config : SwingLogicConfig) (input : SwingStepInput) :
  let out := stepSwing state config input in
  let valid := match rsi input with
               | Some r => JS.isFinite r
               | None => false
               end in
  (direction config = long ->
   ~ In OPEN_SHORT (actionTypes out) /\
   (valid = true -> armedShortEntry (fst out) = false)) /\
  (direction config = short ->
   ~ In OPEN_LONG (actionTypes out) /\
   (valid = true -> armedLongEntry (fst out) = false)).
Proof.
  cbv zeta. unfold actionTypes.
  destruct (stepSwing_cases state config input)
    as [[-> Hinv] | (r & -> & Hr & Hcase)].
  { cbn. split; intros _; (split; [tauto|]);
      destruct (rsi input); congruence. }
  rewrite Hr.
  destruct Hcase as [[_ ->] | [(_ & _ & ->) | [(_ & _ & _ & ->) | (_ & _ & _ & ->)]]].
  - destruct (stepFlat_closed_form state config r) as (Ha & Hs & Hl & _).
    rewrite Ha, Hs, Hl. unfold longFires, shortFires, allowShort, allowLong.
    split; intros ->; cbn; split; try reflexivity;
      repeat match goal with
             | |- context [if ?b then _ else _] => destruct b
             end; cbn; intuition discriminate.
  - match goal with
    | |- context [stepShort ?a ?b ?c ?d ?st] =>
      destruct (stepShort_closed_form a b c d st) as (Ha & _ & _ & Hs & Hl & _)
    end.
    rewrite Ha, Hs, Hl.
    split; intros _; (split; [|reflexivity]);
      match goal with
      | |- context [if ?b then _ else _] => destruct b
      end; cbn; intuition discriminate.
  - match goal with
    | |- context [stepLong ?a ?b ?c ?d ?st] =>
      destruct (stepLong_closed_form a b c d st) as (Ha & _ & _ & Hs & Hl & _)
    end.
    rewrite Ha, Hs, Hl.
    split; intros _; (split; [|reflexivity]);
      match goal with
      | |- context [if ?b then _ else _] => destruct b
      end; cbn; intuition discriminate.
  - cbn. tauto.
Qed.

(** X5. What is returned matches the exposure: an entry is returned only
    for a flat position, [CLOSE_POSITION] only for a position that is not
    flat and only with [pnl > 0], and nothing is returned unless the RSI
    is a finite number and a previous sample is on record (the first
    sample never acts). *)
Theorem actions_match_exposure
    (state : SwingState) (config : SwingLogicConfig) (input : SwingStepInput) :
  let out := stepSwing state config input in
  (In OPEN_SHORT (actionTypes out) \/ In OPEN_LONG (actionTypes out) ->
   isFlat (positionAmt input) = true) /\
  (In CLOSE_POSITION (actionTypes out) ->
   isFlat (positionAmt input) = false /\ (0 <? pnl input) = true) /\
  (snd out <> [] ->
   exists r prev, rsi input = Some r /\ JS.isFinite r = true /\
                  prevRsi state = Some prev).
Proof.
  cbv zeta. unfold actionTypes.
  destruct (stepSwing_cases state config input)
    as [[-> Hinv] | (r & Er & Hr & Hcase)].
  { cbn. intuition. }
  assert (Hprev : forall t, crossUp (prevRsi state) r t = true \/
                            crossDown (prevRsi state) r t = true ->
                            exists prev, prevRsi state = Some prev).
  { intros t. destruct (prevRsi state) as [q|]; [eauto|].
    cbn. intros [H|H]; discriminate. }
  destruct Hcase as [[Hf ->] | [(Hf & _ & ->) | [(Hf & _ & _ & ->) | (Hf & _ & _ & ->)]]].
  - destruct (stepFlat_closed_form state config r) as (Ha & _).
    rewrite Ha. unfold longFires.
    destruct (shortFires state config r) eqn:Es.
    + split; [auto|]. split; [cbn; intuition discriminate|].
      intros _. unfold shortFires in Es.
      apply andb_prop in Es as [_ Es].
      destruct (Hprev _ (or_intror Es)) as [prev ?]. eauto.
    + cbn [negb]. rewrite andb_true_r.
      destruct (allowLong config && armedLongEntry state &&
                crossUp (prevRsi state) r (rsiLow config)) eqn:El.
      * split; [auto|]. split; [cbn; intuition discriminate|].
        intros _. apply andb_prop in El as [_ El].
        destruct (Hprev _ (or_introl El)) as [prev ?]. eauto.
      * cbn. intuition.
  - match goal with
    | |- context [stepShort ?a ?b ?c ?d ?st] =>
      destruct (stepShort_closed_form a b c d st) as (Ha & _)
    end.
    rewrite Ha.
    match goal with
    | |- context [if ?b then _ else _] => destruct b eqn:Ef
    end.
    + apply andb_prop in Ef as [Ef Hp]. apply andb_prop in Ef as [_ Ec].
      destruct (Hprev _ (or_introl Ec)) as [prev ?].
      cbn. split; [intuition discriminate|]. split; eauto.
    + cbn. intuition.
  - match goal with
    | |- context [stepLong ?a ?b ?c ?d ?st] =>
      destruct (stepLong_closed_form a b c d st) as (Ha & _)
    end.
    rewrite Ha.
    match goal with
    | |- context [if ?b then _ else _] => destruct b eqn:Ef
    end.
    + apply andb_prop in Ef as [Ef Hp]. apply andb_prop in Ef as [_ Ec].
      destruct (Hprev _ (or_intror Ec)) as [prev ?].
      cbn. split; [intuition discriminate|]. split; eauto.
    + cbn. intuition.
  - cbn. intuition.
Qed.

Lemma stepSwing_prevRsi state config input :
  prevRsi (fst (stepSwing state config input))
  = match rsi input with
    | Some r => if JS.isFinite r then Some r else prevRsi state
    | None => prevRsi state
    end.
Proof.
  destruct (stepSwing_cases state config input)
    as [[-> Hinv] | (r & -> & Hr & Hcase)].
  { destruct (rsi input); [now rewrite Hinv|reflexivity]. }
  rewrite Hr.
  destruct Hcase as [[_ ->] | [(_ & _ & ->) | [(_ & _ & _ & ->) | (_ & _ & _ & ->)]]].
  - now destruct (stepFlat_closed_form state config r) as (_ & _ & _ & _ & _ & ->).
  - match goal with
    | |- context [stepShort ?a ?b ?c ?d ?st] =>
      destruct (stepShort_closed_form a b c d st) as (_ & _ & _ & _ & _ & ->)
    end. reflexivity.
  - match goal with
    | |- context [stepLong ?a ?b ?c ?d ?st] =>
      destruct (stepLong_closed_form a b c d st) as (_ & _ & _ & _ & _ & ->)
    end. reflexivity.
  - reflexivity.
Qed.

(** X6. Samples that are [null], NaN or infinite are skipped without a
    trace: such a step returns the state it was given and no action, and
    after any run of steps [prevRsi] is the last finite sample of the run
    (the initial value when there was none), whatever the positions, the
    pnl and the configuration. *)
Theorem prevRsi_tracks_last_valid_sample
    (state : SwingState) (config : SwingLogicConfig)
    (input : SwingStepInput) (inputs : list SwingStepInput) :
  (match rsi input with
   | Some r => JS.isFinite r = false
   | None => True
   end -> stepSwing state config input = (state, [])) /\
  prevRsi (fst (run config inputs state)) = lastValid inputs (prevRsi state).
Proof.
  split; [apply stepSwing_invalid|].
  revert state. induction inputs as [|i inputs IH]; intros state;
    cbn [run lastValid]; [reflexivity|].
  specialize (IH (fst (stepSwing state config i))).
  destruct (run config inputs (fst (stepSwing state config i))) as [final later].
  cbn [fst] in *. rewrite IH. f_equal. apply stepSwing_prevRsi.
Qed.

Lemma stepSwing_exit_arms_exclusive state config input :
  armedShortExit state && armedLongExit state = false ->
  armedShortExit (fst (stepSwing state config input)) &&
  armedLongExit (fst (stepSwing state config input)) = false.
Proof.
  intros H.
  destruct (stepSwing_cases state config input)
    as [[-> Hinv] | (r & _ & Hr & Hcase)]; [exact H|].
  destruct Hcase as [[_ ->] | [(_ & _ & ->) | [(_ & _ & _ & ->) | (_ & _ & _ & ->)]]].
  - now destruct (stepFlat_closed_form state config r) as (_ & _ & _ & -> & _).
  - match goal with
    | |- context [stepShort ?a ?b ?c ?d ?st] =>
      destruct (stepShort_closed_form a b c d st) as (_ & _ & -> & _)
    end. apply andb_false_r.
  - match goal with
    | |- context [stepLong ?a ?b ?c ?d ?st] =>
      destruct (stepLong_closed_form a b c d st) as (_ & _ & -> & _)
    end. reflexivity.
  - exact H.
Qed.

(** X7. In every state the engine can hold (the initial state followed by
    any steps, under any configurations and inputs) the two exit arms are
    never raised together, and a raised entry arm comes with both exit arms
    lowered: the machine waits for at most one kind of event per side. *)
Theorem reachable_arms_are_exclusive
    (state : SwingState) (Hreach : reachable state) :
  armedShortExit state && armedLongExit state = false /\
  (armedShortEntry state || armedLongEntry state = true ->
   armedShortExit state = false /\ armedLongExit state = false).
Proof.
  split.
  - induction Hreach; [reflexivity|].
    now apply stepSwing_exit_arms_exclusive.
  - now apply SwingLogicFacts.reachable_entry_arm_excludes_exit_arms.
Qed.

Lemma reachable_arms_are_exclusive_witness :
  let state :=
    fst (stepSwing (fst (stepSwing createInitialSwingState (cfg both) (ev 69 0 0)))
           (cfg both) (ev 71 0 0)) in
  armedShortEntry state = true /\
  armedShortExit state && armedLongExit state = false /\
  (armedShortEntry state || armedLongEntry state = true ->
   armedShortExit state = false /\ armedLongExit state = false).
Proof.
  split; [reflexivity|].
  apply reachable_arms_are_exclusive.
  apply reachable_step, reachable_step, reachable_init.
Defined.

Lemma stepSwing_action_exposure state config input action :
  In action (snd (stepSwing state config input)) ->
  match type action with
  | OPEN_SHORT | OPEN_LONG => isFlat (positionAmt input) = true
  | CLOSE_POSITION => isFlat (positionAmt input) = false
  end.
Proof.
  destruct (stepSwing_cases state config input)
    as [[-> Hinv] | (r & Er & Hr & Hcase)]; [intros []|].
  destruct Hcase as [[Hf ->] | [(Hf & _ & ->) | [(Hf & _ & _ & ->) | (Hf & _ & _ & ->)]]].
  - destruct (stepFlat_closed_form state config r) as (Ha & _).
    rewrite Ha.
    destruct (shortFires state config r);
      [|destruct (longFires state config r)];
      cbn; intros H; try (destruct H as [<-|[]]; exact Hf); contradiction.
  - match goal with
    | |- context [stepShort ?a ?b ?c ?d ?st] =>
      destruct (stepShort_closed_form a b c d st) as (Ha & _)
    end.
    rewrite Ha.
    match goal with
    | |- context [if ?b then _ else _] => destruct b
    end; cbn; intros H; try (destruct H as [<-|[]]; exact Hf); contradiction.
  - match goal with
    | |- context [stepLong ?a ?b ?c ?d ?st] =>
      destruct (stepLong_closed_form a b c d st) as (Ha & _)
    end.
    rewrite Ha.
    match goal with
    | |- context [if ?b then _ else _] => destruct b
    end; cbn; intros H; try (destruct H as [<-|[]]; exact Hf); contradiction.
  - intros [].
Qed.

End SwingLogicExtras.

(* ================================================================== *)
(** ** Further properties of the swing engine *)
(* ================================================================== *)

Module SwingEngineExtras.

Import SwingEngine.
Local Open Scope string_scope.
Local Open Scope list_scope.
Local Open Scope float_scope.

(** The three ways [tryClose] ends, all with the same single call. *)
Lemma tryClose_calls_one position reason oracle :
  hasPosition position = true ->
  filter isCall (tryClose position reason oracle)
  = [call (marketClose (stopSideOf position) (JS.abs (positionAmt position)))].
Proof.
  intros H. unfold tryClose, hasPosition, stopSideOf, isLongPosition in *.
  rewrite (FloatOrder.ltb_not_geb _ _ H).
  destruct (oracle _); reflexivity.
Qed.

Lemma tryClose_flat position reason oracle :
  hasPosition position = false ->
  filter isCall (tryClose position reason oracle) = [] \/
  filter isCall (tryClose position reason oracle)
  = [call (marketClose (stopSideOf position) (JS.abs (positionAmt position)))].
Proof.
  intros _. unfold tryClose, stopSideOf, isLongPosition.
  destruct (_ <=? _); [left; reflexivity|right].
  destruct (oracle _); reflexivity.
Qed.

(** [handleStopLoss] in closed form, as far as calls and state go. *)
Lemma handleStopLoss_calls position reference now oracle e :
  let out := handleStopLoss position reference now oracle e in
  let lastPrice := match reference with
                   | Some p => p
                   | None => tickerLastPrice e
                   end in
  let side := stopSideOf position in
  let stop := stopPriceOf (config e) position in
  let qty := JS.abs (positionAmt position) in
  let armed := hasPosition position && hasEntryPrice position in
  let kill := armed && triggerKill (config e) position lastPrice in
  let place :=
    armed && negb kill &&
    match find (isStopOrder side) (openOrders e) with
    | Some _ => false
    | None => true
    end &&
    negb (debounced (lastStopAttempt e) side stop (effectiveTick (config e)) now) in
  filter isCall (snd out)
  = (if kill then [call (marketClose side qty)]
     else if place then [call (placeStopLossOrder side stop qty lastPrice)]
     else []) /\
  fst out
  = (if negb (hasPosition position)
     then set_lastStopAttempt
            {| attemptSide := None; attemptPrice := None; attemptAt := 0 |} e
     else if place
     then set_lastStopAttempt
            {| attemptSide := Some side; attemptPrice := Some stop;
               attemptAt := now |} e
     else e).
Proof.
  cbv zeta. unfold handleStopLoss.
  destruct (hasPosition position) eqn:Hp; cbn [negb andb]; [|auto].
  destruct (hasEntryPrice position); cbn [negb andb]; [|auto].
  destruct (triggerKill (config e) position _); cbn [negb andb fst snd].
  { split; [|reflexivity]. now apply tryClose_calls_one. }
  destruct (find _ (openOrders e)); cbn [andb]; [auto|].
  destruct (debounced _ _ _ _ _); cbn [negb]; [auto|].
  destruct (oracle _); auto.
Qed.

(** X8. [handleStopLoss] makes at most one coordinator call, either the
    kill-switch market close or one stop order for the whole position on
    the closing side at the computed stop price.  Without a position
    ([|positionAmt| <= 1e-5]) it makes none and forgets the last stop
    attempt; without a usable entry price it makes none; it places no stop
    order while the order feed shows one on the closing side; and when it
    does place one, the kill-switch is not triggered, the placement is not
    de-bounced, and the attempt (side, price, time) is recorded whether the
    coordinator accepts the order or not. *)
Theorem handleStopLoss_call_discipline
    (position : PositionSnapshot) (reference : option float) (now : Z)
    (oracle : Call -> Outcome) (e : Engine) :
  let out := handleStopLoss position reference now oracle e in
  let calls := filter isCall (snd out) in
  let lastPrice := match reference with
                   | Some p => p
                   | None => tickerLastPrice e
                   end in
  let side := stopSideOf position in
  let stop := stopPriceOf (config e) position in
  let qty := JS.abs (positionAmt position) in
  let close := call (marketClose side qty) in
  let place := call (placeStopLossOrder side stop qty lastPrice) in
  (calls = [] \/ calls = [close] \/ calls = [place]) /\
  (hasPosition position = false ->
   calls = [] /\
   lastStopAttempt (fst out)
   = {| attemptSide := None; attemptPrice := None; attemptAt := 0 |}) /\
  (hasEntryPrice position = false -> calls = []) /\
  (forall o, find (isStopOrder side) (openOrders e) = Some o ->
             calls <> [place]) /\
  (calls = [place] ->
   triggerKill (config e) position lastPrice = false /\
   debounced (lastStopAttempt e) side stop (effectiveTick (config e)) now
   = false /\
   lastStopAttempt (fst out)
   = {| attemptSide := Some side; attemptPrice := Some stop;
        attemptAt := now |}).
Proof.
  cbv zeta.
  destruct (handleStopLoss_calls position reference now oracle e) as [Hc Hs].
  cbv zeta in Hc, Hs. rewrite Hc, Hs.
  destruct (hasPosition position), (hasEntryPrice position),
    (triggerKill (config e) position _),
    (find _ (openOrders e)),
    (debounced _ _ _ _ _); cbn;
    repeat split; intros; auto; try discriminate; try congruence.
Qed.

Section Ticks.

Variable getPosition : option AsterAccountSnapshot -> string -> PositionSnapshot.
Variable getTopPrices : option AsterDepth -> option float * option float.
Variable computePositionPnl : PositionSnapshot -> float -> float -> float.
Variable getMidOrLast : option AsterDepth -> option AsterTicker -> option float.
Variable isOrderActiveStatus : string -> bool.

Local Abbreviation getReferencePrice := (getReferencePrice getMidOrLast).
Local Abbreviation tick :=
  (tick getPosition getTopPrices computePositionPnl getMidOrLast).
Local Abbreviation apply :=
  (apply getPosition getTopPrices computePositionPnl getMidOrLast
         isOrderActiveStatus).

(** X9. The kill-switch flag of the observer snapshot and the stop-loss
    handler agree: for the reference price the engine computes
    ([getReferencePrice]) and any position, [buildSnapshot] reports
    [stopLossKillSwitch = true] exactly when [handleStopLoss], run on that
    position and price, issues the market close. *)
Theorem snapshot_kill_switch_agrees_with_handler
    (position : PositionSnapshot) (now : Z) (oracle : Call -> Outcome)
    (e : Engine) :
  let reference := getReferencePrice e in
  stopLossKillSwitch (config e) position reference = true <->
  filter isCall (snd (handleStopLoss position reference now oracle e))
  = [call (marketClose (stopSideOf position) (JS.abs (positionAmt position)))].
Proof.
  cbv zeta.
  destruct (handleStopLoss_calls position (getReferencePrice e) now oracle e)
    as [Hc _].
  cbv zeta in Hc. rewrite Hc. clear Hc.
  unfold stopLossKillSwitch, stopLossTarget, triggerKill, stopPriceOf,
    effectiveTick, isLongPosition.
  assert (Hnone : getReferencePrice e = None -> tickerLastPrice e = nan).
  { unfold SwingEngine.getReferencePrice, tickerLastPrice.
    destruct (getMidOrLast _ _); [discriminate|].
    destruct (tickerSnapshot e); [discriminate|reflexivity]. }
  destruct (hasPosition position), (hasEntryPrice position); cbn [andb];
    try (split; [discriminate|]).
  - destruct (getReferencePrice e) as [ref|] eqn:Er.
    + destruct (JS.isFinite ref), (0 <? positionAmt position); cbn [andb];
        match goal with
        | |- context [if ?b then _ else _] => destruct b
        end; cbn [negb andb]; split; try reflexivity; try discriminate;
        repeat match goal with
               | |- context [if ?b then _ else _] => destruct b
               end; discriminate.
    + rewrite (Hnone eq_refl).
      change (JS.isFinite nan) with false.
      destruct (0 <? positionAmt position); cbn [andb negb];
        split; try discriminate;
        repeat match goal with
               | |- context [if ?b then _ else _] => destruct b
               end; discriminate.
  - cbn. discriminate.
  - cbn. discriminate.
  - cbn. discriminate.
Qed.

Lemma tick_ungated decision oracle now e :
  gated decision e = false ->
  fst (tick decision oracle now e) = e /\
  filter isCall (snd (tick decision oracle now e)) = [].
Proof.
  unfold gated, SwingEngine.tick.
  destruct (processing e); [auto|].
  destruct decision; cbn [negb andb]; auto.
  destruct (disabled e); cbn [negb andb]; [auto|].
  destruct (isReady e); [discriminate|auto].
Qed.

Lemma filter_isCall_app (l1 l2 : list Effect) :
  filter isCall (l1 ++ l2) = filter isCall l1 ++ filter isCall l2.
Proof. apply filter_app. Qed.

Lemma perform_fits position oracle e state logic input action :
  positionAmt position = SwingLogic.positionAmt input ->
  getPosition (accountSnapshot e) (symbol (config e)) = position ->
  In action (snd (SwingLogic.stepSwing state logic input)) ->
  Forall (callFits (config e) position)
         (filter isCall (perform getPosition position oracle e action)) /\
  (List.length (filter isCall (perform getPosition position oracle e action))
   <= 1)%nat.
Proof.
  intros Hamt Hpos Hin.
  pose proof (SwingLogicExtras.stepSwing_action_exposure _ _ _ _ Hin) as Hexp.
  rewrite <- Hamt in Hexp.
  unfold perform.
  destruct (SwingLogic.type action).
  - unfold tryOpen. rewrite Hpos.
    destruct (EPS <? JS.abs (positionAmt position)) eqn:Hg; [cbn; auto|].
    destruct (oracle _); cbn; (split; [|lia]);
      repeat constructor; auto.
  - unfold tryOpen. rewrite Hpos.
    destruct (EPS <? JS.abs (positionAmt position)) eqn:Hg; [cbn; auto|].
    destruct (oracle _); cbn; (split; [|lia]);
      repeat constructor; auto.
  - unfold tryClose.
    destruct (JS.abs (positionAmt position) <=? EPS) eqn:Hg; [cbn; auto|].
    destruct (oracle _); cbn; (split; [|lia]);
      repeat constructor; auto.
Qed.

Lemma handleStopLoss_fits position reference now oracle e :
  Forall (callFits (config e) position)
         (filter isCall (snd (handleStopLoss position reference now oracle e))) /\
  (List.length
     (filter isCall (snd (handleStopLoss position reference now oracle e)))
   <= 1)%nat.
Proof.
  destruct (handleStopLoss_calls position reference now oracle e) as [Hc _].
  cbv zeta in Hc. rewrite Hc.
  destruct (hasPosition position) eqn:Hp, (hasEntryPrice position) eqn:He;
    cbn [andb]; try (cbn; auto).
  destruct (triggerKill _ _ _); cbn [negb andb].
  - cbn. split; [|lia]. repeat constructor.
    unfold hasPosition in Hp. now apply FloatOrder.ltb_not_geb.
  - match goal with
    | |- context [if ?b then _ else _] => destruct b
    end; cbn; (split; [|lia]); repeat constructor; auto.
Qed.

(** The calls of a tick that passes its gates: those of the swing actions,
    then those of the stop-loss handler. *)
Lemma tick_gated_calls oracle now e :
  gated run e = true ->
  let position := getPosition (accountSnapshot e) (symbol (config e)) in
  exists pnl,
    let decisionOut :=
      SwingLogic.stepSwing (swingState e)
        {| SwingLogic.direction := direction (config e);
           SwingLogic.rsiHigh := rsiHigh (config e);
           SwingLogic.rsiLow := rsiLow (config e) |}
        {| SwingLogic.rsi := rsi (binanceSnapshot e);
           SwingLogic.positionAmt := positionAmt position;
           SwingLogic.pnl := pnl |} in
    let e1 := set_swingState (fst decisionOut) e in
    filter isCall (snd (tick run oracle now e))
    = filter isCall (flat_map (perform getPosition position oracle e1)
                              (snd decisionOut))
      ++ filter isCall
           (snd (handleStopLoss position (getReferencePrice e) now oracle e1)) /\
    swingState (fst (tick run oracle now e)) = fst decisionOut /\
    config (fst (tick run oracle now e)) = config e.
Proof.
  unfold gated. intros Hg.
  apply andb_prop in Hg as [Hg Hready].
  apply andb_prop in Hg as [Hg Hdis].
  apply andb_prop in Hg as [Hproc _].
  apply negb_true_iff in Hproc, Hdis.
  cbv zeta. unfold SwingEngine.tick. rewrite Hproc, Hdis, Hready. cbn [negb].
  destruct (getTopPrices (depthSnapshot e)) as [topBid topAsk].
  exists (computePositionPnl
            (getPosition (accountSnapshot e) (symbol (config e)))
            match topBid with Some b => b | None => tickerLastPrice e end
            match topAsk with Some a => a | None => tickerLastPrice e end).
  cbv zeta.
  match goal with
  | |- context [handleStopLoss ?p ?r ?n ?o ?e1] =>
    destruct (handleStopLoss_calls p r n o e1) as [_ Hs];
    destruct (handleStopLoss p r n o e1) as [e2 stopped] eqn:Eh
  end.
  cbn [fst snd] in *. rewrite !filter_isCall_app.
  match goal with
  | |- context [filter isCall [?a; ?b; ?c]] =>
    change (filter isCall [a; b; c]) with (@nil Effect)
  end.
  rewrite app_nil_r. split; [reflexivity|].
  cbv zeta in Hs. rewrite Hs.
  repeat match goal with
         | |- context [if ?b then _ else _] => destruct b
         end; cbn; auto.
Qed.

(** X10. Only a tick that passes every gate trades: an operation whose
    effects include a coordinator call is a tick that found no other tick
    in progress, was told [run] by the rate limiter, and ran on an engine
    that is not disabled and is ready (account, ticker, depth and order
    snapshots present, RSI stable and non-null).  A tick stopped at a gate
    leaves the engine exactly as it was. *)
Theorem only_a_gated_tick_trades (op : Operation) (e : Engine) :
  (filter isCall (snd (apply op e)) <> [] ->
   exists oracle now,
     op = opTick run oracle now /\ processing e = false /\
     disabled e = false /\ isReady e = true) /\
  (forall decision oracle now,
     op = opTick decision oracle now ->
     processing e = true \/ decision <> run \/ disabled e = true \/
     isReady e = false ->
     fst (apply op e) = e).
Proof.
  split.
  - destruct op; cbn [SwingEngine.apply snd filter];
      try (intros H; now contradiction H).
    + unfold SwingEngine.onAccount.
      repeat match goal with
             | |- context [if ?b then _ else _] => destruct b
             end; cbn; intros H; now contradiction H.
    + unfold onPrecision. destruct precision as [[t q]|]; cbn;
        [|intros H; now contradiction H].
      match goal with
      | |- context [if ?b then _ else _] => destruct b
      end; cbn; intros H; now contradiction H.
    + intros H. destruct (gated decision e) eqn:Hg.
      * unfold gated in Hg.
        apply andb_prop in Hg as [Hg Hready].
        apply andb_prop in Hg as [Hg Hdis].
        apply andb_prop in Hg as [Hproc Hrun].
        apply negb_true_iff in Hproc, Hdis.
        destruct decision; try discriminate. eauto 8.
      * destruct (tick_ungated decision oracle now e Hg) as [_ Hn].
        now contradiction H.
  - intros decision oracle now -> Hstop. cbn [SwingEngine.apply].
    apply tick_ungated. unfold gated.
    destruct Hstop as [-> | [Hd | [-> | ->]]]; cbn;
      rewrite ?andb_false_r; auto.
    destruct decision; cbn; rewrite ?andb_false_r; auto. congruence.
Qed.

(** X11. Every coordinator call of a tick fits the position the tick read
    from the account snapshot: a market entry is placed only when that
    position is flat for the state machine and not above [1e-5] in size,
    for the configured trade amount; a market close or a stop order is
    only ever for the whole of an existing position, on its closing side
    (SELL for a long, BUY for a short), the stop order at the configured
    stop distance from the entry price.  A tick makes at most two calls. *)
Theorem tick_calls_fit_the_position
    (decision : Decision) (oracle : Call -> Outcome) (now : Z) (e : Engine) :
  let position := getPosition (accountSnapshot e) (symbol (config e)) in
  let calls := filter isCall (snd (tick decision oracle now e)) in
  Forall (callFits (config e) position) calls /\
  (List.length calls <= 2)%nat.
Proof.
  cbv zeta. destruct (gated decision e) eqn:Hg.
  2:{ destruct (tick_ungated decision oracle now e Hg) as [_ ->].
      cbn. split; [constructor|lia]. }
  assert (decision = run) as ->.
  { unfold gated in Hg. destruct decision; auto;
      cbn in Hg; rewrite ?andb_false_r in Hg; discriminate. }
  destruct (tick_gated_calls oracle now e Hg) as (pnl & Hc & _).
  cbv zeta in Hc. rewrite Hc. clear Hc.
  set (position := getPosition (accountSnapshot e) (symbol (config e))).
  match goal with
  | |- context [SwingLogic.stepSwing ?st ?cfg ?input] =>
    pose proof (SwingLogicFacts.stepSwing_length st cfg input) as Hlen;
    pose proof (fun a => perform_fits position oracle
                           (set_swingState (fst (SwingLogic.stepSwing st cfg input)) e)
                           st cfg input a eq_refl eq_refl) as Hperf;
    destruct (SwingLogic.stepSwing st cfg input) as [next actions]
  end.
  cbn [fst snd] in *.
  match goal with
  | |- context [handleStopLoss ?p ?r ?n ?o ?e1] =>
    destruct (handleStopLoss_fits p r n o e1) as [Hf Hl]
  end.
  cbn [config set_swingState] in Hf.
  destruct actions as [|action [|action' rest]]; cbn [flat_map];
    [| |cbn in Hlen; lia].
  - cbn [filter app]. split; [exact Hf|lia].
  - rewrite app_nil_r.
    destruct (Hperf action (or_introl eq_refl)) as [Hp1 Hp2].
    cbn [config set_swingState] in Hp1.
    split; [apply Forall_app; auto|].
    rewrite length_app. lia.
Qed.

Local Abbreviation applyAll :=
  (applyAll getPosition getTopPrices computePositionPnl getMidOrLast
            isOrderActiveStatus).

Lemma tick_config decision oracle now e :
  config (fst (tick decision oracle now e)) = config e.
Proof.
  destruct (gated decision e) eqn:Hg.
  - assert (decision = run) as ->.
    { unfold gated in Hg. destruct decision; auto;
        cbn in Hg; rewrite ?andb_false_r in Hg; discriminate. }
    now destruct (tick_gated_calls oracle now e Hg) as (pnl & _ & _ & Hc).
  - now destruct (tick_ungated decision oracle now e Hg) as [-> _].
Qed.

Lemma tick_swingState decision oracle now e :
  swingState (fst (tick decision oracle now e)) = swingState e \/
  exists logic input,
    swingState (fst (tick decision oracle now e))
    = fst (SwingLogic.stepSwing (swingState e) logic input).
Proof.
  destruct (gated decision e) eqn:Hg.
  - assert (decision = run) as ->.
    { unfold gated in Hg. destruct decision; auto;
        cbn in Hg; rewrite ?andb_false_r in Hg; discriminate. }
    destruct (tick_gated_calls oracle now e Hg) as (pnl & _ & Hs & _).
    right. cbv zeta in Hs. eauto.
  - destruct (tick_ungated decision oracle now e Hg) as [-> _]. now left.
Qed.

(** X12. The strategy parameters are fixed for the life of the engine: no
    operation changes the symbol, the direction, the trade amount, the RSI
    thresholds, the stop-loss percentage or the slippage bound.  The price
    tick and the quantity step change only through the precision sync, and
    only to finite, strictly positive values. *)
Theorem configuration_is_stable (op : Operation) (e : Engine) :
  let c := config e in
  let c' := config (fst (apply op e)) in
  symbol c' = symbol c /\ direction c' = direction c /\
  tradeAmount c' = tradeAmount c /\
  rsiHigh c' = rsiHigh c /\ rsiLow c' = rsiLow c /\
  stopLossPct c' = stopLossPct c /\
  maxCloseSlippagePct c' = maxCloseSlippagePct c /\
  (priceTick c' = priceTick c \/
   (JS.isFinite (priceTick c') = true /\ (0 <? priceTick c') = true /\
    exists step, op = opPrecision (Some (priceTick c', step)))) /\
  (qtyStep c' = qtyStep c \/
   (JS.isFinite (qtyStep c') = true /\ (0 <? qtyStep c') = true /\
    exists tick, op = opPrecision (Some (tick, qtyStep c')))).
Proof.
  cbv zeta.
  assert (Hsame : config (fst (apply op e)) = config e ->
    let c := config e in
    let c' := config (fst (apply op e)) in
    symbol c' = symbol c /\ direction c' = direction c /\
    tradeAmount c' = tradeAmount c /\
    rsiHigh c' = rsiHigh c /\ rsiLow c' = rsiLow c /\
    stopLossPct c' = stopLossPct c /\
    maxCloseSlippagePct c' = maxCloseSlippagePct c /\
    (priceTick c' = priceTick c \/
     (JS.isFinite (priceTick c') = true /\ (0 <? priceTick c') = true /\
      exists step, op = opPrecision (Some (priceTick c', step)))) /\
    (qtyStep c' = qtyStep c \/
     (JS.isFinite (qtyStep c') = true /\ (0 <? qtyStep c') = true /\
      exists tick, op = opPrecision (Some (tick, qtyStep c'))))).
  { intros ->. cbv zeta. repeat split; auto. }
  destruct op; cbn [SwingEngine.apply fst] in *;
    try (apply Hsame; reflexivity).
  - apply Hsame. unfold start. now destruct (timer e).
  - apply Hsame. unfold stop. now destruct (timer e).
  - apply Hsame. unfold SwingEngine.onAccount.
    repeat match goal with
           | |- context [if ?b then _ else _] => destruct b
           end; reflexivity.
  - unfold onPrecision. destruct precision as [[tick step]|];
      [|apply Hsame; reflexivity].
    cbn [fst config set_config symbol direction tradeAmount rsiHigh rsiLow
         stopLossPct maxCloseSlippagePct priceTick qtyStep].
    repeat split.
    + destruct (JS.isFinite tick && (0 <? tick) && _) eqn:Ht; [|now left].
      right. apply andb_prop in Ht as [Ht _]. apply andb_prop in Ht as [H1 H2].
      repeat split; auto.
      now exists step.
    + destruct (JS.isFinite step && (0 <? step) && _) eqn:Hs'; [|now left].
      right. apply andb_prop in Hs' as [Hs' _].
      apply andb_prop in Hs' as [H1 H2].
      repeat split; auto.
      now exists tick.
  - apply Hsame. apply tick_config.
Qed.

Lemma apply_swingState op e :
  SwingLogic.reachable (swingState e) ->
  SwingLogic.reachable (swingState (fst (apply op e))).
Proof.
  intros H. destruct op; cbn [SwingEngine.apply fst]; try exact H.
  - unfold start. now destruct (timer e).
  - unfold stop. now destruct (timer e).
  - unfold SwingEngine.onAccount.
    repeat match goal with
           | |- context [if ?b then _ else _] => destruct b
           end; exact H.
  - unfold onPrecision. destruct precision as [[tick step]|]; exact H.
  - destruct (tick_swingState decision oracle now e) as [-> | (l & i & ->)];
      [exact H|]. now apply SwingLogic.reachable_step.
Qed.

(** X13. The engine only ever moves its swing state by steps of the state
    machine: starting from a state the machine can reach (the initial one,
    for a new engine), after any sequence of operations the stored state
    is one the machine can reach, so the arm flags shown to the observers
    never combine a raised entry arm with a raised exit arm. *)
Theorem engine_swing_state_is_reachable
    (ops : list Operation) (e : Engine)
    (Hstart : SwingLogic.reachable (swingState e)) :
  let state := swingState (applyAll ops e) in
  SwingLogic.reachable state /\
  (SwingLogic.armedShortEntry state || SwingLogic.armedLongEntry state = true ->
   SwingLogic.armedShortExit state = false /\
   SwingLogic.armedLongExit state = false).
Proof.
  cbv zeta.
  assert (H : SwingLogic.reachable (swingState (applyAll ops e))).
  { revert e Hstart. induction ops as [|op ops IH]; intros e Hstart;
      cbn [SwingEngine.applyAll]; [exact Hstart|].
    apply IH. now apply apply_swingState. }
  split; [exact H|].
  now apply SwingLogicFacts.reachable_entry_arm_excludes_exit_arms.
Qed.

End Ticks.

(** A ready engine holding a long entered at 100 (stop at 95, tick 0.1):
    with the price at 100 a tick places the stop order, with the price at
    95.05 it closes at market, and on a spot account it does nothing. *)
Example tick_places_the_stop_order :
  filter isCall (snd (demoTick run (fun _ => resolved) 7 (readyEngine 100)))
  = [call (placeStopLossOrder SELL 95 1 100)].
Proof. vm_compute. reflexivity. Qed.

Example tick_pulls_the_kill_switch :
  filter isCall (snd (demoTick run (fun _ => resolved) 7 (readyEngine 95.05)))
  = [call (marketClose SELL 1)].
Proof. vm_compute. reflexivity. Qed.

Lemma engine_swing_state_is_reachable_witness :
  let ops := [opTicker {| lastPrice := 99 |};
              opTick run (fun _ => resolved) 7;
              opRsiUpdate {| rsi := Some 71; isStable := true |};
              opTick run (fun _ => resolved) 8] in
  let state :=
    swingState
      (applyAll demoGetPosition demoGetTopPrices demoComputePositionPnl
         demoGetMidOrLast demoIsOrderActiveStatus ops (readyEngine 100)) in
  SwingLogic.reachable state /\
  (SwingLogic.armedShortEntry state || SwingLogic.armedLongEntry state = true ->
   SwingLogic.armedShortExit state = false /\
   SwingLogic.armedLongExit state = false).
Proof.
  exact (engine_swing_state_is_reachable demoGetPosition demoGetTopPrices
           demoComputePositionPnl demoGetMidOrLast demoIsOrderActiveStatus
           [opTicker {| lastPrice := 99 |};
            opTick run (fun _ => resolved) 7;
            opRsiUpdate {| rsi := Some 71; isStable := true |};
            opTick run (fun _ => resolved) 8]
           (readyEngine 100) SwingLogic.reachable_init).
Defined.

End SwingEngineExtras.

(* ================================================================== *)
(** ** Further properties of the depth tracker *)
(* ================================================================== *)

Module BinanceDepthExtras.

Import BinanceDepth.
Local Open Scope string_scope.
Local Open Scope list_scope.
Local Open Scope float_scope.

Ltac break_match :=
  match goal with
  | |- context [match ?x with _ => _ end] => destruct x eqn:?
  end.

Lemma mapGet_mapReplace_same k v b :
  mapHas k b = true -> mapGet k (mapReplace k v b) = Some v.
Proof.
  unfold mapGet. induction b as [|[k' v'] b IH]; cbn; [discriminate|].
  destruct (String.eqb k' k) eqn:E; cbn; rewrite E; [reflexivity|].
  exact IH.
Qed.

Lemma mapGet_mapReplace_other k k0 v b :
  k0 <> k -> mapGet k0 (mapReplace k v b) = mapGet k0 b.
Proof.
  intros Hne. unfold mapGet. induction b as [|[k' v'] b IH]; cbn; [reflexivity|].
  destruct (String.eqb k' k) eqn:E; cbn.
  - apply String.eqb_eq in E. subst k'.
    destruct (String.eqb k k0) eqn:E0; [|reflexivity].
    apply String.eqb_eq in E0. congruence.
  - destruct (String.eqb k' k0); [reflexivity|exact IH].
Qed.

Lemma mapGet_app_miss k b tail :
  mapHas k b = false -> mapGet k (b ++ tail) = mapGet k tail.
Proof.
  unfold mapGet. induction b as [|[k' v'] b IH]; cbn; [reflexivity|].
  destruct (String.eqb k' k); cbn; [discriminate|exact IH].
Qed.

Lemma mapGet_app_other k0 b k v :
  k0 <> k -> mapGet k0 (b ++ [(k, v)]) = mapGet k0 b.
Proof.
  intros Hne. unfold mapGet. induction b as [|[k' v'] b IH]; cbn.
  - destruct (String.eqb k k0) eqn:E; [|reflexivity].
    apply String.eqb_eq in E. congruence.
  - destruct (String.eqb k' k0); [reflexivity|exact IH].
Qed.

Lemma mapGet_mapSet_same k v b : mapGet k (mapSet k v b) = Some v.
Proof.
  unfold mapSet. destruct (mapHas k b) eqn:H.
  - now apply mapGet_mapReplace_same.
  - rewrite (mapGet_app_miss _ _ _ H). unfold mapGet. cbn.
    now rewrite String.eqb_refl.
Qed.

Lemma mapGet_mapSet_other k k0 v b :
  k0 <> k -> mapGet k0 (mapSet k v b) = mapGet k0 b.
Proof.
  intros Hne. unfold mapSet. destruct (mapHas k b).
  - now apply mapGet_mapReplace_other.
  - now apply mapGet_app_other.
Qed.

Lemma mapGet_mapDelete_same k b : mapGet k (mapDelete k b) = None.
Proof.
  unfold mapGet, mapDelete. induction b as [|[k' v'] b IH]; cbn; [reflexivity|].
  destruct (String.eqb k' k) eqn:E; cbn; [exact IH|]. now rewrite E.
Qed.

Lemma mapGet_mapDelete_other k k0 b :
  k0 <> k -> mapGet k0 (mapDelete k b) = mapGet k0 b.
Proof.
  intros Hne. unfold mapGet, mapDelete.
  induction b as [|[k' v'] b IH]; cbn; [reflexivity|].
  destruct (String.eqb k' k) eqn:E; cbn.
  - apply String.eqb_eq in E. subst k'.
    destruct (String.eqb k k0) eqn:E0; [|exact IH].
    apply String.eqb_eq in E0. congruence.
  - destruct (String.eqb k' k0); [reflexivity|exact IH].
Qed.

Section Levels.

Variable Number : string -> float.

Local Abbreviation applyLevel := (applyLevel Number).
Local Abbreviation applyLevels := (applyLevels Number).
Local Abbreviation accepted := (accepted Number).

(** X14. One level, read back.  A level whose price string is empty or
    does not read as a finite positive number, or whose quantity is not a
    finite non-negative number, leaves the book as it is.  An accepted
    level with quantity zero removes its price, so a lookup misses; with a
    positive quantity the lookup returns exactly that quantity; and in both
    cases every other price keeps its entry. *)
Theorem level_read_back (book : Book) (level : AsterDepthLevel) :
  let book' := applyLevel book level in
  let price := fst level in
  let qty := Number (snd level) in
  (accepted level = false -> book' = book) /\
  (accepted level = true ->
   mapGet price book' = (if JS.strictEq qty 0 then None else Some qty) /\
   forall other, other <> price -> mapGet other book' = mapGet other book).
Proof.
  cbv zeta. unfold accepted, BinanceDepth.applyLevel.
  destruct (String.eqb (fst level) ""); cbn [negb andb orb];
    [split; [reflexivity|discriminate]|].
  destruct (JS.isFinite (Number (fst level))); cbn [negb andb orb];
    [|split; [reflexivity|discriminate]].
  destruct (Number (fst level) <=? 0); cbn [negb andb orb];
    [split; [reflexivity|discriminate]|].
  destruct (JS.isFinite (Number (snd level))); cbn [negb andb orb];
    [|split; [reflexivity|discriminate]].
  destruct (Number (snd level) <? 0); cbn [negb andb orb];
    [split; [reflexivity|discriminate]|].
  split; [discriminate|]. intros _.
  destruct (JS.strictEq (Number (snd level)) 0).
  - split; [apply mapGet_mapDelete_same|].
    intros other Hne. now apply mapGet_mapDelete_other.
  - split; [apply mapGet_mapSet_same|].
    intros other Hne. now apply mapGet_mapSet_other.
Qed.

End Levels.

Section WellFormed.

Variable Number : string -> float.

Local Abbreviation applyLevel := (applyLevel Number).
Local Abbreviation applyLevels := (applyLevels Number).
Local Abbreviation applyDepthEvent := (applyDepthEvent Number).
Local Abbreviation applyBuffered := (applyBuffered Number).
Local Abbreviation emitDepthSnapshot := (emitDepthSnapshot Number).
Local Abbreviation resetOrderBook := (resetOrderBook Number).
Local Abbreviation handlePayload := (handlePayload Number).
Local Abbreviation onFetchCompleted := (onFetchCompleted Number).
Local Abbreviation apply := (apply Number).
Local Abbreviation validEntry := (validEntry Number).
Local Abbreviation validBook := (validBook Number).
Local Abbreviation wellFormed := (wellFormed Number).
Local Abbreviation reachable := (reachable Number).

Lemma MAX_BUFFER_SIZE_positive : (1 <= MAX_BUFFER_SIZE)%nat.
Proof. apply Nat.leb_le. vm_compute. reflexivity. Qed.

Local Opaque MAX_BUFFER_SIZE.

Lemma mapReplace_valid k v b :
  validEntry (k, v) -> validBook b -> validBook (mapReplace k v b).
Proof.
  intros Hv. unfold BinanceDepth.validBook.
  induction b as [|[k' v'] b IH]; cbn; [constructor|].
  intros H. inversion H as [|? ? H1 H2]; subst.
  destruct (String.eqb k' k) eqn:E.
  - apply String.eqb_eq in E. subst k'. now constructor.
  - constructor; auto.
Qed.

Lemma applyLevel_valid book level :
  validBook book -> validBook (applyLevel book level).
Proof.
  intros Hb. unfold BinanceDepth.applyLevel.
  destruct (String.eqb (fst level) "") eqn:Ek; cbn [orb]; [exact Hb|].
  destruct (JS.isFinite (Number (fst level))) eqn:Fp; cbn [negb orb];
    [|exact Hb].
  destruct (Number (fst level) <=? 0) eqn:Lp; [exact Hb|].
  destruct (JS.isFinite (Number (snd level))) eqn:Fq; cbn [negb orb];
    [|exact Hb].
  destruct (Number (snd level) <? 0) eqn:Lq; [exact Hb|].
  destruct (JS.strictEq (Number (snd level)) 0) eqn:Eq.
  - unfold mapDelete, BinanceDepth.validBook in *.
    apply Forall_forall. intros x Hx. apply filter_In in Hx as [Hx _].
    revert x Hx. now apply Forall_forall.
  - assert (Hv : validEntry (fst level, Number (snd level))).
    { unfold BinanceDepth.validEntry. cbn [fst snd].
      assert (F0 : JS.isFinite 0 = true) by reflexivity.
      repeat split; auto.
      - now apply String.eqb_neq.
      - now apply FloatOrder.leb_false_ltb.
      - apply FloatOrder.leb_neq_ltb; [|exact Eq].
        now apply FloatOrder.ltb_false_leb. }
    unfold mapSet. destruct (mapHas (fst level) book).
    + now apply mapReplace_valid.
    + unfold BinanceDepth.validBook. apply Forall_app. split; [exact Hb|].
      now constructor.
Qed.

Lemma applyLevels_valid levels book :
  validBook book -> validBook (applyLevels book levels).
Proof.
  unfold BinanceDepth.applyLevels. revert book.
  induction levels as [|level levels IH]; intros book Hb; cbn; [exact Hb|].
  apply IH. now apply applyLevel_valid.
Qed.

(** What [ensureSynced], [emitDepthSnapshot], [retryBootstrap] and
    [applyDepthEvent] leave alone. *)
Lemma ensureSynced_frame t :
  ensureSynced t = t \/
  ensureSynced t = set_syncInFlight (Some refreshing) t \/
  exists firstBuffered,
    ensureSynced t = set_syncInFlight (Some (bootstrapping 0 firstBuffered)) t.
Proof. unfold ensureSynced. repeat break_match; eauto. Qed.

Lemma emitDepthSnapshot_frame now t :
  fst (emitDepthSnapshot now t) = t \/
  exists s, fst (emitDepthSnapshot now t) = set_snapshot (Some s) t.
Proof. unfold BinanceDepth.emitDepthSnapshot. repeat break_match; cbn; eauto. Qed.

Lemma retryBootstrap_frame attempt t :
  retryBootstrap attempt t = set_syncInFlight None t \/
  exists firstBuffered,
    (S attempt < SYNC_SNAPSHOT_MAX_RETRIES)%nat /\
    retryBootstrap attempt t
    = set_syncInFlight (Some (bootstrapping (S attempt) firstBuffered)) t.
Proof.
  unfold retryBootstrap.
  destruct (Nat.ltb_spec (S attempt) SYNC_SNAPSHOT_MAX_RETRIES); [|auto].
  destruct (eventBuffer t); eauto.
Qed.

Lemma applyDepthEvent_frame event t :
  fst (applyDepthEvent event t) = t \/
  ((localLastUpdateId t <> 0 /\ localLastUpdateId t <= u event)%Z /\
   fst (applyDepthEvent event t) = updated Number event t).
Proof.
  unfold BinanceDepth.applyDepthEvent, updated.
  destruct (Z.eqb_spec (localLastUpdateId t) 0); [auto|].
  destruct (Z.ltb_spec (u event) (localLastUpdateId t)); [auto|].
  destruct (Z.ltb_spec (localLastUpdateId t + 1) (U event)); [auto|].
  right. cbn. auto.
Qed.

Ltac wf_split :=
  unfold BinanceDepth.wellFormed in *;
  repeat match goal with H : _ /\ _ |- _ => destruct H end;
  cbn [bidBook askBook eventBuffer localLastUpdateId orderBookReady
       reconnectDelayMs restConsecutiveFailures syncInFlight
       set_ws set_reconnectTimer set_reconnectDelayMs set_stopped set_started
       set_snapshot set_lastMessageTime set_connectionState set_bidBook
       set_askBook set_localLastUpdateId set_orderBookReady set_eventBuffer
       set_syncInFlight set_lastEventAt set_lastSnapshotAt set_lastRestSyncAt
       set_restConsecutiveFailures set_restLastError updateConnectionState
       List.length] in *;
  unfold RECONNECT_DELAY_BASE_MS, RECONNECT_DELAY_MAX_MS,
    SYNC_SNAPSHOT_MAX_RETRIES in *;
  repeat split; intros; auto; try lia; try discriminate;
  try (match goal with
       | H : Some _ = Some _ |- _ => inversion H; subst
       end; solve [auto | lia]).

Lemma wf_ensureSynced t : wellFormed t -> wellFormed (ensureSynced t).
Proof.
  intros H.
  destruct (ensureSynced_frame t) as [-> | [-> | [f ->]]];
    [exact H| |]; wf_split; eauto.
Qed.

Lemma wf_emit now t : wellFormed t -> wellFormed (fst (emitDepthSnapshot now t)).
Proof.
  intros H.
  destruct (emitDepthSnapshot_frame now t) as [-> | [s ->]];
    [exact H|]; wf_split; eauto.
Qed.

Lemma wf_retry attempt t : wellFormed t -> wellFormed (retryBootstrap attempt t).
Proof.
  intros H.
  destruct (retryBootstrap_frame attempt t) as [-> | (f & Hlt & ->)];
    wf_split; eauto.
Qed.

Lemma wf_applyDepthEvent event t :
  wellFormed t -> wellFormed (fst (applyDepthEvent event t)).
Proof.
  intros H.
  destruct (applyDepthEvent_frame event t) as [-> | [[Hn Hu] ->]];
    [exact H|].
  unfold updated. wf_split; eauto; now apply applyLevels_valid.
Qed.

Lemma wf_applyBuffered events t :
  wellFormed t -> wellFormed (fst (applyBuffered events t)).
Proof.
  revert t. induction events as [|event events IH]; intros t H; cbn; [exact H|].
  pose proof (wf_applyDepthEvent event t H) as H1.
  destruct (applyDepthEvent event t) as [t1 applied]. cbn [fst] in H1.
  destruct applied; [now apply IH|exact H1].
Qed.

Lemma applyBuffered_positive events t :
  (0 < localLastUpdateId t)%Z ->
  (0 < localLastUpdateId (fst (applyBuffered events t)))%Z.
Proof.
  intros H.
  pose proof (BinanceDepthFacts.applyBuffered_local Number events t). lia.
Qed.

Lemma wf_reset s now t :
  (0 < Rest.lastUpdateId s)%Z -> wellFormed t ->
  wellFormed (set_orderBookReady false (resetOrderBook s now t)) /\
  forall ready, wellFormed (set_orderBookReady ready (resetOrderBook s now t)).
Proof.
  intros Hid H. unfold BinanceDepth.resetOrderBook.
  split; [|intros ready]; wf_split; eauto;
    try (apply applyLevels_valid; constructor).
Qed.

Lemma wf_clear t : wellFormed t -> wellFormed (set_syncInFlight None t).
Proof. intros H. wf_split. Qed.

Lemma wf_finish now t :
  wellFormed t -> (0 < localLastUpdateId t)%Z ->
  wellFormed
    (fst (let '(t2, out) :=
            emitDepthSnapshot now
              (set_eventBuffer [] (set_orderBookReady true t)) in
          (set_syncInFlight None t2, out))).
Proof.
  intros H Hpos.
  assert (H1 : wellFormed (set_eventBuffer [] (set_orderBookReady true t)))
    by (wf_split; eauto).
  pose proof (wf_emit now _ H1) as H2.
  destruct (emitDepthSnapshot now _) as [t2 out]. cbn [fst] in *.
  now apply wf_clear.
Qed.

Lemma wf_fetch result now t :
  wellFormed t ->
  wellFormed (fst (fetchDepthSnapshot result now t)) /\
  forall s, snd (fetchDepthSnapshot result now t) = Some s ->
            (0 < Rest.lastUpdateId s)%Z.
Proof.
  intros H. unfold fetchDepthSnapshot.
  destruct result as [message|json]; [cbn; wf_split; eauto|].
  destruct (Z.leb_spec (Rest.lastUpdateId json) 0); cbn [fst snd];
    wf_split; eauto.
Qed.

Lemma wf_handlePayload parsed now t :
  wellFormed t -> wellFormed (fst (handlePayload parsed now t)).
Proof.
  intros H. unfold BinanceDepth.handlePayload.
  destruct parsed as [event|]; [|exact H].
  destruct (orderBookReady t) eqn:Er; cbn [negb].
  - pose proof (wf_applyDepthEvent event t H) as H1.
    destruct (applyDepthEvent event t) as [t1 applied]. cbn [fst] in H1.
    destruct applied; cbn [negb]; [now apply wf_emit|].
    cbn [fst]. apply wf_ensureSynced.
    pose proof MAX_BUFFER_SIZE_positive. wf_split; eauto.
  - cbn [fst]. apply wf_ensureSynced.
    assert (L : (List.length
                   (if (MAX_BUFFER_SIZE <? List.length (eventBuffer t ++ [event]))%nat
                    then skipn (List.length (eventBuffer t ++ [event])
                                - MAX_BUFFER_SIZE) (eventBuffer t ++ [event])
                    else eventBuffer t ++ [event]) <= MAX_BUFFER_SIZE)%nat).
    { destruct (Nat.ltb_spec MAX_BUFFER_SIZE
                  (List.length (eventBuffer t ++ [event]))); [|lia].
      rewrite length_skipn. lia. }
    wf_split; eauto.
Qed.

Lemma wf_onFetchCompleted result now t :
  wellFormed t -> wellFormed (fst (onFetchCompleted result now t)).
Proof.
  intros H. unfold BinanceDepth.onFetchCompleted.
  destruct (syncInFlight t) as [task|]; [|exact H].
  destruct (wf_fetch result now t H) as [Hf Hpos].
  destruct (fetchDepthSnapshot result now t) as [t1 fetched].
  cbn [fst snd] in Hf, Hpos.
  destruct fetched as [s|]; [|now apply wf_clear].
  specialize (Hpos s eq_refl).
  destruct (wf_reset s now t1 Hpos Hf) as [_ Hr].
  assert (Hl : (0 < localLastUpdateId (resetOrderBook s now t1))%Z)
    by (unfold BinanceDepth.resetOrderBook; cbn; exact Hpos).
  assert (Hw : wellFormed (resetOrderBook s now t1)).
  { unfold BinanceDepth.resetOrderBook in *. wf_split; eauto;
      apply applyLevels_valid; constructor. }
  destruct task as [attempt firstBuffered|].
  - destruct (Rest.lastUpdateId s <? U firstBuffered)%Z;
      [now apply wf_retry|].
    cbv zeta.
    destruct (filter _ (eventBuffer (resetOrderBook s now t1)))
      as [|nextEvent rest] eqn:Eb; [now apply wf_finish|].
    destruct (_ || _); [cbn [fst]; now apply wf_retry|].
    pose proof (wf_applyBuffered (nextEvent :: rest) _ Hw) as Ha.
    pose proof (applyBuffered_positive (nextEvent :: rest) _ Hl) as Hp.
    destruct (applyBuffered (nextEvent :: rest) (resetOrderBook s now t1))
      as [t2 ok].
    cbn [fst] in Ha, Hp.
    destruct ok; [now apply wf_finish|cbn [fst]; now apply wf_retry].
  - destruct (Rest.lastUpdateId s <? localLastUpdateId t1)%Z;
      [now apply wf_clear|].
    pose proof (wf_emit now _ (Hr true)) as He.
    destruct (emitDepthSnapshot now _) as [t2 out]. cbn [fst] in *.
    now apply wf_clear.
Qed.

Lemma wf_apply op t : wellFormed t -> wellFormed (fst (apply op t)).
Proof.
  intros H.
  destruct op as [| |now| | |now|parsed now|now| | | |result now];
    cbn [BinanceDepth.apply fst];
    try (now apply wf_onFetchCompleted).
  - unfold start, connect. repeat break_match; wf_split; eauto.
  - unfold stop, cleanup. wf_split; eauto.
  - unfold handleOpen. wf_split; eauto.
  - unfold handleClose, scheduleReconnect. repeat break_match; wf_split; eauto.
  - unfold handleError, scheduleReconnect. repeat break_match; wf_split; eauto.
  - unfold handlePing. wf_split; eauto.
  - unfold BinanceDepth.handleMessage. apply wf_handlePayload.
    repeat break_match; wf_split; eauto.
  - unfold onHeartbeat, forceReconnect, scheduleReconnect.
    repeat break_match; wf_split; eauto.
  - unfold onMaxDuration, forceReconnect, scheduleReconnect.
    repeat break_match; wf_split; eauto.
  - unfold onReconnectTimer, connect. repeat break_match; wf_split; eauto.
  - unfold BinanceDepth.onRefreshTimer.
    break_match; [exact H|now apply wf_ensureSynced].
Qed.

Lemma wf_create sym ratio windowBps : wellFormed (create sym ratio windowBps).
Proof.
  unfold create. wf_split; try constructor; try discriminate.
Qed.

Lemma reachable_wellFormed t : reachable t -> wellFormed t.
Proof.
  induction 1 as [sym ratio windowBps|op t _ IH];
    [apply wf_create|now apply wf_apply].
Qed.

(** X15. Whatever the exchange sends, every level kept in either side of
    the book has a non-empty price string that reads as a finite positive
    number, and a finite positive quantity: [applyLevels] is the only
    writer and refuses or deletes everything else. *)
Theorem stored_levels_are_valid (t : Tracker) (price : string) (qty : float)
    (Hreach : reachable t)
    (Hin : In (price, qty) (bidBook t) \/ In (price, qty) (askBook t)) :
  String.eqb price "" = false /\
  JS.isFinite (Number price) = true /\ (0 <? Number price) = true /\
  JS.isFinite qty = true /\ (0 <? qty) = true.
Proof.
  destruct (reachable_wellFormed t Hreach) as (Hb & Ha & _).
  assert (Hv : validEntry (price, qty)).
  { destruct Hin as [Hin|Hin];
      [revert Hin; now apply Forall_forall
      |revert Hin; now apply Forall_forall]. }
  destruct Hv as (Hk & Hv). cbn [fst snd] in *.
  split; [now apply String.eqb_neq|exact Hv].
Qed.

(** X16. The buffer of events waiting for a bootstrap never holds more
    than [MAX_BUFFER_SIZE] events. *)
Theorem event_buffer_is_bounded (t : Tracker) (Hreach : reachable t) :
  (List.length (eventBuffer t) <= MAX_BUFFER_SIZE)%nat.
Proof.
  destruct (reachable_wellFormed t Hreach) as (_ & _ & Hbuffer & _).
  exact Hbuffer.
Qed.

(** X17. [localLastUpdateId] is never negative, and a book marked ready
    carries the positive update id of a REST snapshot or of a later
    event. *)
Theorem ready_book_has_an_update_id (t : Tracker) (Hreach : reachable t) :
  (0 <= localLastUpdateId t)%Z /\
  (orderBookReady t = true -> 0 < localLastUpdateId t)%Z.
Proof.
  destruct (reachable_wellFormed t Hreach) as (_ & _ & _ & H1 & H2 & _).
  now split.
Qed.

(** X18. The reconnect delay stays between [RECONNECT_DELAY_BASE_MS] and
    [RECONNECT_DELAY_MAX_MS], however often the reconnect timer doubles
    it, and the count of consecutive REST failures is never negative. *)
Theorem reconnect_delay_is_bounded (t : Tracker) (Hreach : reachable t) :
  (RECONNECT_DELAY_BASE_MS <= reconnectDelayMs t <= RECONNECT_DELAY_MAX_MS)%Z /\
  (0 <= restConsecutiveFailures t)%Z.
Proof.
  destruct (reachable_wellFormed t Hreach)
    as (_ & _ & _ & _ & _ & H1 & H2 & _).
  now split.
Qed.

End WellFormed.

Lemma stored_levels_are_valid_witness :
  String.eqb "100" "" = false /\
  JS.isFinite (JS.decimalNumber "100") = true /\
  (0 <? JS.decimalNumber "100") = true /\
  JS.isFinite 1 = true /\ (0 <? 1) = true.
Proof.
  apply (stored_levels_are_valid JS.decimalNumber bootstrapped "100" 1).
  - exact BinanceDepthFacts.bootstrapped_reachable.
  - left. vm_compute. left. reflexivity.
Defined.

Lemma event_buffer_is_bounded_witness :
  let t := applyAll JS.decimalNumber
             [opStart; opOpen 0; opMessage (Some event_5_7) 1;
              opMessage (Some event_9_10) 2]
             (create "BTCUSDT" None None) in
  eventBuffer t = [event_5_7; event_9_10] /\
  (List.length (eventBuffer t) <= MAX_BUFFER_SIZE)%nat.
Proof.
  cbv zeta. split; [vm_compute; reflexivity|].
  apply (event_buffer_is_bounded JS.decimalNumber).
  cbn [applyAll]. repeat apply reachable_apply. apply reachable_create.
Defined.

Lemma ready_book_has_an_update_id_witness :
  (0 <= localLastUpdateId bootstrapped)%Z /\
  (orderBookReady bootstrapped = true -> 0 < localLastUpdateId bootstrapped)%Z.
Proof.
  exact (ready_book_has_an_update_id JS.decimalNumber bootstrapped
           BinanceDepthFacts.bootstrapped_reachable).
Defined.

Lemma reconnect_delay_is_bounded_witness :
  let t := applyAll JS.decimalNumber
             [opStart; opClose; opReconnectTimer; opClose; opReconnectTimer]
             (create "BTCUSDT" None None) in
  reconnectDelayMs t = 12000%Z /\
  (RECONNECT_DELAY_BASE_MS <= reconnectDelayMs t <= RECONNECT_DELAY_MAX_MS)%Z /\
  (0 <= restConsecutiveFailures t)%Z.
Proof.
  cbv zeta. split; [vm_compute; reflexivity|].
  apply (reconnect_delay_is_bounded JS.decimalNumber).
  cbn [applyAll]. repeat apply reachable_apply. apply reachable_create.
Defined.

(** X19. The health of a started tracker: it is healthy exactly when the
    socket is connected, the book is ready, the last snapshot is fresh and
    the REST failures are below the threshold; healthy means no reason is
    given; a healthy tracker has published a snapshot at most
    [DATA_STALE_THRESHOLD_MS] ago; and a socket that is not connected is
    the reason reported before any other. *)
Theorem started_health_is_a_conjunction (now : Z) (t : Tracker)
    (Hstarted : started t = true) :
  let h := getHealth now t in
  Health.healthy h
  = (isConnected (connectionState t) && orderBookReady t &&
     negb (isDataStale now t) &&
     (restConsecutiveFailures t <? REST_FAILURE_DEFENSE_THRESHOLD)%Z) /\
  (Health.healthy h = true <-> Health.reason h = None) /\
  (Health.healthy h = true ->
   exists s, snapshot t = Some s /\
             (now - Snapshot.updatedAt s <= DATA_STALE_THRESHOLD_MS)%Z) /\
  (isConnected (connectionState t) = false ->
   Health.reason h
   = Some ("ws_" ++ connectionName (connectionState t))%string).
Proof.
  cbv zeta. unfold getHealth. rewrite Hstarted. cbn [negb].
  cbn [Health.healthy Health.reason].
  assert (Hstale : isDataStale now t = false ->
                   exists s, snapshot t = Some s /\
                     (now - Snapshot.updatedAt s <= DATA_STALE_THRESHOLD_MS)%Z).
  { unfold isDataStale. destruct (snapshot t) as [s|]; [|discriminate].
    intros H. exists s. split; [reflexivity|].
    now apply Z.ltb_ge. }
  destruct (isConnected (connectionState t)); cbn [negb andb];
    [|repeat split; intros; try discriminate; reflexivity].
  destruct (orderBookReady t); cbn [negb andb];
    [|repeat split; intros; discriminate].
  destruct (isDataStale now t); cbn [negb andb];
    [repeat split; intros; discriminate|].
  destruct (restConsecutiveFailures t <? REST_FAILURE_DEFENSE_THRESHOLD)%Z;
    cbn [negb].
  - repeat split; intros; auto; discriminate.
  - destruct (restLastError t) as [[|c m]|];
      repeat split; intros; discriminate.
Qed.

Lemma started_health_is_a_conjunction_witness :
  let h := getHealth 3 bootstrapped in
  Health.healthy h
  = (isConnected (connectionState bootstrapped) && orderBookReady bootstrapped &&
     negb (isDataStale 3 bootstrapped) &&
     (restConsecutiveFailures bootstrapped <? REST_FAILURE_DEFENSE_THRESHOLD)%Z) /\
  (Health.healthy h = true <-> Health.reason h = None) /\
  (Health.healthy h = true ->
   exists s, snapshot bootstrapped = Some s /\
             (3 - Snapshot.updatedAt s <= DATA_STALE_THRESHOLD_MS)%Z) /\
  (isConnected (connectionState bootstrapped) = false ->
   Health.reason h
   = Some ("ws_" ++ connectionName (connectionState bootstrapped))%string).
Proof.
  apply (started_health_is_a_conjunction 3 bootstrapped).
  vm_compute. reflexivity.
Defined.

Section Behaviour.

Variable Number : string -> float.

Local Abbreviation applyDepthEvent := (applyDepthEvent Number).
Local Abbreviation applyBuffered := (applyBuffered Number).
Local Abbreviation emitDepthSnapshot := (emitDepthSnapshot Number).
Local Abbreviation resetOrderBook := (resetOrderBook Number).
Local Abbreviation handlePayload := (handlePayload Number).
Local Abbreviation handleMessage := (handleMessage Number).
Local Abbreviation onFetchCompleted := (onFetchCompleted Number).
Local Abbreviation apply := (apply Number).
Local Abbreviation applyAll := (applyAll Number).
Local Abbreviation reachable := (reachable Number).

Local Opaque MAX_BUFFER_SIZE.

Lemma sob_refl t : sameOutsideBook t t.
Proof. unfold sameOutsideBook. repeat split. Qed.

Lemma sob_trans t1 t2 t3 :
  sameOutsideBook t1 t2 -> sameOutsideBook t2 t3 -> sameOutsideBook t1 t3.
Proof.
  unfold sameOutsideBook.
  intros (A1 & A2 & A3 & A4 & A5 & A6 & A7) (B1 & B2 & B3 & B4 & B5 & B6 & B7).
  repeat split; congruence.
Qed.

Lemma sob_ensureSynced t : sameOutsideBook t (ensureSynced t).
Proof.
  destruct (ensureSynced_frame t) as [-> | [-> | [f ->]]];
    unfold sameOutsideBook; cbn; repeat split.
Qed.

Lemma sob_emit now t : sameOutsideBook t (fst (emitDepthSnapshot now t)).
Proof.
  destruct (emitDepthSnapshot_frame Number now t) as [-> | [s ->]];
    unfold sameOutsideBook; cbn; repeat split.
Qed.

Lemma sob_retry attempt t : sameOutsideBook t (retryBootstrap attempt t).
Proof.
  destruct (retryBootstrap_frame attempt t) as [-> | (f & _ & ->)];
    unfold sameOutsideBook; cbn; repeat split.
Qed.

Lemma sob_applyDepthEvent event t :
  sameOutsideBook t (fst (applyDepthEvent event t)).
Proof.
  destruct (applyDepthEvent_frame Number event t) as [-> | [_ ->]];
    unfold sameOutsideBook, updated; cbn; repeat split.
Qed.

Lemma sob_applyBuffered events t :
  sameOutsideBook t (fst (applyBuffered events t)).
Proof.
  revert t. induction events as [|event events IH]; intros t; cbn;
    [apply sob_refl|].
  pose proof (sob_applyDepthEvent event t) as H1.
  destruct (applyDepthEvent event t) as [t1 applied]. cbn [fst] in H1.
  destruct applied; [|exact H1].
  exact (sob_trans _ _ _ H1 (IH t1)).
Qed.

Lemma sob_reset s now t : sameOutsideBook t (resetOrderBook s now t).
Proof. unfold sameOutsideBook, BinanceDepth.resetOrderBook. cbn. repeat split. Qed.

Lemma sob_finish now t :
  sameOutsideBook t
    (fst (let '(t2, out) :=
            emitDepthSnapshot now
              (set_eventBuffer [] (set_orderBookReady true t)) in
          (set_syncInFlight None t2, out))).
Proof.
  pose proof (sob_emit now (set_eventBuffer [] (set_orderBookReady true t))) as H.
  destruct (emitDepthSnapshot now _) as [t2 out]. cbn [fst] in *.
  unfold sameOutsideBook in *. cbn in *. exact H.
Qed.

Lemma sob_handlePayload parsed now t :
  sameOutsideBook t (fst (handlePayload parsed now t)).
Proof.
  unfold BinanceDepth.handlePayload.
  destruct parsed as [event|]; [|apply sob_refl].
  destruct (orderBookReady t); cbn [negb].
  - pose proof (sob_applyDepthEvent event t) as H1.
    destruct (applyDepthEvent event t) as [t1 applied]. cbn [fst] in H1.
    destruct applied; cbn [negb fst].
    + exact (sob_trans _ _ _ H1 (sob_emit now t1)).
    + refine (sob_trans _ _ _ H1 (sob_trans _ _ _ _ (sob_ensureSynced _))).
      unfold sameOutsideBook. cbn. repeat split.
  - cbn [fst]. refine (sob_trans _ _ _ _ (sob_ensureSynced _)).
    unfold sameOutsideBook.
    cbn [stopped started ws reconnectTimer restConsecutiveFailures
         restLastError lastRestSyncAt set_eventBuffer].
    repeat split.
Qed.

(** After the bookkeeping of [fetchDepthSnapshot], the resumed task writes
    nothing outside the book. *)
Lemma sob_onFetchCompleted result now t task :
  syncInFlight t = Some task ->
  sameOutsideBook (fst (fetchDepthSnapshot result now t))
    (fst (onFetchCompleted result now t)).
Proof.
  intros Ht. unfold BinanceDepth.onFetchCompleted. rewrite Ht.
  destruct (fetchDepthSnapshot result now t) as [t1 fetched]. cbn [fst].
  assert (Hclear : forall x, sameOutsideBook x (set_syncInFlight None x))
    by (intros x; unfold sameOutsideBook; cbn; repeat split).
  destruct fetched as [s|]; [|apply Hclear].
  destruct task as [attempt firstBuffered|].
  - destruct (Rest.lastUpdateId s <? U firstBuffered)%Z; [apply sob_retry|].
    cbv zeta.
    destruct (filter _ (eventBuffer (resetOrderBook s now t1)))
      as [|nextEvent rest].
    + exact (sob_trans _ _ _ (sob_reset s now t1) (sob_finish now _)).
    + destruct (_ || _); cbn [fst].
      * exact (sob_trans _ _ _ (sob_reset s now t1) (sob_retry _ _)).
      * pose proof (sob_applyBuffered (nextEvent :: rest)
                      (resetOrderBook s now t1)) as Ha.
        destruct (applyBuffered (nextEvent :: rest) (resetOrderBook s now t1))
          as [t2 ok].
        cbn [fst] in Ha.
        destruct ok.
        -- exact (sob_trans _ _ _ (sob_reset s now t1)
                    (sob_trans _ _ _ Ha (sob_finish now t2))).
        -- exact (sob_trans _ _ _ (sob_reset s now t1)
                    (sob_trans _ _ _ Ha (sob_retry _ _))).
  - destruct (Rest.lastUpdateId s <? localLastUpdateId t1)%Z; [apply Hclear|].
    pose proof (sob_emit now (set_orderBookReady true (resetOrderBook s now t1)))
      as He.
    destruct (emitDepthSnapshot now _) as [t2 out]. cbn [fst] in *.
    unfold sameOutsideBook in *. cbn in *. exact He.
Qed.

Lemma sync_emit now t :
  syncInFlight (fst (emitDepthSnapshot now t)) = syncInFlight t.
Proof.
  now destruct (emitDepthSnapshot_frame Number now t) as [-> | [s ->]].
Qed.

Lemma sync_applyDepthEvent event t :
  syncInFlight (fst (applyDepthEvent event t)) = syncInFlight t.
Proof.
  now destruct (applyDepthEvent_frame Number event t) as [-> | [_ ->]].
Qed.

Lemma ensureSynced_stopped t : stopped t = true -> ensureSynced t = t.
Proof.
  intros H. unfold ensureSynced. rewrite H. now destruct (syncInFlight t).
Qed.

Lemma forceReconnect_stopped t :
  stopped t = true ->
  stopped (forceReconnect t) = true /\
  started (forceReconnect t) = started t /\
  ws (forceReconnect t) = false /\
  reconnectTimer (forceReconnect t) = reconnectTimer t /\
  syncInFlight (forceReconnect t) = syncInFlight t.
Proof.
  intros H. unfold forceReconnect, scheduleReconnect. cbn.
  rewrite H, orb_true_r. cbn. auto.
Qed.

(** While stopped, no operation but [start] opens a socket, arms the
    reconnect timer or suspends a new task on a REST fetch. *)
Lemma offline_apply op t :
  op <> opStart ->
  stopped t = true /\ started t = false /\ ws t = false /\
  reconnectTimer t = false ->
  (stopped (fst (apply op t)) = true /\ started (fst (apply op t)) = false /\
   ws (fst (apply op t)) = false /\ reconnectTimer (fst (apply op t)) = false) /\
  (syncInFlight t = None -> syncInFlight (fst (apply op t)) = None).
Proof.
  intros Hop (H1 & H2 & H3 & H4).
  destruct op as [| |now| | |now|parsed now|now| | | |result now];
    cbn [BinanceDepth.apply fst]; try congruence.
  - unfold stop, cleanup. cbn. auto.
  - unfold handleOpen. cbn. auto.
  - unfold handleClose, scheduleReconnect. cbn. rewrite H1. cbn. auto.
  - unfold handleError. rewrite H3. cbn. auto.
  - unfold handlePing. cbn. auto.
  - unfold BinanceDepth.handleMessage.
    set (t0 := match connectionState _ with stale => _ | _ => _ end).
    assert (H0 : (stopped t0 = true /\ started t0 = false /\ ws t0 = false /\
                  reconnectTimer t0 = false) /\
                 syncInFlight t0 = syncInFlight t).
    { subst t0. cbn [connectionState set_lastEventAt set_lastMessageTime].
      destruct (connectionState t); cbn; auto. }
    destruct H0 as ((A1 & A2 & A3 & A4) & A5).
    destruct (sob_handlePayload parsed now t0) as (B1 & B2 & B3 & B4 & _).
    split; [repeat split; congruence|].
    intros Hs. rewrite <- A5 in Hs.
    unfold BinanceDepth.handlePayload.
    destruct parsed as [event|]; [|exact Hs].
    destruct (orderBookReady t0); cbn [negb].
    + pose proof (sync_applyDepthEvent event t0) as S1.
      pose proof (sob_applyDepthEvent event t0) as (C1 & _).
      destruct (applyDepthEvent event t0) as [t1 applied].
      cbn [fst] in S1, C1.
      destruct applied; cbn [negb fst].
      * rewrite sync_emit. congruence.
      * rewrite ensureSynced_stopped; cbn; congruence.
    + cbn [fst]. rewrite ensureSynced_stopped; cbn; congruence.
  - unfold onHeartbeat.
    set (t0 := if (_ && _)%bool then _ else t).
    assert (H0 : stopped t0 = true /\ started t0 = false /\
                 reconnectTimer t0 = false /\ ws t0 = false /\
                 syncInFlight t0 = syncInFlight t)
      by (subst t0; break_match; cbn; auto).
    destruct H0 as (A1 & A2 & A3 & A4 & A5).
    destruct (forceReconnect_stopped t0 A1) as (B1 & B2 & B3 & B4 & B5).
    break_match; repeat split; congruence.
  - unfold onMaxDuration.
    destruct (forceReconnect_stopped t H1) as (B1 & B2 & B3 & B4 & B5).
    repeat split; congruence.
  - unfold onReconnectTimer, connect. cbn. rewrite H1.
    rewrite orb_true_r. cbn. auto.
  - unfold BinanceDepth.onRefreshTimer. rewrite H1, H2. cbn. auto.
  - destruct (syncInFlight t) as [task|] eqn:Et.
    + destruct (sob_onFetchCompleted result now t task Et)
        as (B1 & B2 & B3 & B4 & _).
      split; [|discriminate].
      assert (F : stopped (fst (fetchDepthSnapshot result now t)) = stopped t /\
                  started (fst (fetchDepthSnapshot result now t)) = started t /\
                  ws (fst (fetchDepthSnapshot result now t)) = ws t /\
                  reconnectTimer (fst (fetchDepthSnapshot result now t))
                  = reconnectTimer t).
      { unfold fetchDepthSnapshot. repeat break_match; cbn; auto. }
      destruct F as (F1 & F2 & F3 & F4).
      repeat split; congruence.
    + unfold BinanceDepth.onFetchCompleted. rewrite Et. cbn. auto.
Qed.

Lemma offline_applyAll ops t :
  Forall (fun op => op <> opStart) ops ->
  stopped t = true /\ started t = false /\ ws t = false /\
  reconnectTimer t = false ->
  (stopped (applyAll ops t) = true /\ started (applyAll ops t) = false /\
   ws (applyAll ops t) = false /\ reconnectTimer (applyAll ops t) = false) /\
  (syncInFlight t = None -> syncInFlight (applyAll ops t) = None).
Proof.
  revert t. induction ops as [|op ops IH]; intros t Hops Hoff; cbn [BinanceDepth.applyAll].
  - split; [exact Hoff|auto].
  - inversion Hops as [|? ? Hop Hrest]; subst.
    destruct (offline_apply op t Hop Hoff) as [Hoff1 Hsync1].
    destruct (IH _ Hrest Hoff1) as [Hoff2 Hsync2].
    split; [exact Hoff2|auto].
Qed.

(** X20. Once [stop] is called, and until [start] is called again, the
    tracker stays stopped, opens no socket and arms no reconnect timer,
    whatever else happens to it (late socket events, timers, messages,
    REST responses); and when no REST sync was under way, none begins. *)
Theorem stopped_tracker_stays_offline (ops : list Operation) (t : Tracker)
    (Hops : Forall (fun op => op <> opStart) ops) :
  let t' := applyAll ops (stop t) in
  stopped t' = true /\ started t' = false /\ ws t' = false /\
  reconnectTimer t' = false /\
  (syncInFlight t = None -> syncInFlight t' = None).
Proof.
  cbv zeta.
  assert (Hoff : stopped (stop t) = true /\ started (stop t) = false /\
                 ws (stop t) = false /\ reconnectTimer (stop t) = false)
    by (unfold stop, cleanup; cbn; auto).
  destruct (offline_applyAll ops (stop t) Hops Hoff)
    as [(H1 & H2 & H3 & H4) Hsync].
  repeat split; auto.
Qed.

(** The buffer after [push] and [splice] still ends with the new event. *)
Lemma trimmed_buffer_keeps_newest (buffer : list DepthUpdateEvent) event :
  exists older,
    (if (MAX_BUFFER_SIZE <? List.length (buffer ++ [event]))%nat
     then skipn (List.length (buffer ++ [event]) - MAX_BUFFER_SIZE)
            (buffer ++ [event])
     else buffer ++ [event]) = older ++ [event].
Proof.
  destruct (MAX_BUFFER_SIZE <? List.length (buffer ++ [event]))%nat;
    [|now exists buffer].
  exists (skipn (List.length (buffer ++ [event]) - MAX_BUFFER_SIZE) buffer).
  rewrite skipn_app. f_equal.
  pose proof MAX_BUFFER_SIZE_positive.
  replace (List.length (buffer ++ [event]) - MAX_BUFFER_SIZE
           - List.length buffer)%nat with 0%nat
    by (rewrite length_app; cbn [List.length]; lia).
  reflexivity.
Qed.

(** X21. While the book is not ready, a live event is only buffered: the
    book, [localLastUpdateId] and the last snapshot are untouched, nothing
    is published, the event is the newest of the buffer, and a started
    tracker with no sync under way begins a bootstrap from the oldest
    buffered event. *)
Theorem unready_tracker_buffers (event : DepthUpdateEvent) (now : Z)
    (t : Tracker) (Hunready : orderBookReady t = false) :
  let r := handleMessage (Some event) now t in
  snd r = [] /\
  bidBook (fst r) = bidBook t /\ askBook (fst r) = askBook t /\
  localLastUpdateId (fst r) = localLastUpdateId t /\
  snapshot (fst r) = snapshot t /\
  orderBookReady (fst r) = false /\
  (exists older, eventBuffer (fst r) = older ++ [event]) /\
  (syncInFlight t = None -> started t = true -> stopped t = false ->
   exists firstBuffered,
     hd_error (eventBuffer (fst r)) = Some firstBuffered /\
     syncInFlight (fst r) = Some (bootstrapping 0 firstBuffered)).
Proof.
  cbv zeta. unfold BinanceDepth.handleMessage.
  set (t0 := match connectionState _ with stale => _ | _ => _ end).
  assert (H0 : orderBookReady t0 = false /\ bidBook t0 = bidBook t /\
               askBook t0 = askBook t /\
               localLastUpdateId t0 = localLastUpdateId t /\
               snapshot t0 = snapshot t /\ eventBuffer t0 = eventBuffer t /\
               syncInFlight t0 = syncInFlight t /\ started t0 = started t /\
               stopped t0 = stopped t).
  { subst t0. cbn [connectionState set_lastEventAt set_lastMessageTime].
    destruct (connectionState t); cbn; repeat split; auto. }
  destruct H0 as (A1 & A2 & A3 & A4 & A5 & A6 & A7 & A8 & A9).
  unfold BinanceDepth.handlePayload. rewrite A1. cbn [negb]. cbv zeta.
  destruct (trimmed_buffer_keeps_newest (eventBuffer t0) event) as [older E].
  rewrite E. cbn [fst snd].
  split; [reflexivity|].
  unfold ensureSynced.
  cbn [syncInFlight stopped started orderBookReady eventBuffer set_eventBuffer].
  rewrite A1. cbn [negb].
  destruct (syncInFlight t0) eqn:Es.
  { cbn [bidBook askBook localLastUpdateId snapshot orderBookReady eventBuffer
         syncInFlight set_eventBuffer].
    rewrite Es.
    repeat split; auto; [now exists older|congruence]. }
  destruct (stopped t0) eqn:Est; cbn [orb].
  { cbn [bidBook askBook localLastUpdateId snapshot orderBookReady eventBuffer
         syncInFlight set_eventBuffer].
    repeat split; auto; [now exists older|congruence]. }
  destruct (started t0) eqn:Esd; cbn [negb].
  2:{ cbn [bidBook askBook localLastUpdateId snapshot orderBookReady eventBuffer
           syncInFlight set_eventBuffer].
      repeat split; auto; [now exists older|congruence]. }
  assert (Hhd : exists f rest, older ++ [event] = f :: rest)
    by (destruct older; cbn; eauto).
  destruct Hhd as (f & rest & Hhd). rewrite Hhd.
  cbn [bidBook askBook localLastUpdateId snapshot orderBookReady eventBuffer
       syncInFlight set_eventBuffer set_syncInFlight hd_error].
  repeat split; auto; [now exists older|intros _ _ _; now exists f].
Qed.

Lemma started_healthy_closed_form (now : Z) (t : Tracker) :
  started t = true ->
  Health.healthy (getHealth now t)
  = (isConnected (connectionState t) && orderBookReady t &&
     negb (isDataStale now t) &&
     (restConsecutiveFailures t <? REST_FAILURE_DEFENSE_THRESHOLD)%Z) /\
  Health.restHealthy (getHealth now t)
  = (restConsecutiveFailures t <? REST_FAILURE_DEFENSE_THRESHOLD)%Z.
Proof.
  intros Hs. unfold getHealth. rewrite Hs. cbn [negb].
  cbn [Health.healthy Health.restHealthy].
  split; [|reflexivity].
  destruct (isConnected (connectionState t)), (orderBookReady t),
    (isDataStale now t),
    (restConsecutiveFailures t <? REST_FAILURE_DEFENSE_THRESHOLD)%Z;
    cbn; try reflexivity.
  now destruct (restLastError t) as [[|c m]|].
Qed.

(** X22. The REST bookkeeping of a sync.  A failed fetch (request failed,
    or no positive [lastUpdateId]) ends the sync, adds one to the count of
    consecutive failures, records the error, publishes nothing and leaves
    the book, [localLastUpdateId], the ready flag and the buffer as they
    were; from then on a started tracker reports itself unhealthy.  A
    fetch that succeeds resets the count and the error and stamps
    [lastRestSyncAt], whatever the sync then does with the snapshot. *)
Theorem rest_failure_is_counted (result : FetchResult) (now : Z) (t : Tracker)
    (task : SyncTask)
    (Hreach : reachable t) (Htask : syncInFlight t = Some task) :
  let r := onFetchCompleted result now t in
  (fetchFails result = true ->
   snd r = [] /\ syncInFlight (fst r) = None /\
   restConsecutiveFailures (fst r) = (restConsecutiveFailures t + 1)%Z /\
   (exists message, restLastError (fst r) = Some message) /\
   bidBook (fst r) = bidBook t /\ askBook (fst r) = askBook t /\
   localLastUpdateId (fst r) = localLastUpdateId t /\
   orderBookReady (fst r) = orderBookReady t /\
   eventBuffer (fst r) = eventBuffer t /\
   (started t = true ->
    forall later, Health.healthy (getHealth later (fst r)) = false)) /\
  (fetchFails result = false ->
   restConsecutiveFailures (fst r) = 0%Z /\ restLastError (fst r) = None /\
   lastRestSyncAt (fst r) = now /\
   (started t = true ->
    forall later, Health.restHealthy (getHealth later (fst r)) = true)).
Proof.
  cbv zeta.
  destruct (reachable_wellFormed Number t Hreach)
    as (_ & _ & _ & _ & _ & _ & Hfail & _).
  destruct (sob_onFetchCompleted result now t task Htask)
    as (_ & S2 & _ & _ & S5 & S6 & S7).
  split; intros Hf.
  - assert (E : exists message,
               fetchDepthSnapshot result now t
               = (set_restLastError (Some message)
                    (set_restConsecutiveFailures
                       (restConsecutiveFailures t + 1) t), None)).
    { unfold fetchDepthSnapshot.
      destruct result as [message|json]; cbn [fetchFails] in Hf;
        [now exists message|].
      rewrite Hf. now eexists. }
    destruct E as [message E].
    unfold BinanceDepth.onFetchCompleted. rewrite Htask, E.
    cbn [fst snd]. cbn.
    repeat split; auto; [now exists message|].
    intros Hs later.
    match goal with
    | |- Health.healthy (getHealth later ?x) = false =>
      destruct (started_healthy_closed_form later x Hs) as [-> _]
    end.
    cbn [restConsecutiveFailures set_syncInFlight set_restLastError
         set_restConsecutiveFailures].
    replace (restConsecutiveFailures t + 1 <? REST_FAILURE_DEFENSE_THRESHOLD)%Z
      with false
      by (symmetry; apply Z.ltb_ge; unfold REST_FAILURE_DEFENSE_THRESHOLD; lia).
    apply andb_false_r.
  - assert (E : exists json,
               fetchDepthSnapshot result now t
               = (set_restLastError None
                    (set_restConsecutiveFailures 0 (set_lastRestSyncAt now t)),
                  Some json)).
    { unfold fetchDepthSnapshot.
      destruct result as [message|json]; cbn [fetchFails] in Hf;
        [discriminate|].
      rewrite Hf. now exists json. }
    destruct E as [json E]. rewrite E in S2, S5, S6, S7.
    cbn in S2, S5, S6, S7.
    repeat split; auto.
    intros Hs later.
    assert (Hs' : started (fst (onFetchCompleted result now t)) = true)
      by congruence.
    destruct (started_healthy_closed_form later _ Hs') as [_ ->].
    rewrite S5. reflexivity.
Qed.

(** X23. The imbalance label of a published snapshot and its skip flags
    agree: buy-dominant exactly when the bids outweigh the asks by the
    ratio, and then the sell side is skipped; sell-dominant exactly when
    that fails and the asks outweigh the bids, and then the buy side is
    skipped; when balanced a side is skipped only for an empty sum. *)
Theorem imbalance_agrees_with_skip_flags
    (op : Operation) (t : Tracker) (s : Snapshot.BinanceDepthSnapshot)
    (Hpublished : In s (snd (apply op t))) :
  let R := ratioOf t in
  (Snapshot.imbalance s = buy_dominant <->
   (Snapshot.sellSum s * R <? Snapshot.buySum s) = true) /\
  (Snapshot.imbalance s = sell_dominant <->
   (Snapshot.sellSum s * R <? Snapshot.buySum s) = false /\
   (Snapshot.buySum s * R <? Snapshot.sellSum s) = true) /\
  (Snapshot.imbalance s = buy_dominant -> Snapshot.skipSellSide s = true) /\
  (Snapshot.imbalance s = sell_dominant -> Snapshot.skipBuySide s = true) /\
  (Snapshot.imbalance s = balanced ->
   Snapshot.skipSellSide s = JS.strictEq (Snapshot.sellSum s) 0 /\
   Snapshot.skipBuySide s = JS.strictEq (Snapshot.buySum s) 0).
Proof.
  cbv zeta.
  destruct (BinanceDepthFacts.apply_emission Number _ _ _ Hpublished)
    as (now1 & t1 & Hin & Hr & _).
  destruct (BinanceDepthFacts.emitDepthSnapshot_In Number _ _ _ Hin)
    as (_ & _ & buySum & sellSum & ->).
  assert (HR : ratioOf t1 = ratioOf t) by (unfold ratioOf; now rewrite Hr).
  cbn [summarize Snapshot.skipSellSide Snapshot.skipBuySide
       Snapshot.buySum Snapshot.sellSum Snapshot.imbalance].
  rewrite HR. unfold skipSellSideOf, skipBuySideOf, imbalanceOf.
  destruct (sellSum * ratioOf t <? buySum), (buySum * ratioOf t <? sellSum);
    rewrite ?orb_true_r, ?orb_false_r;
    repeat split; intros; try reflexivity; try discriminate;
    try (destruct H; discriminate).
Qed.

Local Abbreviation findBestPrice := (findBestPrice Number).
Local Abbreviation betterPrice := (betterPrice Number).
Local Abbreviation validEntry := (validEntry Number).
Local Abbreviation validBook := (validBook Number).

(** On a valid level only the comparison with the best so far is left. *)
Lemma betterPrice_valid side acc entry :
  validEntry entry ->
  betterPrice side acc entry
  = match acc with
    | None => Some (Number (fst entry))
    | Some b =>
      if match side with
         | bid => b <? Number (fst entry)
         | ask => Number (fst entry) <? b
         end
      then Some (Number (fst entry)) else acc
    end.
Proof.
  intros (_ & Fp & Pp & Fq & Pq). unfold BinanceDepth.betterPrice.
  rewrite Fq, Fp, (FloatOrder.ltb_not_geb _ _ Pq),
    (FloatOrder.ltb_not_geb _ _ Pp).
  cbn [negb orb]. destruct acc as [b|]; [|reflexivity].
  destruct side; reflexivity.
Qed.

Lemma fold_betterPrice side book :
  validBook book ->
  forall acc,
    (forall a, acc = Some a -> JS.isFinite a = true) ->
    match fold_left (betterPrice side) book acc with
    | None => acc = None /\ book = []
    | Some best =>
      JS.isFinite best = true /\
      (acc = Some best \/
       exists entry, In entry book /\ Number (fst entry) = best) /\
      (forall entry, In entry book ->
                     noBetterThan side best (Number (fst entry)) = true) /\
      (forall a, acc = Some a -> noBetterThan side best a = true)
    end.
Proof.
  induction 1 as [|entry book Hentry Hbook IH]; intros acc Hacc;
    cbn [fold_left].
  - destruct acc as [a|]; [|auto].
    split; [exact (Hacc a eq_refl)|]. split; [now left|].
    split; [intros ? []|].
    intros ? [= <-]. pose proof (FloatOrder.leb_refl a (Hacc a eq_refl)).
    now destruct side.
  - rewrite (betterPrice_valid side acc entry Hentry).
    destruct Hentry as (_ & Fp & _).
    set (price := Number (fst entry)) in *.
    destruct acc as [a|].
    + pose proof (Hacc a eq_refl) as Fa.
      destruct (match side with bid => a <? price | ask => price <? a end)
        eqn:Ebetter.
      * specialize (IH (Some price)).
        destruct (fold_left _ book (Some price)) as [best|];
          [|destruct IH as [? _]; [intros ? [= <-]; exact Fp|discriminate]].
        destruct IH as (Fb & Hfrom & Hall & Hacc');
          [intros ? [= <-]; exact Fp|].
        pose proof (Hacc' price eq_refl) as Hprice.
        repeat split; auto.
        -- right. destruct Hfrom as [[= <-]|(e & He & Heq)];
             [exists entry; split; [now left|reflexivity]
             |exists e; split; [now right|exact Heq]].
        -- intros e [<-|He]; [exact Hprice|now apply Hall].
        -- intros ? [= <-].
           destruct side; cbn [noBetterThan] in *;
             [exact (FloatOrder.leb_trans _ _ _
                       (FloatOrder.ltb_leb _ _ Ebetter) Hprice)
             |exact (FloatOrder.leb_trans _ _ _ Hprice
                       (FloatOrder.ltb_leb _ _ Ebetter))].
      * specialize (IH (Some a)).
        destruct (fold_left _ book (Some a)) as [best|];
          [|destruct IH as [? _]; [intros ? [= <-]; exact Fa|discriminate]].
        destruct IH as (Fb & Hfrom & Hall & Hacc');
          [intros ? [= <-]; exact Fa|].
        pose proof (Hacc' a eq_refl) as Ha.
        repeat split; auto.
        -- destruct Hfrom as [E|(e & He & Heq)]; [now left|].
           right. exists e. split; [now right|exact Heq].
        -- intros e [<-|He]; [|now apply Hall].
           fold price.
           destruct side; cbn [noBetterThan] in *;
             [exact (FloatOrder.leb_trans _ _ _
                       (FloatOrder.ltb_false_leb _ _ Fa Fp Ebetter) Ha)
             |exact (FloatOrder.leb_trans _ _ _ Ha
                       (FloatOrder.ltb_false_leb _ _ Fp Fa Ebetter))].
    + specialize (IH (Some price)).
      destruct (fold_left _ book (Some price)) as [best|];
        [|destruct IH as [? _]; [intros ? [= <-]; exact Fp|discriminate]].
      destruct IH as (Fb & Hfrom & Hall & Hacc');
        [intros ? [= <-]; exact Fp|].
      pose proof (Hacc' price eq_refl) as Hprice.
      repeat split; auto; [|intros e [<-|He]; [exact Hprice|now apply Hall]
                            |discriminate].
      right. destruct Hfrom as [[= <-]|(e & He & Heq)];
        [exists entry; split; [now left|reflexivity]
        |exists e; split; [now right|exact Heq]].
Qed.

(** X24. The best prices of a tracker.  A side has no best price exactly
    when it is empty; otherwise the best bid is the price of a stored bid
    and no stored bid is higher, and the best ask is the price of a stored
    ask and no stored ask is lower. *)
Theorem best_prices_are_extremal (t : Tracker) (side : BookSide)
    (Hreach : reachable t) :
  let book := match side with bid => bidBook t | ask => askBook t end in
  match findBestPrice book side with
  | None => book = []
  | Some best =>
    (exists price qty, In (price, qty) book /\ Number price = best) /\
    forall price qty,
      In (price, qty) book -> noBetterThan side best (Number price) = true
  end.
Proof.
  cbv zeta.
  destruct (reachable_wellFormed Number t Hreach) as (Hb & Ha & _).
  assert (Hvalid : validBook match side with bid => bidBook t | ask => askBook t end)
    by (destruct side; assumption).
  pose proof (fold_betterPrice side _ Hvalid None) as H.
  unfold BinanceDepth.findBestPrice.
  destruct (fold_left _ _ None) as [best|].
  - destruct H as (_ & Hfrom & Hall & _); [discriminate|].
    split.
    + destruct Hfrom as [?|([price qty] & He & Heq)]; [discriminate|].
      now exists price, qty.
    + intros price qty Hin. exact (Hall (price, qty) Hin).
  - now destruct H as [_ H]; [discriminate|].
Qed.

End Behaviour.

Lemma best_prices_are_extremal_witness :
  let levels := {| Rest.lastUpdateId := 8;
                   Rest.bids := [("99", "3"); ("100", "1")];
                   Rest.asks := [("103", "1"); ("101", "2")] |} in
  let t := applyAll JS.decimalNumber
             [opStart; opOpen 0; opMessage (Some event_5_7) 1;
              opFetchCompleted (fetchBody levels) 2]
             (create "BTCUSDT" None None) in
  findBestPrice JS.decimalNumber (bidBook t) bid = Some 100 /\
  match findBestPrice JS.decimalNumber (bidBook t) bid with
  | None => bidBook t = []
  | Some best =>
    (exists price qty, In (price, qty) (bidBook t) /\
                       JS.decimalNumber price = best) /\
    forall price qty,
      In (price, qty) (bidBook t) ->
      noBetterThan bid best (JS.decimalNumber price) = true
  end.
Proof.
  cbv zeta. split; [vm_compute; reflexivity|].
  apply (best_prices_are_extremal JS.decimalNumber _ bid).
  cbn [applyAll]. repeat apply reachable_apply. apply reachable_create.
Defined.

Lemma stopped_tracker_stays_offline_witness :
  let ops := [opReconnectTimer; opMessage (Some event_9_10) 3;
              opHeartbeat 100000; opClose; opRefreshTimer] in
  let t' := applyAll JS.decimalNumber ops (stop bootstrapped) in
  stopped t' = true /\ started t' = false /\ ws t' = false /\
  reconnectTimer t' = false /\
  (syncInFlight bootstrapped = None -> syncInFlight t' = None).
Proof.
  apply (stopped_tracker_stays_offline JS.decimalNumber).
  repeat constructor; discriminate.
Defined.

Lemma unready_tracker_buffers_witness :
  let t := applyAll JS.decimalNumber [opStart; opOpen 0]
             (create "BTCUSDT" None None) in
  let r := handleMessage JS.decimalNumber (Some event_5_7) 1 t in
  snd r = [] /\
  bidBook (fst r) = bidBook t /\ askBook (fst r) = askBook t /\
  localLastUpdateId (fst r) = localLastUpdateId t /\
  snapshot (fst r) = snapshot t /\
  orderBookReady (fst r) = false /\
  (exists older, eventBuffer (fst r) = older ++ [event_5_7]) /\
  (syncInFlight t = None -> started t = true -> stopped t = false ->
   exists firstBuffered,
     hd_error (eventBuffer (fst r)) = Some firstBuffered /\
     syncInFlight (fst r) = Some (bootstrapping 0 firstBuffered)).
Proof.
  apply (unready_tracker_buffers JS.decimalNumber).
  vm_compute. reflexivity.
Defined.

Lemma rest_failure_is_counted_witness :
  let t := applyAll JS.decimalNumber
             [opStart; opOpen 0; opMessage (Some event_5_7) 1]
             (create "BTCUSDT" None None) in
  let r := onFetchCompleted JS.decimalNumber (fetchFailed "HTTP 500") 2 t in
  syncInFlight t = Some (bootstrapping 0 event_5_7) /\
  restConsecutiveFailures (fst r) = 1%Z /\
  restLastError (fst r) = Some "HTTP 500" /\
  syncInFlight (fst r) = None /\
  Health.healthy (getHealth 3 (fst r)) = false.
Proof.
  cbv zeta.
  assert (Hreach : reachable JS.decimalNumber
                     (applyAll JS.decimalNumber
                        [opStart; opOpen 0; opMessage (Some event_5_7) 1]
                        (create "BTCUSDT" None None))).
  { cbn [applyAll]. repeat apply reachable_apply. apply reachable_create. }
  assert (Htask : syncInFlight
                    (applyAll JS.decimalNumber
                       [opStart; opOpen 0; opMessage (Some event_5_7) 1]
                       (create "BTCUSDT" None None))
                  = Some (bootstrapping 0 event_5_7))
    by (vm_compute; reflexivity).
  destruct (rest_failure_is_counted JS.decimalNumber (fetchFailed "HTTP 500") 2
              _ _ Hreach Htask) as [Hfail _].
  destruct (Hfail eq_refl) as (_ & H2 & H3 & _ & _ & _ & _ & _ & _ & H10).
  split; [exact Htask|]. split; [rewrite H3; vm_compute; reflexivity|].
  split; [vm_compute; reflexivity|]. split; [exact H2|].
  apply H10. vm_compute. reflexivity.
Defined.

Lemma imbalance_agrees_with_skip_flags_witness :
  let s := published_9_10 in
  let R := ratioOf bootstrapped in
  (Snapshot.imbalance s = buy_dominant <->
   (Snapshot.sellSum s * R <? Snapshot.buySum s) = true) /\
  (Snapshot.imbalance s = sell_dominant <->
   (Snapshot.sellSum s * R <? Snapshot.buySum s) = false /\
   (Snapshot.buySum s * R <? Snapshot.sellSum s) = true) /\
  (Snapshot.imbalance s = buy_dominant -> Snapshot.skipSellSide s = true) /\
  (Snapshot.imbalance s = sell_dominant -> Snapshot.skipBuySide s = true) /\
  (Snapshot.imbalance s = balanced ->
   Snapshot.skipSellSide s = JS.strictEq (Snapshot.sellSum s) 0 /\
   Snapshot.skipBuySide s = JS.strictEq (Snapshot.buySum s) 0).
Proof.
  exact (imbalance_agrees_with_skip_flags JS.decimalNumber
           (opMessage (Some event_9_10) 3) bootstrapped published_9_10
           BinanceDepthFacts.published_9_10_In).
Defined.

End BinanceDepthExtras.
